(** * kdsb17.model: the Keras model classes of the lung-screening pipeline

    A shallow embedding of [kdsb17/model.py].  The module wires Keras layers
    into two networks ([GaussianMixtureCAE] and [LungNet]) on top of the
    shared facilities of [NakedModel] and [Encoder].

    The Python code is effectful: constructing a layer draws a fresh object
    and possibly an automatic name from a global counter, calling a layer on
    a tensor can raise, training and prediction talk to the framework.  The
    embedding threads a [world] through a small state-and-exception monad
    [Py], and keeps the Python objects as records.

    What Keras and numpy do is not part of this repository; the parts the
    module relies on (static shape inference of the layers that are used,
    [Model.get_layer], [numpy.split], index broadcasting) are transcribed
    from the libraries' documented behaviour and kept in their own modules
    ([Keras], [Numpy]). *)

From Stdlib Require Import Ascii String ZArith QArith Reals Lra Lia.
From stdpp Require Import base strings list gmap pretty.

Set Warnings "-register-all".
Open Scope string_scope.
Open Scope list_scope.
Open Scope Z_scope.

(** ** Python runtime *)

Inductive exn :=
| ValueError | IndexError | AttributeError | RuntimeError | AssertionError.

Inductive result (A : Type) :=
| Ok (a : A)
| Raise (e : exn).
Arguments Ok {A} a.
Arguments Raise {A} e.

(** [a[i]] with Python's negative indices. *)
Definition py_index {A} (l : list A) (i : Z) : option A :=
  let n := Z.of_nat (length l) in
  if decide (0 <= i) then l !! Z.to_nat i
  else if decide (0 <= i + n) then l !! Z.to_nat (i + n)
  else None.

(** [enumerate(l)]. *)
Fixpoint enumerate_from {A} (i : nat) (l : list A) : list (nat * A) :=
  match l with
  | [] => []
  | a :: l' => (i, a) :: enumerate_from (S i) l'
  end.
Definition enumerate {A} (l : list A) : list (nat * A) := enumerate_from 0 l.

(** [s.endswith('/')] and [os.path.join(a, b)] of [posixpath]. *)
Fixpoint endswith_sep (s : string) : bool :=
  match s with
  | EmptyString => false
  | String c EmptyString => bool_decide (c = "/"%char)
  | String _ s' => endswith_sep s'
  end.

Definition path_join (a b : string) : string :=
  if String.prefix "/" b then b
  else if bool_decide (a = "") || endswith_sep a then a +:+ b
  else a +:+ "/" +:+ b.

(** ** The parts of Keras the module uses *)

Module Keras.

(** A static dimension is an integer or [None]. *)
Definition dim := option Z.
Definition shape := list dim.

(** The [activation] argument of [Dense]: absent, the name of a built-in,
    or the function [kdsb17.activations.log_softmax]. *)
Inductive activation :=
| act_none
| act_builtin (name : string)
| act_log_softmax.

(** The layer classes that [model.py] instantiates, with the constructor
    arguments it passes. *)
Inductive layer_class :=
| InputLayer (batch_shape : shape)
| Conv3D (filters : Z) (kernel_size strides : Z * Z * Z) (padding : string)
| Conv3DTranspose (filters : Z) (kernel_size strides : Z * Z * Z) (padding : string)
| BatchNormalization (axis : Z)
| Activation (fn : string)
| Flatten
| Dense (units : Z) (act : activation)
| ShiftedELU (shift alpha : Q)
| Concatenate (axis : Z)
| SpatialPyramidPooling3D (nb_bins_per_level : list Z)
| Dropout (rate : Q).

(** A layer object: [lid] stands for the identity of the Python object. *)
Record layer := {
  lid : nat;
  lname : string;
  lclass : layer_class;
  trainable : bool
}.

(** A symbolic tensor remembers the layer that produced it, the tensors
    that layer was called on, and its static shape. *)
Inductive tensor :=
| Tensor (producer : layer) (inbound : list tensor) (keras_shape : shape).

Definition producer (t : tensor) : layer := let 'Tensor l _ _ := t in l.
Definition inbound (t : tensor) : list tensor := let 'Tensor _ i _ := t in i.
Definition int_shape (t : tensor) : shape := let 'Tensor _ _ s := t in s.

(** Callbacks, with the arguments [model.py] sets. *)
Inductive callback :=
| ModelCheckpoint (filepath monitor : string) (save_best_only save_weights_only : bool)
| EarlyStopping (monitor : string) (min_delta patience : Z)
| CSVLogger (filename : string)
| BatchLossCSVLogger (filename : string)
| TensorBoard (log_dir : string) (histogram_freq : Z) (write_grads : bool)
| TerminateOnNaN.

(** What is handed to [compile]. *)
Inductive optimizer_arg :=
| opt_name (s : string)
| opt_object (id : nat).

Inductive loss_arg :=
| loss_name (s : string)
| loss_gmd_log_likelihood (c m : Z).

Record compile_args := {
  c_optimizer : optimizer_arg;
  c_loss : option loss_arg;
  c_metrics : list string
}.

Record Model := {
  m_input : tensor;
  m_output : tensor;
  layers : list layer;
  compiled : option compile_args
}.

End Keras.
Export Keras.

(** ** The world outside the objects *)

(** A data generator is an opaque Python object. *)
Inductive generator := Generator (id : nat).

Record fit_args := {
  fa_generator : generator;
  fa_steps_per_epoch : Z;
  fa_epochs : Z;
  fa_callbacks : list callback;
  fa_validation_data : generator;
  fa_validation_steps : Z
}.

Inductive event :=
| EvMakedir (path : string)
| EvPrint (line : string)
| EvFitGenerator (m : Model) (args : fit_args)
| EvPredict (m : Model) (input_shape : list nat)
| EvLoadWeights (m : Model) (path : string) (by_name : bool).

Record world := {
  next_id : nat;                (* next fresh object identity *)
  uids : gmap string nat;       (* Keras' per-prefix name counters *)
  events : list event           (* effects so far, oldest first *)
}.

Definition Py (A : Type) : Type := world -> result A * world.

Definition ret {A} (a : A) : Py A := fun w => (Ok a, w).
Definition raise {A} (e : exn) : Py A := fun w => (Raise e, w).
Definition bind {A B} (c : Py A) (k : A -> Py B) : Py B :=
  fun w => match c w with
           | (Ok a, w') => k a w'
           | (Raise e, w') => (Raise e, w')
           end.

Notation "x <- c ;; k" := (bind c (fun x => k))
  (at level 100, c at next level, right associativity).
Notation "c ;;; k" := (bind c (fun _ => k))
  (at level 100, right associativity).

Definition emit (e : event) : Py unit :=
  fun w => (Ok tt, {| next_id := next_id w; uids := uids w; events := events w ++ [e] |}).

(** [for x in xs: acc = body(acc, x)]. *)
Fixpoint for_each {A B} (xs : list B) (body : A -> B -> Py A) (acc : A) : Py A :=
  match xs with
  | [] => ret acc
  | x :: xs' => acc' <- body acc x ;; for_each xs' body acc'
  end.

(** ** Keras: constructing and calling layers *)

Module KerasOps.

(** [keras.utils.conv_utils.conv_output_length], dilation 1. *)
Definition conv_output_length (input_length : dim) (filter_size : Z)
    (padding : string) (stride : Z) : dim :=
  match input_length with
  | None => None
  | Some n =>
      let output_length :=
        if bool_decide (padding = "same") then n else n - filter_size + 1 in
      Some ((output_length + stride - 1) `div` stride)
  end.

(** [keras.utils.conv_utils.deconv_length]. *)
Definition deconv_length (dim_size : dim) (stride_size kernel_size : Z)
    (padding : string) : dim :=
  match dim_size with
  | None => None
  | Some n =>
      if bool_decide (padding = "valid")
      then Some (n * stride_size + Z.max (kernel_size - stride_size) 0)
      else Some (n * stride_size)
  end.

Definition is_defined (d : dim) : bool :=
  match d with Some _ => true | None => false end.

(** Python truth of a dimension: [None] and [0] are false. *)
Definition truthy (d : dim) : bool :=
  match d with Some n => negb (n =? 0) | None => false end.

Definition prod_dims (ds : list dim) : Z :=
  foldr (fun d acc => default 0 d * acc) 1 ds.

Definition cube_sum (bins : list Z) : Z :=
  foldr (fun b acc => b * b * b + acc) 0 bins.

(** The position a Python index denotes in a sequence of length [n]. *)
Definition py_pos (n : nat) (i : Z) : option nat :=
  if decide (0 <= i < Z.of_nat n) then Some (Z.to_nat i)
  else if decide (- Z.of_nat n <= i < 0) then Some (Z.to_nat (i + Z.of_nat n))
  else None.

Definition conv3d_shape (len : dim -> Z -> Z -> dim) (filters : Z)
    (kernel_size strides : Z * Z * Z) (s : shape) : result shape :=
  let '(k1, k2, k3) := kernel_size in
  let '(s1, s2, s3) := strides in
  match s with
  | [b; d1; d2; d3; ch] =>
      if is_defined ch
      then Ok [b; len d1 k1 s1; len d2 k2 s2; len d3 k3 s3; Some filters]
      else Raise ValueError
  | _ => Raise ValueError
  end.

Definition concat_shape (axis : Z) (ss : list shape) : result shape :=
  match ss with
  | [] => Raise ValueError
  | s0 :: rest =>
      match py_pos (length s0) axis with
      | None => Raise IndexError
      | Some p =>
          if forallb (fun s => bool_decide (length s = length s0 /\ delete p s = delete p s0)) rest
          then
            let total :=
              foldl (fun acc s =>
                       match acc, s !! p with
                       | Some a, Some (Some d) => Some (a + d)
                       | _, _ => None
                       end) (mjoin (s0 !! p)) rest in
            Ok (<[p := total]> s0)
          else Raise ValueError
      end
  end.

(** Static shape of the result of calling a layer, or the exception the
    call raises, after [Layer.__call__] of Keras 2.0: the input is checked
    against the layer's [InputSpec], the layer is built, and the shape
    comes from [compute_output_shape].
    - [Conv3D], [Conv3DTranspose]: 5-D input whose channel dimension (the
      last, the data format being channels-last) is defined; each spatial
      length goes through [conv_output_length], resp. [deconv_length].
    - [BatchNormalization]: [build] reads [dim = input_shape[self.axis]]
      and raises [ValueError] when [dim is None].
    - [Flatten]: at least 3-D, [ValueError] unless [all(input_shape[1:])].
    - [Dense]: at least 2-D, the last dimension defined and, by the
      [assert] of [compute_output_shape], not zero.
    - [Concatenate]: the shapes must agree outside [axis]; the lengths
      along [axis] add up.
    - [Activation], [Dropout]: the shape of the input.
    [SpatialPyramidPooling3D] and [ShiftedELU] are layers of this
    repository whose sources are not part of [model.py]:

    Modelled from the spec: [kdsb17.layers.SpatialPyramidPooling3D] pools
    each channel of a 5-D tensor into [b*b*b] bins for every level [b] and
    concatenates the results, which gives a vector whose length does not
    depend on the spatial size; [kdsb17.advanced_activations.ShiftedELU] is
    an element-wise activation. *)
Definition compute_output_shape (c : layer_class) (ins : list shape) : result shape :=
  match c, ins with
  | InputLayer bs, [] => Ok bs
  | Conv3D f k st p, [s] =>
      conv3d_shape (fun d k s => conv_output_length d k p s) f k st s
  | Conv3DTranspose f k st p, [s] =>
      conv3d_shape (fun d k s => deconv_length d s k p) f k st s
  | BatchNormalization axis, [s] =>
      match py_index s axis with
      | None => Raise IndexError
      | Some None => Raise ValueError
      | Some (Some _) => Ok s
      end
  | Activation _, [s] => Ok s
  | Dropout _, [s] => Ok s
  | ShiftedELU _ _, [s] => Ok s
  | Flatten, [s] =>
      match s with
      | b :: rest =>
          if bool_decide (3 <= length s)%nat && forallb truthy rest
          then Ok [b; Some (prod_dims rest)]
          else Raise ValueError
      | [] => Raise ValueError
      end
  | Dense units _, [s] =>
      if bool_decide (2 <= length s)%nat then
        match last s with
        | Some (Some d) =>
            if d =? 0 then Raise AssertionError
            else Ok (removelast s ++ [Some units])
        | _ => Raise ValueError
        end
      else Raise ValueError
  | Concatenate axis, _ => concat_shape axis ins
  | SpatialPyramidPooling3D bins, [s] =>
      match s with
      | [b; _; _; _; Some ch] => Ok [b; Some (ch * cube_sum bins)]
      | _ => Raise ValueError
      end
  | _, _ => Raise ValueError
  end.

(** Arguments rejected by a constructor: the convolutions accept only the
    paddings ['valid'] and ['same'], the two that [Encoder] documents. *)
Definition check_args (c : layer_class) : Py unit :=
  match c with
  | Conv3D _ _ _ p | Conv3DTranspose _ _ _ p =>
      if bool_decide (p = "valid") || bool_decide (p = "same")
      then ret tt else raise ValueError
  | _ => ret tt
  end.

(** The prefix of automatic names, the snake-cased class name. *)
Definition class_prefix (c : layer_class) : string :=
  match c with
  | InputLayer _ => "input"
  | Conv3D _ _ _ _ => "conv3d"
  | Conv3DTranspose _ _ _ _ => "conv3d_transpose"
  | BatchNormalization _ => "batch_normalization"
  | Activation _ => "activation"
  | Flatten => "flatten"
  | Dense _ _ => "dense"
  | ShiftedELU _ _ => "shifted_elu"
  | Concatenate _ => "concatenate"
  | SpatialPyramidPooling3D _ => "spatial_pyramid_pooling3d"
  | Dropout _ => "dropout"
  end.

(** [K.get_uid(prefix)]: bump the counter of [prefix] and return it. *)
Definition get_uid (prefix : string) : Py nat :=
  fun w =>
    let n := S (default 0%nat (uids w !! prefix)) in
    (Ok n, {| next_id := next_id w;
              uids := <[prefix := n]> (uids w);
              events := events w |}).

Definition fresh_id : Py nat :=
  fun w =>
    (Ok (next_id w), {| next_id := S (next_id w);
                        uids := uids w;
                        events := events w |}).

(** [Layer.__init__]: a layer without a name gets [prefix_uid]. *)
Definition new_layer (c : layer_class) (name : option string) : Py layer :=
  check_args c ;;;
  nm <- match name with
        | Some s =>
            if bool_decide (s = "")
            then (n <- get_uid (class_prefix c) ;; ret (class_prefix c +:+ "_" +:+ pretty n))
            else ret s
        | None => n <- get_uid (class_prefix c) ;; ret (class_prefix c +:+ "_" +:+ pretty n)
        end ;;
  i <- fresh_id ;;
  ret {| lid := i; lname := nm; lclass := c; trainable := true |}.

(** [layer(inputs)]. *)
Definition call (l : layer) (ins : list tensor) : Py tensor :=
  match compute_output_shape (lclass l) (int_shape <$> ins) with
  | Ok s => ret (Tensor l ins s)
  | Raise e => raise e
  end.

(** [Cls(args, name=name)(inputs)], the idiom of [model.py]. *)
Definition apply_new (c : layer_class) (name : option string) (ins : list tensor)
    : Py tensor :=
  l <- new_layer c name ;; call l ins.

(** [Input(shape=shape)]. *)
Definition Input (shape : Keras.shape) : Py tensor :=
  apply_new (InputLayer (None :: shape)) None [].

(** The layers a tensor depends on, inputs first. *)
Fixpoint tensor_layers (t : tensor) : list layer :=
  match t with
  | Tensor l ins _ =>
      (fix go (ts : list tensor) : list layer :=
         match ts with
         | [] => []
         | t' :: ts' => tensor_layers t' ++ go ts'
         end) ins ++ [l]
  end.

(** One entry per layer object. *)
Fixpoint dedup_by_lid (seen : list nat) (ls : list layer) : list layer :=
  match ls with
  | [] => []
  | l :: ls' =>
      if bool_decide (lid l ∈ seen) then dedup_by_lid seen ls'
      else l :: dedup_by_lid (lid l :: seen) ls'
  end.

(** [Model(inputs, outputs)]: collects the layers between input and output
    and insists on unique layer names.  (Keras orders [layers] by depth;
    with unique names no method used here depends on the order.) *)
Definition new_Model (inp out : option tensor) : Py Model :=
  match inp, out with
  | Some i, Some o =>
      let ls := dedup_by_lid [] (tensor_layers o) in
      if bool_decide (lid (producer i) ∈ lid <$> ls) then
        if decide (NoDup (lname <$> ls))
        then ret {| m_input := i; m_output := o; layers := ls; compiled := None |}
        else raise RuntimeError
      else raise RuntimeError
  | _, _ => raise AttributeError
  end.

(** [model.get_layer(name=name)]. *)
Definition get_layer (m : Model) (name : string) : result layer :=
  if bool_decide (name = "") then Raise ValueError
  else match list_find (fun l => lname l = name) (layers m) with
       | Some (_, l) => Ok l
       | None => Raise ValueError
       end.

(** [layer.trainable = v] for the layer object [l] of model [m]. *)
Definition set_trainable (m : Model) (l : layer) (v : bool) : Model :=
  {| m_input := m_input m; m_output := m_output m;
     layers := (fun l' => if bool_decide (lid l' = lid l)
                          then {| lid := lid l'; lname := lname l';
                                  lclass := lclass l'; trainable := v |}
                          else l') <$> layers m;
     compiled := compiled m |}.

(** [model.compile(optimizer=..., loss=..., metrics=...)]. *)
Definition compile (m : Model) (a : compile_args) : Model :=
  {| m_input := m_input m; m_output := m_output m;
     layers := layers m; compiled := Some a |}.

End KerasOps.
Export KerasOps.

(** ** model.py *)

(** *** class NakedModel *)

Record NakedModel := {
  model_path : string;
  weights_name_format : string;
  optimizer : optimizer_arg;
  es_patience : Z;
  histogram_freq : Z;
  _loss : option loss_arg;
  _input_layer : option tensor;
  _output_layer : option tensor;
  _model : option Model
}.

Definition NakedModel_init (optimizer : optimizer_arg) (es_patience : Z)
    (model_path weights_name_format : string) (histogram_freq : Z) : NakedModel :=
  {| model_path := model_path;
     weights_name_format := weights_name_format;
     optimizer := optimizer;
     es_patience := es_patience;
     histogram_freq := histogram_freq;
     _loss := None;
     _input_layer := None;
     _output_layer := None;
     _model := None |}.

Definition set_loss (self : NakedModel) (l : option loss_arg) : NakedModel :=
  {| model_path := model_path self; weights_name_format := weights_name_format self;
     optimizer := optimizer self; es_patience := es_patience self;
     histogram_freq := histogram_freq self; _loss := l;
     _input_layer := _input_layer self; _output_layer := _output_layer self;
     _model := _model self |}.

Definition set_input_layer (self : NakedModel) (t : option tensor) : NakedModel :=
  {| model_path := model_path self; weights_name_format := weights_name_format self;
     optimizer := optimizer self; es_patience := es_patience self;
     histogram_freq := histogram_freq self; _loss := _loss self;
     _input_layer := t; _output_layer := _output_layer self;
     _model := _model self |}.

Definition set_output_layer (self : NakedModel) (t : option tensor) : NakedModel :=
  {| model_path := model_path self; weights_name_format := weights_name_format self;
     optimizer := optimizer self; es_patience := es_patience self;
     histogram_freq := histogram_freq self; _loss := _loss self;
     _input_layer := _input_layer self; _output_layer := t;
     _model := _model self |}.

Definition set_model (self : NakedModel) (m : option Model) : NakedModel :=
  {| model_path := model_path self; weights_name_format := weights_name_format self;
     optimizer := optimizer self; es_patience := es_patience self;
     histogram_freq := histogram_freq self; _loss := _loss self;
     _input_layer := _input_layer self; _output_layer := _output_layer self;
     _model := m |}.

(** Modelled from the spec: [kdsb17.utils.file.makedir] is not part of
    [model.py]; it creates the directory it is given. *)
Definition makedir (path : string) : Py unit := emit (EvMakedir path).

Definition _build_callbacks (self : NakedModel) : Py (list callback) :=
  makedir (model_path self) ;;;
  let checkpointer :=
    ModelCheckpoint (path_join (model_path self) (weights_name_format self))
                    "val_loss" true true in
  let early_stopper := EarlyStopping "val_loss" 0 (es_patience self) in
  let epoch_logger := CSVLogger (path_join (model_path self) "epoch_log.csv") in
  let batch_logger := BatchLossCSVLogger (path_join (model_path self) "batch_log.csv") in
  let tensorboard_path := path_join (model_path self) "tensorboard" in
  let tensorboard :=
    TensorBoard tensorboard_path (histogram_freq self) (0 <? histogram_freq self) in
  let terminator := TerminateOnNaN in
  ret [checkpointer; early_stopper; epoch_logger; batch_logger; tensorboard; terminator].

(** [self._model.compile(optimizer=self.optimizer, loss=self._loss)]. *)
Definition NakedModel_compile_model (self : NakedModel) : Py NakedModel :=
  match _model self with
  | None => raise AttributeError
  | Some m =>
      ret (set_model self
             (Some (compile m {| c_optimizer := optimizer self;
                                 c_loss := _loss self;
                                 c_metrics := [] |})))
  end.

(** [model.fit_generator(...)]: training is an effect on the world; the
    [History] object it returns is opaque. *)
Inductive History := KerasHistory (m : Model) (args : fit_args).

Definition keras_fit_generator (m : Model) (args : fit_args) : Py History :=
  emit (EvFitGenerator m args) ;;; ret (KerasHistory m args).

(** The subclasses of [NakedModel]: each carries the base object and has
    its own [_build_layers]; [_compile_model] may be overridden. *)
Class NakedModelClass (Self : Type) := {
  base : Self -> NakedModel;
  with_base : Self -> NakedModel -> Self;
  _build_layers : Self -> Py Self;
  _compile_model : Self -> Py Self
}.

Section NakedModelMethods.
Context {Self : Type} `{NakedModelClass Self}.

(** One turn of the freezing loop of [build_model]. *)
Definition freeze_layer (self : Self) (layer_name : string) : Py Self :=
  match _model (base self) with
  | None => raise AttributeError
  | Some m =>
      match get_layer m layer_name with
      | Raise e => raise e
      | Ok layer =>
          let m' := set_trainable m layer false in
          emit (EvPrint (layer_name +:+ " is set to " +:+ pretty (Z.b2z false))) ;;;
          ret (with_base self (set_model (base self) (Some m')))
      end
  end.

Definition build_model (self : Self) (freeze : option (list string)) : Py Self :=
  self <- _build_layers self ;;
  m <- new_Model (_input_layer (base self)) (_output_layer (base self)) ;;
  let self := with_base self (set_model (base self) (Some m)) in
  self <- match freeze with
          | Some names => for_each names freeze_layer self
          | None => ret self
          end ;;
  _compile_model self.

Definition load_weights_from_file (self : Self) (path : string) : Py unit :=
  match _model (base self) with
  | None => raise AttributeError
  | Some m =>
      emit (EvLoadWeights m path true) ;;;
      emit (EvPrint "Loaded weights from file.")
  end.

Definition fit_generator (self : Self) (train_generator : generator)
    (steps_per_epoch epochs : Z) (validation_generator : generator)
    (validation_steps : Z) : Py History :=
  callbacks <- _build_callbacks (base self) ;;
  match _model (base self) with
  | None => raise AttributeError
  | Some m =>
      history <- keras_fit_generator m
                   {| fa_generator := train_generator;
                      fa_steps_per_epoch := steps_per_epoch;
                      fa_epochs := epochs;
                      fa_callbacks := callbacks;
                      fa_validation_data := validation_generator;
                      fa_validation_steps := validation_steps |} ;;
      ret history
  end.

End NakedModelMethods.

(** [self._model.summary()] prints the lines Keras renders for the model;
    what they say is Keras' business. *)
Section Summary.
Context {Self : Type} `{NakedModelClass Self}.
Variable summary_lines : Model -> list string.

Definition summary (self : Self) : Py unit :=
  match _model (base self) with
  | None => raise AttributeError
  | Some m => for_each (summary_lines m) (fun _ line => emit (EvPrint line)) tt
  end.

End Summary.

(** *** class Encoder *)

Record Encoder := {
  nb_filters_per_layer : list Z;
  kernel_size : Z * Z * Z;
  padding : string;
  batch_normalization : bool
}.

(** [BatchNormalization(mode=0, axis=1, ...)]: [mode=0] is the legacy
    spelling of the only mode Keras 2 has. *)
Definition _custom_conv3d (self : Encoder) (layer : tensor) (nb_filters : Z)
    (strides : Z * Z * Z) (name : string) : Py tensor :=
  layer <- apply_new (Conv3D nb_filters (kernel_size self) strides (padding self))
                     (Some ("encoder_conv_" +:+ name)) [layer] ;;
  layer <- (if batch_normalization self
            then apply_new (BatchNormalization 1) (Some ("encoder_bn_" +:+ name)) [layer]
            else ret layer) ;;
  apply_new (Activation "relu") (Some ("encoder_act_" +:+ name)) [layer].

Definition _build_encoder_layers (self : Encoder) (layer : tensor) : Py tensor :=
  for_each (enumerate (nb_filters_per_layer self))
    (fun layer '(i, nb_filters) =>
       layer <- _custom_conv3d self layer nb_filters (1, 1, 1) ("1-2_" +:+ pretty i) ;;
       _custom_conv3d self layer nb_filters (2, 2, 2) ("2-1_" +:+ pretty i))
    layer.

(** *** class GaussianMixtureCAE(Encoder, NakedModel) *)

Record GaussianMixtureCAE := {
  gm_encoder : Encoder;
  gm_naked : NakedModel;
  input_shape : Z * Z * Z;
  n_gaussians : Z;
  n_dense_log_prior : Z;
  n_dense_sigma_sq : Z
}.

(** Modelled from the spec: [kdsb17.losses.build_gmd_log_likelihood] is not
    part of [model.py]; it returns the Gaussian Mixture Density
    log-likelihood loss for [c] output dimensions and [m] Gaussians, kept
    here as the symbolic value [loss_gmd_log_likelihood c m]. *)
Definition build_gmd_log_likelihood (c m : Z) : loss_arg :=
  loss_gmd_log_likelihood c m.

Definition GaussianMixtureCAE_init (n_gaussians : Z) (input_shape : Z * Z * Z)
    (nb_filters_per_layer : list Z) (kernel_size : Z * Z * Z) (padding : string)
    (batch_normalization : bool) (optimizer : optimizer_arg) (es_patience : Z)
    (model_path weights_name_format : string) (histogram_freq : Z)
    : GaussianMixtureCAE :=
  let naked := NakedModel_init optimizer es_patience model_path
                               weights_name_format histogram_freq in
  let encoder := {| nb_filters_per_layer := nb_filters_per_layer;
                    kernel_size := kernel_size;
                    padding := padding;
                    batch_normalization := batch_normalization |} in
  let '(z, y, x) := input_shape in
  let c := z * y * x in
  {| gm_encoder := encoder;
     gm_naked := set_loss naked (Some (build_gmd_log_likelihood c n_gaussians));
     input_shape := input_shape;
     n_gaussians := n_gaussians;
     n_dense_log_prior := 128;
     n_dense_sigma_sq := 128 |}.

Definition gm_with_naked (self : GaussianMixtureCAE) (n : NakedModel)
    : GaussianMixtureCAE :=
  {| gm_encoder := gm_encoder self; gm_naked := n;
     input_shape := input_shape self; n_gaussians := n_gaussians self;
     n_dense_log_prior := n_dense_log_prior self;
     n_dense_sigma_sq := n_dense_sigma_sq self |}.

Definition _custom_conv3dtranspose (self : GaussianMixtureCAE) (layer : tensor)
    (nb_filters : Z) (strides : Z * Z * Z) (name : string) : Py tensor :=
  let enc := gm_encoder self in
  layer <- apply_new (Conv3DTranspose nb_filters (kernel_size enc) strides (padding enc))
                     (Some ("decoder_conv_" +:+ name)) [layer] ;;
  layer <- (if batch_normalization enc
            then apply_new (BatchNormalization 1) (Some ("decoder_bn_" +:+ name)) [layer]
            else ret layer) ;;
  apply_new (Activation "relu") (Some ("decoder_act_" +:+ name)) [layer].

Definition _build_decoder_layers (self : GaussianMixtureCAE) (layer : tensor)
    : Py tensor :=
  for_each (enumerate (rev (nb_filters_per_layer (gm_encoder self))))
    (fun layer '(i, nb_filters) =>
       layer <- _custom_conv3dtranspose self layer nb_filters (2, 2, 2)
                                        ("2-1_" +:+ pretty i) ;;
       _custom_conv3dtranspose self layer nb_filters (1, 1, 1)
                               ("1-2_" +:+ pretty i))
    layer.

Definition _build_gmd_layers (self : GaussianMixtureCAE) (encoded decoded : tensor)
    : Py tensor :=
  let ks := kernel_size (gm_encoder self) in
  (* Log-priors *)
  log_prior <- apply_new (Conv3D 1 ks (1, 1, 1) "same") (Some "log_prior_conv3d") [encoded] ;;
  log_prior <- apply_new Flatten (Some "log_prior_flatten") [log_prior] ;;
  log_prior <- apply_new (Dense (n_dense_log_prior self) (act_builtin "relu"))
                         (Some "log_prior_dense_1") [log_prior] ;;
  log_prior <- apply_new (Dense (n_gaussians self) act_log_softmax)
                         (Some "log_prior") [log_prior] ;;
  (* Means *)
  mu <- apply_new (Conv3D (n_gaussians self) ks (1, 1, 1) "same") (Some "mu_conv3d") [decoded] ;;
  mu <- apply_new Flatten (Some "mu") [mu] ;;
  (* Variances *)
  sigma_sq <- apply_new (Conv3D 1 ks (1, 1, 1) "same") (Some "sigma_sq_conv3d") [encoded] ;;
  sigma_sq <- apply_new Flatten (Some "sigma_sq_flatten") [sigma_sq] ;;
  sigma_sq <- apply_new (Dense (n_dense_sigma_sq self) (act_builtin "relu"))
                        (Some "sigma_sq_dense_1") [sigma_sq] ;;
  sigma_sq <- apply_new (Dense (n_gaussians self) act_none)
                        (Some "sigma_sq_dense_2") [sigma_sq] ;;
  sigma_sq <- apply_new (ShiftedELU 1 1) (Some "sigma_sq") [sigma_sq] ;;
  apply_new (Concatenate (-1)) (Some "gmd") [log_prior; sigma_sq; mu].

Definition GaussianMixtureCAE_build_layers (self : GaussianMixtureCAE)
    : Py GaussianMixtureCAE :=
  let '(z, y, x) := input_shape self in
  input_layer <- Input [Some z; Some y; Some x; Some 1] ;;
  let self := gm_with_naked self (set_input_layer (gm_naked self) (Some input_layer)) in
  encoded <- _build_encoder_layers (gm_encoder self) input_layer ;;
  decoded <- _build_decoder_layers self encoded ;;
  output_layer <- _build_gmd_layers self encoded decoded ;;
  ret (gm_with_naked self (set_output_layer (gm_naked self) (Some output_layer))).

#[export] Instance GaussianMixtureCAE_class : NakedModelClass GaussianMixtureCAE := {
  base := gm_naked;
  with_base := gm_with_naked;
  _build_layers := GaussianMixtureCAE_build_layers;
  _compile_model := fun self =>
    n <- NakedModel_compile_model (gm_naked self) ;; ret (gm_with_naked self n)
}.

(** *** class LungNet(Encoder, NakedModel) *)

Record LungNet := {
  ln_encoder : Encoder;
  ln_naked : NakedModel;
  spp_nb_bins_per_level : list Z;
  n_dense : list Z;
  dropout_rate : Q
}.

Definition LungNet_init (nb_filters_per_layer : list Z) (kernel_size : Z * Z * Z)
    (padding : string) (batch_normalization : bool)
    (spp_nb_bins_per_level n_dense : list Z) (dropout_rate : Q)
    (optimizer : optimizer_arg) (es_patience : Z)
    (model_path weights_name_format : string) : LungNet :=
  let naked := NakedModel_init optimizer es_patience model_path weights_name_format 0 in
  let encoder := {| nb_filters_per_layer := nb_filters_per_layer;
                    kernel_size := kernel_size;
                    padding := padding;
                    batch_normalization := batch_normalization |} in
  {| ln_encoder := encoder;
     ln_naked := set_loss naked (Some (loss_name "binary_crossentropy"));
     spp_nb_bins_per_level := spp_nb_bins_per_level;
     n_dense := n_dense;
     dropout_rate := dropout_rate |}.

Definition ln_with_naked (self : LungNet) (n : NakedModel) : LungNet :=
  {| ln_encoder := ln_encoder self; ln_naked := n;
     spp_nb_bins_per_level := spp_nb_bins_per_level self;
     n_dense := n_dense self; dropout_rate := dropout_rate self |}.

(** [if self.dropout_rate:] is the truth value of a float. *)
Definition float_truthy (q : Q) : bool := negb (Qeq_bool q 0).

Definition _build_classifier_layers (self : LungNet) (encoded : tensor) : Py tensor :=
  h <- apply_new (SpatialPyramidPooling3D (spp_nb_bins_per_level self))
                 (Some "spp3d") [encoded] ;;
  h <- for_each (n_dense self)
         (fun h n =>
            h <- apply_new (Dense n (act_builtin "relu")) None [h] ;;
            if float_truthy (dropout_rate self)
            then apply_new (Dropout (dropout_rate self)) None [h]
            else ret h)
         h ;;
  apply_new (Dense 1 (act_builtin "sigmoid")) None [h].

Definition LungNet_build_layers (self : LungNet) : Py LungNet :=
  input_layer <- Input [None; None; None; Some 1] ;;
  let self := ln_with_naked self (set_input_layer (ln_naked self) (Some input_layer)) in
  encoded <- _build_encoder_layers (ln_encoder self) input_layer ;;
  output_layer <- _build_classifier_layers self encoded ;;
  ret (ln_with_naked self (set_output_layer (ln_naked self) (Some output_layer))).

(** [self._model.compile(optimizer=..., loss=..., metrics=['accuracy'])]. *)
Definition LungNet_compile_model (self : LungNet) : Py LungNet :=
  match _model (ln_naked self) with
  | None => raise AttributeError
  | Some m =>
      ret (ln_with_naked self
             (set_model (ln_naked self)
                (Some (compile m {| c_optimizer := optimizer (ln_naked self);
                                    c_loss := _loss (ln_naked self);
                                    c_metrics := ["accuracy"] |}))))
  end.

#[export] Instance LungNet_class : NakedModelClass LungNet := {
  base := ln_naked;
  with_base := ln_with_naked;
  _build_layers := LungNet_build_layers;
  _compile_model := LungNet_compile_model
}.

(** The default arguments of the two constructors. *)
Definition default_filters : list Z := [64; 128; 256].
Definition default_kernel : Z * Z * Z := (3, 3, 3).
Definition default_weights_name_format : string :=
  "weights.{epoch:02d}-{val_loss:.6f}.hdf5".

Definition GaussianMixtureCAE_default (n_gaussians : Z) (input_shape : Z * Z * Z)
    : GaussianMixtureCAE :=
  GaussianMixtureCAE_init n_gaussians input_shape default_filters default_kernel
    "same" false (opt_name "adam") 10 "/tmp/" default_weights_name_format 0.

Definition world0 : world := {| next_id := 0; uids := ∅; events := [] |}.

(** ** The parts of numpy that [predict] uses *)

Module Numpy.
Local Open Scope nat_scope.

(** An array is its dtype, its shape and its elements in row-major order. *)
Record ndarray (A : Type) := {
  nd_dtype : string;
  nd_shape : list nat;
  nd_data : list A
}.
Arguments nd_dtype {A} _.
Arguments nd_shape {A} _.
Arguments nd_data {A} _.

Definition size (sh : list nat) : nat := foldr Nat.mul 1 sh.

Definition ravel (sh idx : list nat) : nat :=
  foldl (fun acc di => acc * di.1 + di.2) 0 (zip sh idx).

Fixpoint unravel (sh : list nat) (off : nat) : list nat :=
  match sh with
  | [] => []
  | _ :: rest => off / size rest :: unravel rest (off mod size rest)
  end.

(** Broadcasting aligns shapes at their last axis. *)
Fixpoint broadcast_rev (a b : list nat) : option (list nat) :=
  match a, b with
  | [], _ => Some b
  | _, [] => Some a
  | x :: a', y :: b' =>
      match broadcast_rev a' b' with
      | None => None
      | Some r =>
          if decide (x = y) then Some (x :: r)
          else if decide (x = 1) then Some (y :: r)
          else if decide (y = 1) then Some (x :: r)
          else None
      end
  end.

Definition broadcast_shapes (a b : list nat) : option (list nat) :=
  (fun r => rev r) <$> broadcast_rev (rev a) (rev b).

(** Where the element at [idx] of the broadcast result comes from in an
    operand of shape [sh]. *)
Definition broadcast_index (sh idx : list nat) : list nat :=
  zip_with (fun d i => if decide (d = 1) then 0 else i)
           sh (drop (length idx - length sh) idx).

Definition nd_get {A} (a : ndarray A) (idx : list nat) : option A :=
  nd_data a !! ravel (nd_shape a) idx.

Section Arrays.
Context {A : Type}.

Fixpoint rows (s w : nat) (d : list A) : list (list A) :=
  match s with
  | O => []
  | S s' => take w d :: rows s' w (drop w d)
  end.

(** A bound of the slice [l[st:en]]. *)
Definition slice_bound (n : nat) (i : Z) : nat :=
  let i' := if decide (i < 0)%Z then (i + Z.of_nat n)%Z else i in
  Z.to_nat (Z.min (Z.max i' 0) (Z.of_nat n)).

Definition py_slice (st en : Z) (l : list A) : list A :=
  let s := slice_bound (length l) st in
  let e := slice_bound (length l) en in
  take (e - s) (drop s l).

(** [np.split(a, indices, axis=1)] of a matrix. *)
Definition np_split_axis1 (a : ndarray A) (indices : list Z)
    : result (list (ndarray A)) :=
  match nd_shape a with
  | [s; w] =>
      let div_points := (0%Z :: indices) ++ [Z.of_nat w] in
      Ok (zip_with
            (fun st en =>
               {| nd_dtype := nd_dtype a;
                  nd_shape := [s; slice_bound w en - slice_bound w st];
                  nd_data := concat (py_slice st en <$> rows s w (nd_data a)) |})
            div_points (tail div_points))
  | _ => Raise ValueError
  end.

(** [np.reshape(a, (-1, z, y, x, m))]. *)
Definition np_reshape_batch (a : ndarray A) (z y x : nat) (m : Z)
    : result (ndarray A) :=
  if decide (m < 0)%Z then Raise ValueError
  else
    let known := z * y * x * Z.to_nat m in
    if decide (known = 0) then Raise ValueError
    else if decide (size (nd_shape a) mod known = 0)
    then Ok {| nd_dtype := nd_dtype a;
               nd_shape := [size (nd_shape a) / known; z; y; x; Z.to_nat m];
               nd_data := nd_data a |}
    else Raise ValueError.

Definition np_map (f : A -> A) (a : ndarray A) : ndarray A :=
  {| nd_dtype := nd_dtype a; nd_shape := nd_shape a; nd_data := f <$> nd_data a |}.

(** An element-wise binary operation with broadcasting. *)
Definition np_map2 (f : A -> A -> A) (a b : ndarray A) : result (ndarray A) :=
  match broadcast_shapes (nd_shape a) (nd_shape b) with
  | None => Raise ValueError
  | Some sh =>
      match mapM (fun off =>
                    let idx := unravel sh off in
                    match nd_get a (broadcast_index (nd_shape a) idx),
                          nd_get b (broadcast_index (nd_shape b) idx) with
                    | Some u, Some v => Some (f u v)
                    | _, _ => None
                    end) (seq 0 (size sh)) with
      | Some d => Ok {| nd_dtype := nd_dtype a; nd_shape := sh; nd_data := d |}
      | None => Raise ValueError
      end
  end.

(** Position of the first largest element; [gt u v] says that [u] beats
    the running maximum [v]. *)
Definition argmax_list (gt : A -> A -> bool) (l : list A) : option nat :=
  match l with
  | [] => None
  | u :: rest =>
      Some (foldl (fun '(best_i, best, i) v =>
                     if gt v best then (i, v, S i) else (best_i, best, S i))
                  (0, u, 1) rest).1.1
  end.

(** [a.argmax(axis=1)] of a matrix. *)
Definition np_argmax_axis1 (gt : A -> A -> bool) (a : ndarray A)
    : result (ndarray nat) :=
  match nd_shape a with
  | [s; w] =>
      match mapM (argmax_list gt) (rows s w (nd_data a)) with
      | Some d => Ok {| nd_dtype := "int64"; nd_shape := [s]; nd_data := d |}
      | None => Raise ValueError
      end
  | _ => Raise ValueError
  end.

(** [a[i_1, ..., i_n]] with one integer index array per axis of [a]: the
    index arrays are broadcast against each other. *)
Definition np_take (a : ndarray A) (ixs : list (ndarray nat)) : result (ndarray A) :=
  if decide (length ixs = length (nd_shape a)) then
    match foldl (fun acc ix =>
                   match acc with
                   | Some sh => broadcast_shapes sh (nd_shape ix)
                   | None => None
                   end) (Some []) ixs with
    | None => Raise IndexError
    | Some sh =>
        match mapM (fun off =>
                      let idx := unravel sh off in
                      match mapM (fun ix => nd_get ix (broadcast_index (nd_shape ix) idx)) ixs with
                      | Some coords =>
                          if forallb (fun cd => cd.1 <? cd.2) (zip coords (nd_shape a))
                          then nd_get a coords
                          else None
                      | None => None
                      end) (seq 0 (size sh)) with
        | Some d => Ok {| nd_dtype := nd_dtype a; nd_shape := sh; nd_data := d |}
        | None => Raise IndexError
        end
    end
  else Raise IndexError.

(** [np.expand_dims(a, axis)]. *)
Definition np_expand_dims (a : ndarray A) (axis : nat) : ndarray A :=
  {| nd_dtype := nd_dtype a;
     nd_shape := take axis (nd_shape a) ++ 1 :: drop axis (nd_shape a);
     nd_data := nd_data a |}.

End Arrays.

(** [np.indices(dims)]. *)
Definition np_indices (dims : list nat) : list (ndarray nat) :=
  (fun k => {| nd_dtype := "int64";
               nd_shape := dims;
               nd_data := (fun off => nth k (unravel dims off) 0) <$> seq 0 (size dims) |})
  <$> seq 0 (length dims).

End Numpy.
Export Numpy.

(** *** predict *)

Definition lift {A} (r : result A) : Py A :=
  match r with Ok a => ret a | Raise e => raise e end.

Definition _check_input_array {A} (x : ndarray A) : Py unit :=
  if bool_decide (nd_dtype x ≠ "float32") then raise ValueError
  else if bool_decide (length (nd_shape x) ≠ 5%nat) then raise ValueError
  else match py_index (nd_shape x) (-1) with
       | None => raise IndexError
       | Some d => if bool_decide (d ≠ 1%nat) then raise ValueError else ret tt
       end.

Section Predict.
(** The scalars of the arrays with the float operations [predict] applies
    to them, and what the trained network computes: neither is fixed by
    [model.py]. *)
Context {F : Type}.
Variables (f_exp f_sqrt : F -> F) (f_div : F -> F -> F) (f_gt : F -> F -> bool).
Variable forward : Model -> ndarray F -> result (ndarray F).

(** [model.predict(x)]. *)
Definition keras_predict (m : Model) (x : ndarray F) : Py (ndarray F) :=
  emit (EvPredict m (nd_shape x)) ;;;
  lift (forward m x).

Definition GaussianMixtureCAE_predict (self : GaussianMixtureCAE)
    (array : ndarray F) : Py (ndarray F) :=
  _check_input_array array ;;;
  match _model (gm_naked self) with
  | None => raise AttributeError
  | Some model =>
      pred <- keras_predict model array ;;
      let m := n_gaussians self in
      match nd_shape array with
      | [_; z; y; x; _] =>
          let splits := [m; 2 * m] in
          parts <- lift (np_split_axis1 pred splits) ;;
          match parts with
          | [log_prior; sigma_sq; mu] =>
              mu <- lift (np_reshape_batch mu z y x m) ;;
              ratio <- lift (np_map2 f_div (np_map f_exp log_prior)
                                           (np_map f_sqrt sigma_sq)) ;;
              which <- lift (np_argmax_axis1 f_gt ratio) ;;
              match np_indices (removelast (nd_shape array)) with
              | [sample; z; y; x] =>
                  r <- lift (np_take mu [sample; z; y; x; which]) ;;
                  ret (np_expand_dims r 4)
              | _ => raise ValueError
              end
          | _ => raise ValueError
          end
      | _ => raise ValueError
      end
  end.

Definition LungNet_predict (self : LungNet) (x : ndarray F) : Py (ndarray F) :=
  _check_input_array x ;;;
  match _model (ln_naked self) with
  | None => raise AttributeError
  | Some model => keras_predict model x
  end.

End Predict.

(** ** Vocabulary of the statements *)

(** The world after some more effects. *)
Definition logged (w : world) (es : list event) : world :=
  {| next_id := next_id w; uids := uids w; events := events w ++ es |}.

(** The inputs [_check_input_array] rejects. *)
Definition rejected_input {A} (x : ndarray A) : Prop :=
  nd_dtype x <> "float32" \/ length (nd_shape x) <> 5%nat \/ last (nd_shape x) <> Some 1%nat.

(** The world after one more object has been created. *)
Definition bump (w : world) : world :=
  {| next_id := S (next_id w); uids := uids w; events := events w |}.

Definition padding_ok (p : string) : Prop := p = "valid" \/ p = "same".

(** What identifies a layer in a weights file: its name and its class with
    the constructor arguments. *)
Definition sig (l : layer) : string * layer_class := (lname l, lclass l).
Definition layer_sigs (t : tensor) : list (string * layer_class) :=
  sig <$> tensor_layers t.

(** The layers between tensor [t0] and a tensor [t] computed from it. *)
Definition layers_since (t0 t : tensor) : list layer :=
  drop (length (tensor_layers t0)) (tensor_layers t).

(** The layers one call of [_custom_conv3d] creates. *)
Definition encoder_unit_sigs (enc : Encoder) (nb_filters : Z) (strides : Z * Z * Z)
    (name : string) : list (string * layer_class) :=
  ("encoder_conv_" +:+ name, Conv3D nb_filters (kernel_size enc) strides (padding enc))
  :: (if batch_normalization enc
      then [("encoder_bn_" +:+ name, BatchNormalization 1)] else [])
  ++ [("encoder_act_" +:+ name, Activation "relu")].

Definition encoder_sigs_from (enc : Encoder) (i : nat) (fs : list Z)
    : list (string * layer_class) :=
  flat_map (fun '(i, f) =>
              encoder_unit_sigs enc f (1, 1, 1) ("1-2_" +:+ pretty i)
              ++ encoder_unit_sigs enc f (2, 2, 2) ("2-1_" +:+ pretty i))
           (enumerate_from i fs).

(** The layers one call of [_custom_conv3dtranspose] creates. *)
Definition decoder_unit_sigs (enc : Encoder) (nb_filters : Z) (strides : Z * Z * Z)
    (name : string) : list (string * layer_class) :=
  ("decoder_conv_" +:+ name,
   Conv3DTranspose nb_filters (kernel_size enc) strides (padding enc))
  :: (if batch_normalization enc
      then [("decoder_bn_" +:+ name, BatchNormalization 1)] else [])
  ++ [("decoder_act_" +:+ name, Activation "relu")].

Definition decoder_sigs_from (enc : Encoder) (i : nat) (fs : list Z)
    : list (string * layer_class) :=
  flat_map (fun '(i, f) =>
              decoder_unit_sigs enc f (2, 2, 2) ("2-1_" +:+ pretty i)
              ++ decoder_unit_sigs enc f (1, 1, 1) ("1-2_" +:+ pretty i))
           (enumerate_from i fs).

(** What one block of the encoder, and of the decoder, does to a spatial
    dimension. *)
Definition encoder_block_dim (p : string) (k : Z) (d : dim) : dim :=
  conv_output_length (conv_output_length d k p 1) k p 2.

Definition decoder_block_dim (p : string) (k : Z) (d : dim) : dim :=
  deconv_length (deconv_length d 2 k p) 1 k p.

Definition is_conv3d (c : layer_class) : bool :=
  match c with Conv3D _ _ _ _ => true | _ => false end.

Definition is_conv3dtranspose (c : layer_class) : bool :=
  match c with Conv3DTranspose _ _ _ _ => true | _ => false end.

Definition has_strides (st : Z * Z * Z) (c : layer_class) : bool :=
  match c with
  | Conv3D _ _ st' _ | Conv3DTranspose _ _ st' _ => bool_decide (st' = st)
  | _ => false
  end.

(** The constructor arguments Keras accepts. *)
Definition args_ok (c : layer_class) : Prop :=
  match c with
  | Conv3D _ _ _ p | Conv3DTranspose _ _ _ p => padding_ok p
  | _ => True
  end.

(** The output layer of the autoencoder as a Gaussian Mixture Density
    head over [m] Gaussians: [out] concatenates, along the last axis,
    [m] log-priors computed from [encoded] and passed through
    [log_softmax], [m] variances computed from [encoded] and passed
    through [ShiftedELU], and [width_mu] means computed from [decoded]. *)
Definition gmd_head (self : GaussianMixtureCAE) (b : dim) (width_mu : Z)
    (encoded decoded out : tensor) : Prop :=
  let m := n_gaussians self in
  let ks := kernel_size (gm_encoder self) in
  exists l_gmd log_prior sigma_sq mu lp_dense lp_flat lp_conv
         ss_dense2 ss_dense1 ss_flat ss_conv mu_conv,
    out = Tensor l_gmd [log_prior; sigma_sq; mu] [b; Some (2 * m + width_mu)]
    /\ sig l_gmd = ("gmd", Concatenate (-1))
    (* log-priors *)
    /\ sig (producer log_prior) = ("log_prior", Dense m act_log_softmax)
    /\ int_shape log_prior = [b; Some m]
    /\ inbound log_prior = [lp_dense]
    /\ sig (producer lp_dense)
         = ("log_prior_dense_1", Dense (n_dense_log_prior self) (act_builtin "relu"))
    /\ inbound lp_dense = [lp_flat]
    /\ sig (producer lp_flat) = ("log_prior_flatten", Flatten)
    /\ inbound lp_flat = [lp_conv]
    /\ sig (producer lp_conv) = ("log_prior_conv3d", Conv3D 1 ks (1, 1, 1) "same")
    /\ inbound lp_conv = [encoded]
    (* variances *)
    /\ sig (producer sigma_sq) = ("sigma_sq", ShiftedELU 1 1)
    /\ int_shape sigma_sq = [b; Some m]
    /\ inbound sigma_sq = [ss_dense2]
    /\ sig (producer ss_dense2) = ("sigma_sq_dense_2", Dense m act_none)
    /\ inbound ss_dense2 = [ss_dense1]
    /\ sig (producer ss_dense1)
         = ("sigma_sq_dense_1", Dense (n_dense_sigma_sq self) (act_builtin "relu"))
    /\ inbound ss_dense1 = [ss_flat]
    /\ sig (producer ss_flat) = ("sigma_sq_flatten", Flatten)
    /\ inbound ss_flat = [ss_conv]
    /\ sig (producer ss_conv) = ("sigma_sq_conv3d", Conv3D 1 ks (1, 1, 1) "same")
    /\ inbound ss_conv = [encoded]
    (* means *)
    /\ sig (producer mu) = ("mu", Flatten)
    /\ int_shape mu = [b; Some width_mu]
    /\ inbound mu = [mu_conv]
    /\ sig (producer mu_conv) = ("mu_conv3d", Conv3D m ks (1, 1, 1) "same")
    /\ inbound mu_conv = [decoded].

(** The names [model.py] gives to the layers of a convolution unit: which
    half of the autoencoder, which layer of which unit of a block, and the
    number of the block. *)
Inductive unit_kind :=
| conv_1_2 | bn_1_2 | act_1_2 | conv_2_1 | bn_2_1 | act_2_1.

#[export] Instance unit_kind_eq_dec : EqDecision unit_kind.
Proof. solve_decision. Defined.

Definition unit_prefix (decoder : bool) (k : unit_kind) : string :=
  match decoder, k with
  | false, conv_1_2 => "encoder_conv_1-2_"
  | false, bn_1_2 => "encoder_bn_1-2_"
  | false, act_1_2 => "encoder_act_1-2_"
  | false, conv_2_1 => "encoder_conv_2-1_"
  | false, bn_2_1 => "encoder_bn_2-1_"
  | false, act_2_1 => "encoder_act_2-1_"
  | true, conv_1_2 => "decoder_conv_1-2_"
  | true, bn_1_2 => "decoder_bn_1-2_"
  | true, act_1_2 => "decoder_act_1-2_"
  | true, conv_2_1 => "decoder_conv_2-1_"
  | true, bn_2_1 => "decoder_bn_2-1_"
  | true, act_2_1 => "decoder_act_2-1_"
  end.

Definition unit_name (key : bool * unit_kind * nat) : string :=
  unit_prefix key.1.1 key.1.2 +:+ pretty key.2.

Definition encoder_kinds (bn : bool) : list unit_kind :=
  if bn then [conv_1_2; bn_1_2; act_1_2; conv_2_1; bn_2_1; act_2_1]
  else [conv_1_2; act_1_2; conv_2_1; act_2_1].

Definition decoder_kinds (bn : bool) : list unit_kind :=
  if bn then [conv_2_1; bn_2_1; act_2_1; conv_1_2; bn_1_2; act_1_2]
  else [conv_2_1; act_2_1; conv_1_2; act_1_2].

Definition unit_keys (decoder : bool) (kinds : list unit_kind) (i : nat) (fs : list Z)
    : list (bool * unit_kind * nat) :=
  flat_map (fun '(i, _) => (fun k => (decoder, k, i)) <$> kinds) (enumerate_from i fs).

(** The names of the layers of the output head, in the order
    [_build_gmd_layers] creates them. *)
Definition head_names : list string :=
  ["log_prior_conv3d"; "log_prior_flatten"; "log_prior_dense_1"; "log_prior";
   "mu_conv3d"; "mu";
   "sigma_sq_conv3d"; "sigma_sq_flatten"; "sigma_sq_dense_1"; "sigma_sq_dense_2";
   "sigma_sq"; "gmd"].

Definition first_char (s : string) : option ascii :=
  match s with
  | EmptyString => None
  | String c _ => Some c
  end.




(** Every layer under a tensor has a name. *)
Definition named (t : tensor) : Prop :=
  Forall (fun l => lname l <> "") (tensor_layers t).

(** What Keras guarantees of the layers of a model. *)
Definition model_ok (m : Model) : Prop :=
  NoDup (lname <$> layers m)
  /\ NoDup (lid <$> layers m)
  /\ Forall (fun l => lname l <> "") (layers m).

(** A layer after [layer.trainable = False]. *)
Definition switched_off (l : layer) : layer :=
  {| lid := lid l; lname := lname l; lclass := lclass l; trainable := false |}.

(** The layers of a model after the layers called [names] were frozen. *)
Definition freeze_named (names : list string) (l : layer) : layer :=
  if bool_decide (lname l ∈ names) then switched_off l else l.

Definition frozen (m : Model) (names : list string) : Model :=
  {| m_input := m_input m; m_output := m_output m;
     layers := freeze_named names <$> layers m;
     compiled := compiled m |}.

(** What a subclass of [NakedModel] has to respect: the base object is a
    part of the object, [_build_layers] builds from named layers, and
    [_compile_model] compiles the model of the object and changes nothing
    else. *)
Class NakedModelLaws (Self : Type) `{NakedModelClass Self} : Prop := {
  base_with_base : forall (s : Self) (n : NakedModel), base (with_base s n) = n;
  build_layers_named :
    forall (s s' : Self) (w w' : world) (t : tensor),
      _build_layers s w = (Ok s', w') ->
      _output_layer (base s') = Some t -> named t;
  compile_model_spec :
    forall (s : Self) (m : Model),
      _model (base s) = Some m ->
      exists a, forall w,
        _compile_model s w
        = (Ok (with_base s (set_model (base s) (Some (compile m a)))), w)
}.

(** What the freezing loop prints. *)
Definition freeze_prints (names : list string) : list event :=
  (fun nm => EvPrint (nm +:+ " is set to 0")) <$> names.

(** The objects the examples are about: the two networks with their
    default arguments, with and without batch normalization. *)
Definition example_cae (bn : bool) : GaussianMixtureCAE :=
  GaussianMixtureCAE_init 2 (8, 8, 8) default_filters default_kernel "same" bn
    (opt_name "adam") 10 "/tmp/" default_weights_name_format 0.

Definition example_lungnet (bn : bool) : LungNet :=
  LungNet_init default_filters default_kernel "same" bn [1; 2; 4] [1024; 1024] (1 # 2)
    (opt_name "adam") 10 "/tmp/" default_weights_name_format.

(** The object a method leaves behind when it returns, [d] when it raises. *)
Definition value_or {A} (d : A) (r : result A * world) : A :=
  match r.1 with
  | Ok a => a
  | Raise _ => d
  end.

(** The example networks after [build_model()] in a fresh session. *)
Definition built_cae (bn : bool) : GaussianMixtureCAE :=
  value_or (example_cae bn) (build_model (example_cae bn) None world0).

Definition example_tensor : tensor :=
  Tensor {| lid := 0; lname := "input_1";
            lclass := InputLayer [None; Some 8; Some 8; Some 8; Some 1];
            trainable := true |}
         [] [None; Some 8; Some 8; Some 8; Some 1].

Definition model_of (n : NakedModel) : Model :=
  default {| m_input := example_tensor; m_output := example_tensor;
             layers := []; compiled := None |} (_model n).

(** A batch of [s] volumes of 8x8x8 voxels, and a network that answers a
    batch with one row of [2*2 + 8*8*8*2] numbers per sample. *)
Definition example_batch {F} (v : F) (s : nat) : ndarray F :=
  {| nd_dtype := "float32";
     nd_shape := [s; 8; 8; 8; 1]%nat;
     nd_data := replicate (s * 512) v |}.

Definition example_forward {F} (v : F) (m : Model) (x : ndarray F) : result (ndarray F) :=
  Ok {| nd_dtype := "float32";
        nd_shape := [default 0%nat (head (nd_shape x)); 1028%nat];
        nd_data := replicate (default 0%nat (head (nd_shape x)) * 1028) v |}.

(** Comparison of real scalars, as [argmax] uses it. *)
Definition Rgtb (a b : R) : bool := if Rlt_dec b a then true else false.

(** A small autoencoder without convolution blocks, for inputs of 1x1x2
    voxels and two Gaussians, after [build_model()]. *)
Definition tiny_cae : GaussianMixtureCAE :=
  value_or (example_cae false)
    (build_model (GaussianMixtureCAE_init 2 (1, 1, 2) [] default_kernel "same" false
                    (opt_name "adam") 10 "/tmp/" default_weights_name_format 0)
                 None world0).

(** The default classifier, without batch normalization, after
    [build_model()] in a fresh session. *)
Definition built_lungnet : LungNet :=
  value_or (example_lungnet false) (build_model (example_lungnet false) None world0).

(** [news] are the layer objects created between the worlds [w] and [w'],
    oldest first: object identities are handed out in sequence. *)
Definition created (w : world) (news : list layer) (w' : world) : Prop :=
  lid <$> news = seq (next_id w) (length news)
  /\ next_id w' = (next_id w + length news)%nat.

(** How many layers Keras has named with [prefix] so far. *)
Definition uid_of (w : world) (prefix : string) : nat :=
  default 0%nat (uids w !! prefix).

(** The layers of the output head, in the order [_build_gmd_layers] creates
    them. *)
Definition head_sigs (self : GaussianMixtureCAE) : list (string * layer_class) :=
  let m := n_gaussians self in
  let ks := kernel_size (gm_encoder self) in
  [("log_prior_conv3d", Conv3D 1 ks (1, 1, 1) "same");
   ("log_prior_flatten", Flatten);
   ("log_prior_dense_1", Dense (n_dense_log_prior self) (act_builtin "relu"));
   ("log_prior", Dense m act_log_softmax);
   ("mu_conv3d", Conv3D m ks (1, 1, 1) "same");
   ("mu", Flatten);
   ("sigma_sq_conv3d", Conv3D 1 ks (1, 1, 1) "same");
   ("sigma_sq_flatten", Flatten);
   ("sigma_sq_dense_1", Dense (n_dense_sigma_sq self) (act_builtin "relu"));
   ("sigma_sq_dense_2", Dense m act_none);
   ("sigma_sq", ShiftedELU 1 1);
   ("gmd", Concatenate (-1))].

(** All layers of the autoencoder, built in a session that has named [k]
    input layers before. *)
Definition cae_sigs (self : GaussianMixtureCAE) (k : nat) : list (string * layer_class) :=
  let enc := gm_encoder self in
  let '(z, y, x) := input_shape self in
  ("input_" +:+ pretty (S k), InputLayer [None; Some z; Some y; Some x; Some 1])
  :: encoder_sigs_from enc 0 (nb_filters_per_layer enc)
  ++ decoder_sigs_from enc 0 (rev (nb_filters_per_layer enc))
  ++ head_sigs self.

(** The layers of the classifier's stack of dense layers, in a session that
    has named [d] dense and [r] dropout layers before. *)
Fixpoint dense_stack_sigs (rate : Q) (d r : nat) (nd : list Z)
    : list (string * layer_class) :=
  match nd with
  | [] => []
  | n :: nd' =>
      ("dense_" +:+ pretty (S d), Dense n (act_builtin "relu"))
      :: (if float_truthy rate
          then ("dropout_" +:+ pretty (S r), Dropout rate)
               :: dense_stack_sigs rate (S d) (S r) nd'
          else dense_stack_sigs rate (S d) r nd')
  end.

(** All layers of the classifier, in creation order. *)
Definition lungnet_sigs (self : LungNet) (k d r : nat) : list (string * layer_class) :=
  let enc := ln_encoder self in
  ("input_" +:+ pretty (S k), InputLayer [None; None; None; None; Some 1])
  :: encoder_sigs_from enc 0 (nb_filters_per_layer enc)
  ++ ("spp3d", SpatialPyramidPooling3D (spp_nb_bins_per_level self))
  :: dense_stack_sigs (dropout_rate self) d r (n_dense self)
  ++ [("dense_" +:+ pretty (S (d + length (n_dense self))),
       Dense 1 (act_builtin "sigmoid"))].

(** [d] rounded up to a multiple of [2^n]. *)
Definition round_up (n : nat) (d : Z) : Z :=
  2 ^ Z.of_nat n * ((d + 2 ^ Z.of_nat n - 1) / 2 ^ Z.of_nat n).




(** One row of the network's answer: log-priors, variances, means. *)
Definition sample_row {F} (smp : list F * list F * list F) : list F :=
  smp.1.1 ++ smp.1.2 ++ smp.2.

(** The numbers [predict] compares to choose a Gaussian for a sample. *)
Definition sample_ratio {F} (f_exp f_sqrt : F -> F) (f_div : F -> F -> F)
    (smp : list F * list F * list F) : list F :=
  zip_with f_div (f_exp <$> smp.1.1) (f_sqrt <$> smp.1.2).

(** A sample with [m] log-priors, [m] variances and [c] means. *)
Definition sample_ok {F} (m c : nat) (smp : list F * list F * list F) : Prop :=
  length smp.1.1 = m /\ length smp.1.2 = m /\ length smp.2 = c.


(** * Properties *)

(** ** Running the monad *)

Lemma bind_Ok {A B} (c : Py A) (k : A -> Py B) w a w1 :
  c w = (Ok a, w1) -> bind c k w = k a w1.
Proof. intros E. unfold bind. now rewrite E. Qed.

Lemma bind_Raise {A B} (c : Py A) (k : A -> Py B) w e w1 :
  c w = (Raise e, w1) -> bind c k w = (Raise e, w1).
Proof. intros E. unfold bind. now rewrite E. Qed.

Lemma bind_Ok_inv {A B} (c : Py A) (k : A -> Py B) w b w' :
  bind c k w = (Ok b, w') ->
  exists a w1, c w = (Ok a, w1) /\ k a w1 = (Ok b, w').
Proof.
  unfold bind. destruct (c w) as [[a|e] w1]; [eauto | discriminate].
Qed.

Lemma lift_world {A} (r : result A) w : (lift r w).2 = w.
Proof. now destruct r. Qed.

Lemma emit_changes_world e w : (emit e w).2 <> w.
Proof.
  unfold emit; simpl. intros E.
  apply (f_equal (fun w => length (events w))) in E. simpl in E.
  rewrite length_app in E. simpl in E. lia.
Qed.

Lemma emit_logged e w : emit e w = (Ok tt, logged w [e]).
Proof. reflexivity. Qed.

Lemma logged_logged w es es' : logged (logged w es) es' = logged w (es ++ es').
Proof. unfold logged; simpl. now rewrite <- app_assoc. Qed.

Lemma logged_neq w es : es <> [] -> logged w es <> w.
Proof.
  intros Hne E. apply (f_equal (fun w => length (events w))) in E. simpl in E.
  rewrite length_app in E. destruct es; [congruence | simpl in E; lia].
Qed.

(** ** Training: the callbacks of [fit_generator] *)

Section Training.
Context {Self : Type} `{NakedModelClass Self}.

(** C9. Every [fit_generator] run on a built model first creates the
  [model_path] directory and then trains with exactly six callbacks, in
  this order: a [ModelCheckpoint] on [val_loss] that saves weights only
  and only the best, an [EarlyStopping] on [val_loss] with [min_delta] 0
  and the patience given at construction, a [CSVLogger] on
  [epoch_log.csv], a [BatchLossCSVLogger] on [batch_log.csv], a
  [TensorBoard] logger under [model_path/tensorboard], and a
  [TerminateOnNaN]. *)
Theorem fit_generator_callbacks (self : Self) (m : Model)
  (train validation : generator) (steps_per_epoch epochs validation_steps : Z)
  (w : world) :
_model (base self) = Some m ->
let mp := model_path (base self) in
let args :=
  {| fa_generator := train;
     fa_steps_per_epoch := steps_per_epoch;
     fa_epochs := epochs;
     fa_callbacks :=
       [ ModelCheckpoint (path_join mp (weights_name_format (base self)))
                         "val_loss" true true;
         EarlyStopping "val_loss" 0 (es_patience (base self));
         CSVLogger (path_join mp "epoch_log.csv");
         BatchLossCSVLogger (path_join mp "batch_log.csv");
         TensorBoard (path_join mp "tensorboard") (histogram_freq (base self))
                     (0 <? histogram_freq (base self));
         TerminateOnNaN ];
     fa_validation_data := validation;
     fa_validation_steps := validation_steps |} in
fit_generator self train steps_per_epoch epochs validation validation_steps w
= (Ok (KerasHistory m args), logged w [EvMakedir mp; EvFitGenerator m args]).
Proof.
intros Hm mp args. unfold fit_generator, _build_callbacks, makedir.
unfold bind at 1. unfold bind at 1. rewrite emit_logged.
unfold ret at 1. rewrite Hm.
unfold keras_fit_generator, bind, ret. rewrite emit_logged, logged_logged.
reflexivity.
Qed.

End Training.

(** ** Input validation of [predict] *)

Lemma py_index_last {A} (l : list A) : py_index l (-1) = last l.
Proof.
  unfold py_index. destruct (decide (0 <= -1)) as [|_]; [lia|].
  destruct l as [|a l]; [reflexivity|].
  destruct (decide (0 <= -1 + Z.of_nat (length (a :: l)))) as [_|Hn];
    [| simpl length in Hn; lia].
  rewrite last_lookup. f_equal. simpl length. lia.
Qed.

Lemma check_input_array_rejects {A} (x : ndarray A) w :
  rejected_input x -> _check_input_array x w = (Raise ValueError, w).
Proof.
  unfold rejected_input, _check_input_array. intros Hbad.
  case_bool_decide as Hd; [reflexivity|].
  case_bool_decide as Hn; [reflexivity|].
  rewrite py_index_last.
  destruct (last (nd_shape x)) as [d|] eqn:El.
  - case_bool_decide as H1; [reflexivity|].
    exfalso. destruct Hbad as [Hb|[Hb|Hb]]; [contradiction | contradiction |].
    apply Hb. congruence.
  - exfalso. destruct (nd_shape x); [discriminate|].
    rewrite last_lookup in El. apply lookup_ge_None in El. simpl in El. lia.
Qed.

Lemma check_input_array_accepts {A} (x : ndarray A) w :
  ~ rejected_input x -> _check_input_array x w = (Ok tt, w).
Proof.
  unfold rejected_input, _check_input_array. intros Hok.
  case_bool_decide as Hd; [exfalso; apply Hok; auto|].
  case_bool_decide as Hn; [exfalso; apply Hok; auto|].
  rewrite py_index_last.
  destruct (last (nd_shape x)) as [d|] eqn:El.
  - case_bool_decide as H1; [|reflexivity].
    exfalso. apply Hok. right. right. congruence.
  - exfalso. apply Hok. right. right. discriminate.
Qed.

Lemma rejected_input_dec {A} (x : ndarray A) : rejected_input x \/ ~ rejected_input x.
Proof.
  unfold rejected_input.
  destruct (decide (nd_dtype x = "float32")); [|tauto].
  destruct (decide (length (nd_shape x) = 5%nat)); [|tauto].
  destruct (decide (last (nd_shape x) = Some 1%nat)); tauto.
Qed.

Section PredictProps.
Context {F : Type}.
Variables (f_exp f_sqrt : F -> F) (f_div : F -> F -> F) (f_gt : F -> F -> bool).
Variable forward : Model -> ndarray F -> result (ndarray F).

Lemma keras_predict_world m x w :
  (keras_predict forward m x w).2 = logged w [EvPredict m (nd_shape x)].
Proof.
  unfold keras_predict, bind. rewrite emit_logged. apply lift_world.
Qed.

(** Once the network has been invoked the world differs from the one
    [predict] started in, whatever happens afterwards. *)
Lemma cae_predict_accepted_world self x w :
  ~ rejected_input x ->
  GaussianMixtureCAE_predict f_exp f_sqrt f_div f_gt forward self x w
    = (Raise AttributeError, w)
  \/ (GaussianMixtureCAE_predict f_exp f_sqrt f_div f_gt forward self x w).2 <> w.
Proof.
  intros Hok. unfold GaussianMixtureCAE_predict.
  rewrite (bind_Ok _ _ _ _ _ (check_input_array_accepts x w Hok)).
  destruct (_model (gm_naked self)) as [m|]; [right | now left].
  pose proof (keras_predict_world m x w) as Hw.
  unfold bind at 1.
  destruct (keras_predict forward m x w) as [[pred|e] w1]; simpl in Hw; subst w1.
  2: { simpl. now apply logged_neq. }
  assert (Hl : forall A (r : result A), (lift r (logged w [EvPredict m (nd_shape x)])).2 <> w).
  { intros A r. rewrite lift_world. now apply logged_neq. }
  assert (Hr : forall A e, (@raise A e (logged w [EvPredict m (nd_shape x)])).2 <> w).
  { intros A e. simpl. now apply logged_neq. }
  repeat first
    [ apply Hr
    | match goal with
      | |- (match ?l with _ => _ end _).2 <> _ => destruct l
      | |- (bind (lift ?r) _ _).2 <> _ =>
          let E := fresh in
          destruct r eqn:E;
          [ rewrite (bind_Ok _ _ _ _ _ (eq_refl : lift (Ok _) _ = _))
          | rewrite (bind_Raise _ _ _ _ _ (eq_refl : lift (Raise _) _ = _)) ]
      end
    | (simpl; now apply logged_neq) ].
Qed.

(** C6. [GaussianMixtureCAE.predict] and [LungNet.predict] raise
  [ValueError] with the world untouched (the network has not been
  invoked, nothing was computed or changed) exactly when the dtype of the
  input is not float32, or its number of dimensions is not 5, or the size
  of its last dimension is not 1. *)
Theorem predict_rejects_iff (cae : GaussianMixtureCAE) (net : LungNet)
  (x : ndarray F) (w : world) :
(GaussianMixtureCAE_predict f_exp f_sqrt f_div f_gt forward cae x w
   = (Raise ValueError, w) <-> rejected_input x)
/\ (LungNet_predict forward net x w = (Raise ValueError, w) <-> rejected_input x).
Proof.
split; split.
- intros E. destruct (rejected_input_dec x) as [|Hok]; [assumption|].
  destruct (cae_predict_accepted_world cae x w Hok) as [E'|Hw].
  + rewrite E' in E. discriminate.
  + rewrite E in Hw. now contradiction Hw.
- intros Hbad. unfold GaussianMixtureCAE_predict.
  now rewrite (bind_Raise _ _ _ _ _ (check_input_array_rejects x w Hbad)).
- intros E. destruct (rejected_input_dec x) as [|Hok]; [assumption|].
  exfalso. revert E. unfold LungNet_predict.
  rewrite (bind_Ok _ _ _ _ _ (check_input_array_accepts x w Hok)).
  destruct (_model (ln_naked net)) as [m|]; [|discriminate].
  intros E. pose proof (keras_predict_world m x w) as Hw.
  rewrite E in Hw. simpl in Hw. symmetry in Hw. revert Hw. now apply logged_neq.
- intros Hbad. unfold LungNet_predict.
  now rewrite (bind_Raise _ _ _ _ _ (check_input_array_rejects x w Hbad)).
Qed.

End PredictProps.

(** ** Building layers *)

Lemma tensor_layers_unary l t s : tensor_layers (Tensor l [t] s) = tensor_layers t ++ [l].
Proof. simpl. now rewrite app_nil_r. Qed.

Lemma layer_sigs_unary l t s : layer_sigs (Tensor l [t] s) = layer_sigs t ++ [sig l].
Proof. unfold layer_sigs. rewrite tensor_layers_unary. now rewrite fmap_app. Qed.

Lemma check_args_ok c w : args_ok c -> check_args c w = (Ok tt, w).
Proof.
  destruct c; try reflexivity; simpl; intros [-> | ->]; reflexivity.
Qed.

Lemma new_layer_named c nm w :
  args_ok c -> nm <> "" ->
  new_layer c (Some nm) w
  = (Ok {| lid := next_id w; lname := nm; lclass := c; trainable := true |}, bump w).
Proof.
  intros Hc Hnm. unfold new_layer.
  rewrite (bind_Ok _ _ _ _ _ (check_args_ok c w Hc)).
  rewrite bool_decide_eq_false_2 by assumption. reflexivity.
Qed.

Lemma apply_new_named c nm ins s w :
  args_ok c -> nm <> "" ->
  compute_output_shape c (int_shape <$> ins) = Ok s ->
  apply_new c (Some nm) ins w
  = (Ok (Tensor {| lid := next_id w; lname := nm; lclass := c; trainable := true |} ins s),
     bump w).
Proof.
  intros Hc Hnm Hs. unfold apply_new.
  rewrite (bind_Ok _ _ _ _ _ (new_layer_named c nm w Hc Hnm)).
  unfold call; simpl. now rewrite Hs.
Qed.

Lemma apply_new_named_raise c nm ins e w :
  args_ok c -> nm <> "" ->
  compute_output_shape c (int_shape <$> ins) = Raise e ->
  apply_new c (Some nm) ins w = (Raise e, bump w).
Proof.
  intros Hc Hnm Hs. unfold apply_new.
  rewrite (bind_Ok _ _ _ _ _ (new_layer_named c nm w Hc Hnm)).
  unfold call; simpl. now rewrite Hs.
Qed.

Lemma conv_output_length_defined d k p s :
  is_defined (conv_output_length d k p s) = is_defined d.
Proof. now destruct d. Qed.

Lemma deconv_length_defined d k p s :
  is_defined (deconv_length d s k p) = is_defined d.
Proof. destruct d; simpl; [|reflexivity]. now case_bool_decide. Qed.

Ltac name_nonempty := simpl; discriminate.

(** One convolution unit of the encoder. *)
Lemma custom_conv3d_ok enc t f st nm w b d1 d2 d3 c :
  padding_ok (padding enc) ->
  int_shape t = [b; d1; d2; d3; Some c] ->
  (batch_normalization enc = true -> is_defined d1 = true) ->
  exists t' w',
    _custom_conv3d enc t f st nm w = (Ok t', w')
    /\ int_shape t' =
         [b; conv_output_length d1 (kernel_size enc).1.1 (padding enc) st.1.1;
             conv_output_length d2 (kernel_size enc).1.2 (padding enc) st.1.2;
             conv_output_length d3 (kernel_size enc).2 (padding enc) st.2;
             Some f]
    /\ (exists news,
          tensor_layers t' = tensor_layers t ++ news
          /\ sig <$> news = encoder_unit_sigs enc f st nm)
    /\ events w' = events w.
Proof.
  intros Hp Hs Hbn. unfold _custom_conv3d, encoder_unit_sigs.
  destruct (kernel_size enc) as [[k1 k2] k3] eqn:Ek.
  destruct st as [[s1 s2] s3]. simpl fst; simpl snd.
  erewrite (bind_Ok (apply_new (Conv3D _ _ _ _) _ _)); cycle 1.
  { apply apply_new_named; [exact Hp | name_nonempty |].
    simpl. rewrite Hs. reflexivity. }
  destruct (batch_normalization enc).
  - specialize (Hbn eq_refl). destruct d1 as [d1|]; [|discriminate].
    erewrite (bind_Ok (apply_new (BatchNormalization _) _ _)); cycle 1.
    { apply apply_new_named; [exact I | name_nonempty | reflexivity]. }
    erewrite apply_new_named; [| exact I | name_nonempty | reflexivity].
    do 2 eexists. split; [reflexivity|]. split; [reflexivity|].
    split; [|reflexivity].
    eexists. split; [rewrite !tensor_layers_unary, <- !app_assoc|]; reflexivity.
  - rewrite (bind_Ok _ _ _ _ _ (eq_refl : ret _ _ = _)).
    erewrite apply_new_named; [| exact I | name_nonempty | reflexivity].
    do 2 eexists. split; [reflexivity|]. split; [reflexivity|].
    split; [|reflexivity].
    eexists. split; [rewrite !tensor_layers_unary, <- !app_assoc|]; reflexivity.
Qed.

(** Batch normalization along axis 1 cannot be built on a tensor whose
    first spatial dimension is unknown. *)
Lemma custom_conv3d_bn_undefined enc t f st nm w b d2 d3 c :
  padding_ok (padding enc) ->
  int_shape t = [b; None; d2; d3; Some c] ->
  batch_normalization enc = true ->
  exists w', _custom_conv3d enc t f st nm w = (Raise ValueError, w')
             /\ events w' = events w.
Proof.
  intros Hp Hs Hbn. unfold _custom_conv3d.
  destruct (kernel_size enc) as [[k1 k2] k3] eqn:Ek.
  destruct st as [[s1 s2] s3].
  erewrite (bind_Ok (apply_new (Conv3D _ _ _ _) _ _)); cycle 1.
  { apply apply_new_named; [exact Hp | name_nonempty |].
    simpl. rewrite Hs. reflexivity. }
  rewrite Hbn.
  erewrite (bind_Raise (apply_new (BatchNormalization _) _ _)); cycle 1.
  { apply apply_new_named_raise; [exact I | name_nonempty | reflexivity]. }
  eexists. split; reflexivity.
Qed.

Lemma last_cons_default {A} (a c : A) (l : list A) :
  default a (last l) = default c (last (a :: l)).
Proof.
  destruct l as [|x l]; [reflexivity|]. rewrite last_cons_cons.
  destruct (last (x :: l)) eqn:E; [reflexivity|].
  now apply last_None in E.
Qed.

(** The encoder loop, started at block number [i]. *)
Lemma build_encoder_from_ok enc :
  padding_ok (padding enc) ->
  forall fs i t w b d1 d2 d3 c,
    int_shape t = [b; d1; d2; d3; Some c] ->
    (batch_normalization enc = true -> fs <> [] -> is_defined d1 = true) ->
    exists t' w',
      for_each (enumerate_from i fs)
        (fun layer '(i, nb_filters) =>
           layer <- _custom_conv3d enc layer nb_filters (1, 1, 1) ("1-2_" +:+ pretty i) ;;
           _custom_conv3d enc layer nb_filters (2, 2, 2) ("2-1_" +:+ pretty i))
        t w = (Ok t', w')
      /\ int_shape t' =
           [b; Nat.iter (length fs) (encoder_block_dim (padding enc) (kernel_size enc).1.1) d1;
               Nat.iter (length fs) (encoder_block_dim (padding enc) (kernel_size enc).1.2) d2;
               Nat.iter (length fs) (encoder_block_dim (padding enc) (kernel_size enc).2) d3;
               Some (default c (last fs))]
      /\ (exists news,
            tensor_layers t' = tensor_layers t ++ news
            /\ sig <$> news = encoder_sigs_from enc i fs)
      /\ events w' = events w.
Proof.
  intros Hp fs. induction fs as [|f fs IH]; intros i t w b d1 d2 d3 c Hs Hbn.
  - exists t, w. split; [reflexivity|]. split; [exact Hs|]. split; [|reflexivity].
    exists []. now rewrite app_nil_r.
  - assert (Hd1 : batch_normalization enc = true -> is_defined d1 = true)
      by (intros Hb; now apply Hbn).
    destruct (custom_conv3d_ok enc t f (1, 1, 1) ("1-2_" +:+ pretty i) w
                b d1 d2 d3 c Hp Hs Hd1) as (t1 & w1 & E1 & S1 & (n1 & L1 & G1) & V1).
    simpl fst in S1; simpl snd in S1.
    destruct (custom_conv3d_ok enc t1 f (2, 2, 2) ("2-1_" +:+ pretty i) w1
                b _ _ _ f Hp S1) as (t2 & w2 & E2 & S2 & (n2 & L2 & G2) & V2).
    { intros Hb. rewrite conv_output_length_defined. now apply Hd1. }
    simpl fst in S2; simpl snd in S2.
    destruct (IH (S i) t2 w2 b _ _ _ f S2) as (t' & w' & E & S' & (n' & L & G) & V).
    { intros Hb _. rewrite !conv_output_length_defined. now apply Hd1. }
    exists t', w'. split; [|split; [|split]].
    + simpl for_each. unfold bind at 1. unfold bind at 1. rewrite E1, E2. exact E.
    + rewrite S'. simpl length. rewrite !Nat.iter_succ_r.
      rewrite <- (last_cons_default f c). reflexivity.
    + exists (n1 ++ n2 ++ n'). split.
      * rewrite L, L2, L1, <- !app_assoc. reflexivity.
      * change (encoder_sigs_from enc i (f :: fs))
          with ((encoder_unit_sigs enc f (1, 1, 1) ("1-2_" +:+ pretty i)
                 ++ encoder_unit_sigs enc f (2, 2, 2) ("2-1_" +:+ pretty i))
                ++ encoder_sigs_from enc (S i) fs).
        rewrite !fmap_app, G1, G2, G, <- !app_assoc. reflexivity.
    + congruence.
Qed.

Lemma build_encoder_ok enc t w b d1 d2 d3 c :
  padding_ok (padding enc) ->
  int_shape t = [b; d1; d2; d3; Some c] ->
  (batch_normalization enc = true -> nb_filters_per_layer enc <> [] ->
   is_defined d1 = true) ->
  let n := length (nb_filters_per_layer enc) in
  exists t' w',
    _build_encoder_layers enc t w = (Ok t', w')
    /\ int_shape t' =
         [b; Nat.iter n (encoder_block_dim (padding enc) (kernel_size enc).1.1) d1;
             Nat.iter n (encoder_block_dim (padding enc) (kernel_size enc).1.2) d2;
             Nat.iter n (encoder_block_dim (padding enc) (kernel_size enc).2) d3;
             Some (default c (last (nb_filters_per_layer enc)))]
    /\ (exists news,
          tensor_layers t' = tensor_layers t ++ news
          /\ sig <$> news = encoder_sigs_from enc 0 (nb_filters_per_layer enc))
    /\ events w' = events w.
Proof.
  intros Hp Hs Hbn n. unfold _build_encoder_layers, enumerate.
  now apply build_encoder_from_ok.
Qed.

Lemma custom_conv3d_bad_padding enc t f st nm w :
  ~ padding_ok (padding enc) ->
  _custom_conv3d enc t f st nm w = (Raise ValueError, w).
Proof.
  intros Hp.
  assert (H1 : bool_decide (padding enc = "valid") = false)
    by (apply bool_decide_eq_false_2; intros E; apply Hp; now left).
  assert (H2 : bool_decide (padding enc = "same") = false)
    by (apply bool_decide_eq_false_2; intros E; apply Hp; now right).
  unfold _custom_conv3d, apply_new, new_layer, check_args.
  unfold bind at 1. unfold bind at 1. unfold bind at 1.
  now rewrite H1, H2.
Qed.

(** With batch normalization the encoder cannot be built on an input whose
    first spatial dimension is unknown. *)
Lemma build_encoder_bn_undefined enc t w b d2 d3 c :
  int_shape t = [b; None; d2; d3; Some c] ->
  batch_normalization enc = true ->
  nb_filters_per_layer enc <> [] ->
  exists w', _build_encoder_layers enc t w = (Raise ValueError, w')
             /\ events w' = events w.
Proof.
  intros Hs Hbn Hfs. unfold _build_encoder_layers, enumerate.
  destruct (nb_filters_per_layer enc) as [|f fs]; [congruence|].
  simpl for_each. unfold bind at 1. unfold bind at 1.
  destruct (decide (padding enc = "valid" \/ padding enc = "same")) as [Hp|Hp].
  - destruct (custom_conv3d_bn_undefined enc t f (1, 1, 1) ("1-2_" +:+ pretty 0%nat) w
                b d2 d3 c Hp Hs Hbn) as (w' & E & V).
    exists w'. now rewrite E.
  - exists w. now rewrite (custom_conv3d_bad_padding enc t f _ _ w Hp).
Qed.

(** One transposed-convolution unit of the decoder. *)
Lemma custom_conv3dtranspose_ok self t f st nm w b d1 d2 d3 c :
  let enc := gm_encoder self in
  padding_ok (padding enc) ->
  int_shape t = [b; d1; d2; d3; Some c] ->
  (batch_normalization enc = true -> is_defined d1 = true) ->
  exists t' w',
    _custom_conv3dtranspose self t f st nm w = (Ok t', w')
    /\ int_shape t' =
         [b; deconv_length d1 st.1.1 (kernel_size enc).1.1 (padding enc);
             deconv_length d2 st.1.2 (kernel_size enc).1.2 (padding enc);
             deconv_length d3 st.2 (kernel_size enc).2 (padding enc);
             Some f]
    /\ (exists news,
          tensor_layers t' = tensor_layers t ++ news
          /\ sig <$> news = decoder_unit_sigs enc f st nm)
    /\ events w' = events w.
Proof.
  intros enc Hp Hs Hbn. unfold _custom_conv3dtranspose, decoder_unit_sigs.
  fold enc.
  destruct (kernel_size enc) as [[k1 k2] k3] eqn:Ek.
  destruct st as [[s1 s2] s3]. simpl fst; simpl snd.
  erewrite (bind_Ok (apply_new (Conv3DTranspose _ _ _ _) _ _)); cycle 1.
  { apply apply_new_named; [exact Hp | name_nonempty |].
    simpl. rewrite Hs. reflexivity. }
  destruct (batch_normalization enc).
  - specialize (Hbn eq_refl). destruct d1 as [d1|]; [|discriminate].
    assert (exists d1', deconv_length (Some d1) s1 k1 (padding enc) = Some d1')
      as [d1' Ed1] by (simpl; case_bool_decide; eauto).
    rewrite Ed1.
    erewrite (bind_Ok (apply_new (BatchNormalization _) _ _)); cycle 1.
    { apply apply_new_named; [exact I | name_nonempty | reflexivity]. }
    erewrite apply_new_named; [| exact I | name_nonempty | reflexivity].
    do 2 eexists. split; [reflexivity|]. split; [reflexivity|].
    split; [|reflexivity].
    eexists. split; [rewrite !tensor_layers_unary, <- !app_assoc|]; reflexivity.
  - rewrite (bind_Ok _ _ _ _ _ (eq_refl : ret _ _ = _)).
    erewrite apply_new_named; [| exact I | name_nonempty | reflexivity].
    do 2 eexists. split; [reflexivity|]. split; [reflexivity|].
    split; [|reflexivity].
    eexists. split; [rewrite !tensor_layers_unary, <- !app_assoc|]; reflexivity.
Qed.

(** The decoder loop over a list of filter counts, started at block [i]. *)
Lemma build_decoder_from_ok self :
  let enc := gm_encoder self in
  padding_ok (padding enc) ->
  forall fs i t w b d1 d2 d3 c,
    int_shape t = [b; d1; d2; d3; Some c] ->
    (batch_normalization enc = true -> fs <> [] -> is_defined d1 = true) ->
    exists t' w',
      for_each (enumerate_from i fs)
        (fun layer '(i, nb_filters) =>
           layer <- _custom_conv3dtranspose self layer nb_filters (2, 2, 2)
                                            ("2-1_" +:+ pretty i) ;;
           _custom_conv3dtranspose self layer nb_filters (1, 1, 1)
                                   ("1-2_" +:+ pretty i))
        t w = (Ok t', w')
      /\ int_shape t' =
           [b; Nat.iter (length fs) (decoder_block_dim (padding enc) (kernel_size enc).1.1) d1;
               Nat.iter (length fs) (decoder_block_dim (padding enc) (kernel_size enc).1.2) d2;
               Nat.iter (length fs) (decoder_block_dim (padding enc) (kernel_size enc).2) d3;
               Some (default c (last fs))]
      /\ (exists news,
            tensor_layers t' = tensor_layers t ++ news
            /\ sig <$> news = decoder_sigs_from enc i fs)
      /\ events w' = events w.
Proof.
  intros enc Hp fs. induction fs as [|f fs IH]; intros i t w b d1 d2 d3 c Hs Hbn.
  - exists t, w. split; [reflexivity|]. split; [exact Hs|]. split; [|reflexivity].
    exists []. now rewrite app_nil_r.
  - assert (Hd1 : batch_normalization enc = true -> is_defined d1 = true)
      by (intros Hb; now apply Hbn).
    destruct (custom_conv3dtranspose_ok self t f (2, 2, 2) ("2-1_" +:+ pretty i) w
                b d1 d2 d3 c Hp Hs Hd1) as (t1 & w1 & E1 & S1 & (n1 & L1 & G1) & V1).
    simpl fst in S1; simpl snd in S1.
    destruct (custom_conv3dtranspose_ok self t1 f (1, 1, 1) ("1-2_" +:+ pretty i) w1
                b _ _ _ f Hp S1) as (t2 & w2 & E2 & S2 & (n2 & L2 & G2) & V2).
    { intros Hb. rewrite deconv_length_defined. now apply Hd1. }
    simpl fst in S2; simpl snd in S2.
    destruct (IH (S i) t2 w2 b _ _ _ f S2) as (t' & w' & E & S' & (n' & L & G) & V).
    { intros Hb _. rewrite !deconv_length_defined. now apply Hd1. }
    exists t', w'. split; [|split; [|split]].
    + simpl for_each. unfold bind at 1. unfold bind at 1. rewrite E1, E2. exact E.
    + rewrite S'. simpl length. rewrite !Nat.iter_succ_r.
      rewrite <- (last_cons_default f c). reflexivity.
    + exists (n1 ++ n2 ++ n'). split.
      * rewrite L, L2, L1, <- !app_assoc. reflexivity.
      * change (decoder_sigs_from enc i (f :: fs))
          with ((decoder_unit_sigs enc f (2, 2, 2) ("2-1_" +:+ pretty i)
                 ++ decoder_unit_sigs enc f (1, 1, 1) ("1-2_" +:+ pretty i))
                ++ decoder_sigs_from enc (S i) fs).
        rewrite !fmap_app, G1, G2, G, <- !app_assoc. reflexivity.
    + congruence.
Qed.

Lemma last_rev_head {A} (l : list A) : last (rev l) = head l.
Proof. destruct l as [|a l]; [reflexivity|]. simpl. apply last_snoc. Qed.

Lemma build_decoder_ok self t w b d1 d2 d3 c :
  let enc := gm_encoder self in
  padding_ok (padding enc) ->
  int_shape t = [b; d1; d2; d3; Some c] ->
  (batch_normalization enc = true -> nb_filters_per_layer enc <> [] ->
   is_defined d1 = true) ->
  let n := length (nb_filters_per_layer enc) in
  exists t' w',
    _build_decoder_layers self t w = (Ok t', w')
    /\ int_shape t' =
         [b; Nat.iter n (decoder_block_dim (padding enc) (kernel_size enc).1.1) d1;
             Nat.iter n (decoder_block_dim (padding enc) (kernel_size enc).1.2) d2;
             Nat.iter n (decoder_block_dim (padding enc) (kernel_size enc).2) d3;
             Some (default c (head (nb_filters_per_layer enc)))]
    /\ (exists news,
          tensor_layers t' = tensor_layers t ++ news
          /\ sig <$> news = decoder_sigs_from enc 0 (rev (nb_filters_per_layer enc)))
    /\ events w' = events w.
Proof.
  intros enc Hp Hs Hbn n. unfold _build_decoder_layers, enumerate. fold enc.
  destruct (build_decoder_from_ok self Hp (rev (nb_filters_per_layer enc)) 0%nat
              t w b d1 d2 d3 c Hs) as (t' & w' & E & S' & L & V).
  { intros Hb Hr. apply Hbn; [exact Hb|]. intros E. apply Hr. now rewrite E. }
  exists t', w'. rewrite length_rev, last_rev_head in S'. now repeat split.
Qed.

(** ** The Gaussian Mixture Density head *)

Lemma concat_last_axis b m1 m2 m3 :
  concat_shape (-1) [[b; Some m1]; [b; Some m2]; [b; Some m3]]
  = Ok [b; Some (m1 + m2 + m3)].
Proof.
  unfold concat_shape. simpl length.
  change (py_pos 2 (-1)) with (Some 1%nat). cbv beta iota.
  simpl forallb. rewrite !bool_decide_eq_true_2 by (split; reflexivity).
  reflexivity.
Qed.

Lemma inversion_apply_new c nm ins w t w' :
  nm <> "" ->
  apply_new c (Some nm) ins w = (Ok t, w') ->
  exists s,
    compute_output_shape c (int_shape <$> ins) = Ok s
    /\ t = Tensor {| lid := next_id w; lname := nm; lclass := c; trainable := true |} ins s
    /\ w' = bump w.
Proof.
  intros Hnm. unfold apply_new, new_layer. intros E.
  apply bind_Ok_inv in E as (l & w1 & E1 & E2).
  apply bind_Ok_inv in E1 as ([] & w2 & Ec & E1).
  rewrite bool_decide_eq_false_2 in E1 by assumption.
  assert (w2 = w) as ->.
  { destruct c; simpl in Ec; try (now inversion Ec);
      destruct (_ || _); now inversion Ec. }
  cbv in E1. inversion E1; subst l w1; clear E1.
  unfold call in E2; simpl in E2.
  destruct (compute_output_shape c (int_shape <$> ins)) as [s|e]; [|discriminate].
  exists s. inversion E2. now repeat split.
Qed.

Lemma apply_new_named_ex c nm ins s w :
  args_ok c -> nm <> "" ->
  compute_output_shape c (int_shape <$> ins) = Ok s ->
  exists t,
    apply_new c (Some nm) ins w = (Ok t, bump w)
    /\ sig (producer t) = (nm, c)
    /\ inbound t = ins
    /\ int_shape t = s.
Proof.
  intros Hc Hnm Hs. eexists. split; [apply apply_new_named; eassumption|].
  now repeat split.
Qed.

Lemma conv_same_stride1 d k : conv_output_length (Some d) k "same" 1 = Some d.
Proof.
  unfold conv_output_length. rewrite bool_decide_eq_true_2 by reflexivity.
  f_equal. rewrite Z.div_1_r. lia.
Qed.

Lemma conv3d_same_stride1_shape f ks b d1 d2 d3 c :
  compute_output_shape (Conv3D f ks (1, 1, 1) "same")
                       [[b; Some d1; Some d2; Some d3; Some c]]
  = Ok [b; Some d1; Some d2; Some d3; Some f].
Proof.
  destruct ks as [[k1 k2] k3]. unfold compute_output_shape, conv3d_shape.
  cbv beta iota. unfold is_defined. now rewrite !conv_same_stride1.
Qed.

Lemma flatten_shape b d1 d2 d3 d4 :
  d1 <> 0 -> d2 <> 0 -> d3 <> 0 -> d4 <> 0 ->
  compute_output_shape Flatten [[b; Some d1; Some d2; Some d3; Some d4]]
  = Ok [b; Some (d1 * d2 * d3 * d4)].
Proof.
  intros H1 H2 H3 H4. unfold compute_output_shape.
  rewrite bool_decide_eq_true_2 by (simpl; lia).
  simpl forallb.
  rewrite (proj2 (Z.eqb_neq d1 0)), (proj2 (Z.eqb_neq d2 0)),
          (proj2 (Z.eqb_neq d3 0)), (proj2 (Z.eqb_neq d4 0)) by assumption.
  simpl. replace (d1 * (d2 * (d3 * (d4 * 1)))) with (d1 * d2 * d3 * d4) by ring.
  reflexivity.
Qed.

Lemma dense_shape units act b d :
  d <> 0 ->
  compute_output_shape (Dense units act) [[b; Some d]] = Ok [b; Some units].
Proof.
  intros Hd. unfold compute_output_shape.
  rewrite bool_decide_eq_true_2 by (simpl; lia).
  change (last [b; Some d]) with (Some (Some d)). cbv beta iota.
  rewrite (proj2 (Z.eqb_neq d 0)) by assumption. reflexivity.
Qed.

Ltac unary_shape H :=
  match goal with
  | |- context [int_shape <$> [?t]] =>
      change (int_shape <$> [t]) with [int_shape t]
  end;
  rewrite H.

Lemma build_gmd_layers_ok self encoded decoded w b e1 e2 e3 ce z y x cd :
  int_shape encoded = [b; Some e1; Some e2; Some e3; Some ce] ->
  int_shape decoded = [b; Some z; Some y; Some x; Some cd] ->
  e1 <> 0 -> e2 <> 0 -> e3 <> 0 -> z <> 0 -> y <> 0 -> x <> 0 ->
  n_gaussians self <> 0 ->
  n_dense_log_prior self <> 0 -> n_dense_sigma_sq self <> 0 ->
  exists out w',
    _build_gmd_layers self encoded decoded w = (Ok out, w')
    /\ gmd_head self b (z * y * x * n_gaussians self) encoded decoded out
    /\ events w' = events w.
Proof.
  intros He Hd He1 He2 He3 Hz Hy Hx Hm Hlp Hss. unfold _build_gmd_layers.
  set (ks := kernel_size (gm_encoder self)). set (m := n_gaussians self) in *.
  assert (Hsame : padding_ok "same") by (now right).
  (* log-priors *)
  destruct (apply_new_named_ex (Conv3D 1 ks (1, 1, 1) "same") "log_prior_conv3d"
              [encoded] _ w Hsame ltac:(discriminate)
              ltac:(unary_shape He; apply conv3d_same_stride1_shape))
    as (lp_conv & E1 & G1 & I1 & S1).
  rewrite (bind_Ok _ _ _ _ _ E1).
  destruct (apply_new_named_ex Flatten "log_prior_flatten" [lp_conv] _ (bump w)
              I ltac:(discriminate)
              ltac:(unary_shape S1; now apply flatten_shape))
    as (lp_flat & E2 & G2 & I2 & S2).
  rewrite (bind_Ok _ _ _ _ _ E2).
  destruct (apply_new_named_ex (Dense (n_dense_log_prior self) (act_builtin "relu"))
              "log_prior_dense_1" [lp_flat] _ (bump (bump w)) I ltac:(discriminate)
              ltac:(unary_shape S2; apply dense_shape; lia))
    as (lp_dense & E3 & G3 & I3 & S3).
  rewrite (bind_Ok _ _ _ _ _ E3).
  destruct (apply_new_named_ex (Dense m act_log_softmax) "log_prior" [lp_dense] _
              (bump (bump (bump w))) I ltac:(discriminate)
              ltac:(unary_shape S3; now apply dense_shape))
    as (log_prior & E4 & G4 & I4 & S4).
  rewrite (bind_Ok _ _ _ _ _ E4).
  (* means *)
  destruct (apply_new_named_ex (Conv3D m ks (1, 1, 1) "same") "mu_conv3d"
              [decoded] _ (bump (bump (bump (bump w)))) Hsame ltac:(discriminate)
              ltac:(unary_shape Hd; apply conv3d_same_stride1_shape))
    as (mu_conv & E5 & G5 & I5 & S5).
  rewrite (bind_Ok _ _ _ _ _ E5).
  destruct (apply_new_named_ex Flatten "mu" [mu_conv] _ (bump (bump (bump (bump (bump w)))))
              I ltac:(discriminate)
              ltac:(unary_shape S5; now apply flatten_shape))
    as (mu & E6 & G6 & I6 & S6).
  rewrite (bind_Ok _ _ _ _ _ E6).
  (* variances *)
  destruct (apply_new_named_ex (Conv3D 1 ks (1, 1, 1) "same") "sigma_sq_conv3d"
              [encoded] _ (bump (bump (bump (bump (bump (bump w))))))
              Hsame ltac:(discriminate)
              ltac:(unary_shape He; apply conv3d_same_stride1_shape))
    as (ss_conv & E7 & G7 & I7 & S7).
  rewrite (bind_Ok _ _ _ _ _ E7).
  destruct (apply_new_named_ex Flatten "sigma_sq_flatten" [ss_conv] _
              (bump (bump (bump (bump (bump (bump (bump w)))))))
              I ltac:(discriminate)
              ltac:(unary_shape S7; now apply flatten_shape))
    as (ss_flat & E8 & G8 & I8 & S8).
  rewrite (bind_Ok _ _ _ _ _ E8).
  destruct (apply_new_named_ex (Dense (n_dense_sigma_sq self) (act_builtin "relu"))
              "sigma_sq_dense_1" [ss_flat] _
              (bump (bump (bump (bump (bump (bump (bump (bump w))))))))
              I ltac:(discriminate)
              ltac:(unary_shape S8; apply dense_shape; lia))
    as (ss_dense1 & E9 & G9 & I9 & S9).
  rewrite (bind_Ok _ _ _ _ _ E9).
  destruct (apply_new_named_ex (Dense m act_none) "sigma_sq_dense_2" [ss_dense1] _
              (bump (bump (bump (bump (bump (bump (bump (bump (bump w)))))))))
              I ltac:(discriminate)
              ltac:(unary_shape S9; now apply dense_shape))
    as (ss_dense2 & E10 & G10 & I10 & S10).
  rewrite (bind_Ok _ _ _ _ _ E10).
  destruct (apply_new_named_ex (ShiftedELU 1 1) "sigma_sq" [ss_dense2] _
              (bump (bump (bump (bump (bump (bump (bump (bump (bump (bump w))))))))))
              I ltac:(discriminate)
              ltac:(unary_shape S10; reflexivity))
    as (sigma_sq & E11 & G11 & I11 & S11).
  rewrite (bind_Ok _ _ _ _ _ E11).
  erewrite apply_new_named; [| exact I | discriminate |]; cycle 1.
  { simpl. rewrite S4, S11, S6. apply concat_last_axis. }
  do 2 eexists. split; [reflexivity|]. split; [|reflexivity].
  unfold gmd_head. fold m. fold ks.
  exists {| lid := next_id (bump (bump (bump (bump (bump (bump (bump (bump (bump
                      (bump (bump w)))))))))));
            lname := "gmd"; lclass := Concatenate (-1); trainable := true |}.
  exists log_prior, sigma_sq, mu, lp_dense, lp_flat, lp_conv,
         ss_dense2, ss_dense1, ss_flat, ss_conv, mu_conv.
  split.
  { replace (2 * m + z * y * x * m) with (m + m + z * y * x * m) by ring.
    reflexivity. }
  repeat split; assumption.
Qed.

(** ** Shapes through the autoencoder with padding ['same'] *)

Lemma encoder_block_same k d : encoder_block_dim "same" k (Some (2 * d)) = Some d.
Proof.
  unfold encoder_block_dim. rewrite conv_same_stride1.
  unfold conv_output_length. rewrite bool_decide_eq_true_2 by reflexivity.
  f_equal. replace (2 * d + 2 - 1) with (1 + d * 2) by ring.
  rewrite Z.div_add by discriminate. reflexivity.
Qed.

Lemma encoder_dims_same n k q :
  Nat.iter n (encoder_block_dim "same" k) (Some (2 ^ Z.of_nat n * q)) = Some q.
Proof.
  revert q. induction n as [|n IH]; intros q.
  - simpl. f_equal. lia.
  - rewrite Nat.iter_succ_r.
    replace (2 ^ Z.of_nat (S n) * q) with (2 * (2 ^ Z.of_nat n * q)).
    + rewrite encoder_block_same. apply IH.
    + rewrite Nat2Z.inj_succ, Z.pow_succ_r by lia. ring.
Qed.

Lemma decoder_block_same k d : decoder_block_dim "same" k (Some d) = Some (2 * d).
Proof.
  unfold decoder_block_dim, deconv_length.
  rewrite !bool_decide_eq_false_2 by discriminate. f_equal. ring.
Qed.

Lemma decoder_dims_same n k q :
  Nat.iter n (decoder_block_dim "same" k) (Some q) = Some (2 ^ Z.of_nat n * q).
Proof.
  induction n as [|n IH].
  - simpl. f_equal. lia.
  - simpl Nat.iter. rewrite IH, decoder_block_same. f_equal.
    rewrite Nat2Z.inj_succ, Z.pow_succ_r by lia. ring.
Qed.

Lemma Input_ok sh w :
  exists l w',
    Input sh w = (Ok (Tensor l [] (None :: sh)), w')
    /\ lclass l = InputLayer (None :: sh)
    /\ (exists k : nat, lname l = "input_" +:+ pretty k)
    /\ events w' = events w.
Proof.
  do 2 eexists. split; [reflexivity|]. split; [reflexivity|].
  split; [|reflexivity]. eexists. reflexivity.
Qed.

(** ** The layers of the two halves *)

Lemma sigs_of_news t t' news (sigs : list (string * layer_class)) :
  sig <$> news = sigs ->
  tensor_layers t' = tensor_layers t ++ news ->
  layer_sigs t' = layer_sigs t ++ sigs.
Proof. intros <- E. unfold layer_sigs. now rewrite E, fmap_app. Qed.

Lemma classes_since t t' (sigs : list (string * layer_class)) :
  layer_sigs t' = layer_sigs t ++ sigs ->
  lclass <$> layers_since t t' = sigs.*2.
Proof.
  unfold layer_sigs, layers_since. intros E.
  apply (f_equal (fmap snd)) in E.
  rewrite fmap_app, <- !list_fmap_compose in E.
  change (snd ∘ sig) with lclass in E.
  rewrite fmap_drop, E, drop_app_length'; [reflexivity|].
  now rewrite length_fmap.
Qed.

Lemma encoder_convs enc i fs :
  List.filter is_conv3d (encoder_sigs_from enc i fs).*2
  = flat_map (fun f => [Conv3D f (kernel_size enc) (1, 1, 1) (padding enc);
                        Conv3D f (kernel_size enc) (2, 2, 2) (padding enc)]) fs.
Proof.
  revert i. induction fs as [|f fs IH]; intros i; [reflexivity|].
  change (encoder_sigs_from enc i (f :: fs))
    with ((encoder_unit_sigs enc f (1, 1, 1) ("1-2_" +:+ pretty i)
           ++ encoder_unit_sigs enc f (2, 2, 2) ("2-1_" +:+ pretty i))
          ++ encoder_sigs_from enc (S i) fs).
  rewrite fmap_app, List.filter_app, IH.
  unfold encoder_unit_sigs. now destruct (batch_normalization enc).
Qed.

Lemma decoder_deconvs enc i fs :
  List.filter is_conv3dtranspose (decoder_sigs_from enc i fs).*2
  = flat_map (fun f => [Conv3DTranspose f (kernel_size enc) (2, 2, 2) (padding enc);
                        Conv3DTranspose f (kernel_size enc) (1, 1, 1) (padding enc)]) fs.
Proof.
  revert i. induction fs as [|f fs IH]; intros i; [reflexivity|].
  change (decoder_sigs_from enc i (f :: fs))
    with ((decoder_unit_sigs enc f (2, 2, 2) ("2-1_" +:+ pretty i)
           ++ decoder_unit_sigs enc f (1, 1, 1) ("1-2_" +:+ pretty i))
          ++ decoder_sigs_from enc (S i) fs).
  rewrite fmap_app, List.filter_app, IH.
  unfold decoder_unit_sigs. now destruct (batch_normalization enc).
Qed.

Lemma conv_pairs_count (fs : list Z) (g1 g2 : Z -> layer_class) (test : layer_class -> bool) :
  (forall f, length (List.filter test [g1 f; g2 f]) = 1%nat) ->
  length (List.filter test (flat_map (fun f => [g1 f; g2 f]) fs)) = length fs.
Proof.
  intros H1. induction fs as [|f fs IH]; [reflexivity|].
  change (flat_map (fun f => [g1 f; g2 f]) (f :: fs))
    with ([g1 f; g2 f] ++ flat_map (fun f => [g1 f; g2 f]) fs).
  rewrite List.filter_app, length_app, H1, IH. reflexivity.
Qed.

Lemma conv_pairs_length (fs : list Z) (g1 g2 : Z -> layer_class) :
  length (flat_map (fun f => [g1 f; g2 f]) fs) = (2 * length fs)%nat.
Proof. induction fs as [|f fs IH]; [reflexivity|]. simpl. rewrite IH. lia. Qed.

(** ** The autoencoder on inputs that halve evenly *)

Lemma same_padding_ok (enc : Encoder) : padding enc = "same" -> padding_ok (padding enc).
Proof. intros ->. now right. Qed.

Lemma default_head_last (fs : list Z) (c : Z) :
  default (default c (last fs)) (head fs) = default c (head fs).
Proof. now destruct fs. Qed.

Lemma autoencoder_same_ok (self : GaussianMixtureCAE) z y x w :
  let enc := gm_encoder self in
  let fs := nb_filters_per_layer enc in
  let n := Z.of_nat (length fs) in
  padding enc = "same" ->
  (2 ^ n | z) -> (2 ^ n | y) -> (2 ^ n | x) ->
  exists inp w1 encoded w2 decoded w3 qz qy qx,
    Input [Some z; Some y; Some x; Some 1] w = (Ok inp, w1)
    /\ _build_encoder_layers enc inp w1 = (Ok encoded, w2)
    /\ _build_decoder_layers self encoded w2 = (Ok decoded, w3)
    /\ int_shape inp = [None; Some z; Some y; Some x; Some 1]
    /\ int_shape encoded = [None; Some qz; Some qy; Some qx; Some (default 1 (last fs))]
    /\ z = 2 ^ n * qz /\ y = 2 ^ n * qy /\ x = 2 ^ n * qx
    /\ int_shape decoded = [None; Some z; Some y; Some x; Some (default 1 (head fs))]
    /\ (exists l (k : nat) enc_news dec_news,
          tensor_layers inp = [producer inp]
          /\ producer inp = l
          /\ lname l = "input_" +:+ pretty k
          /\ tensor_layers encoded = tensor_layers inp ++ enc_news
          /\ sig <$> enc_news = encoder_sigs_from enc 0 fs
          /\ tensor_layers decoded = tensor_layers encoded ++ dec_news
          /\ sig <$> dec_news = decoder_sigs_from enc 0 (rev fs))
    /\ events w3 = events w.
Proof.
  intros enc fs n Hp [qz Hz] [qy Hy] [qx Hx].
  destruct (Input_ok [Some z; Some y; Some x; Some 1] w)
    as (l & w1 & Ei & _ & (k & Hk) & Vi).
  set (inp := Tensor l [] [None; Some z; Some y; Some x; Some 1]) in *.
  destruct (build_encoder_ok enc inp w1 None (Some z) (Some y) (Some x) 1
              (same_padding_ok enc Hp) eq_refl (fun _ _ => eq_refl))
    as (encoded & w2 & Ee & Se & (enc_news & Le & Ge) & Ve).
  fold fs in Se, Ge. rewrite Hp in Se.
  rewrite Hz, Hy, Hx in Se.
  rewrite !(Z.mul_comm _ (2 ^ Z.of_nat (length fs))) in Se.
  rewrite !encoder_dims_same in Se.
  destruct (build_decoder_ok self encoded w2 None (Some qz) (Some qy) (Some qx) _
              (same_padding_ok enc Hp) Se (fun _ _ => eq_refl))
    as (decoded & w3 & Ed & Sd & (dec_news & Ld & Gd) & Vd).
  fold enc in Sd, Gd. fold fs in Sd, Gd. rewrite Hp in Sd.
  rewrite !decoder_dims_same, default_head_last in Sd.
  exists inp, w1, encoded, w2, decoded, w3, qz, qy, qx.
  repeat split; try assumption; try (subst n; lia).
  - rewrite Sd. subst n. rewrite Hz, Hy, Hx.
    now rewrite !(Z.mul_comm (2 ^ Z.of_nat (length fs))).
  - exists l, k, enc_news, dec_news. now repeat split.
  - congruence.
Qed.

(** C7. The encoder has two convolutions per entry of
    [nb_filters_per_layer], the second of each pair with stride (2, 2, 2);
    the decoder goes through the filter counts in reverse order with two
    transposed convolutions per entry, the first of each pair with stride
    (2, 2, 2).  With padding ['same'] and input dimensions divisible by
    [2^n] the decoder output has the spatial shape [(z, y, x)] of the
    input, the [c = z*y*x] dimensions the loss was built for. *)
Theorem autoencoder_restores_shape (m z y x : Z) (fs : list Z) (ks : Z * Z * Z)
    (bn : bool) (opt : optimizer_arg) (es : Z) (mp wnf : string) (hf : Z) (w : world) :
  let self := GaussianMixtureCAE_init m (z, y, x) fs ks "same" bn opt es mp wnf hf in
  let n := length fs in
  (2 ^ Z.of_nat n | z) -> (2 ^ Z.of_nat n | y) -> (2 ^ Z.of_nat n | x) ->
  exists inp w1 encoded w2 decoded w3,
    Input [Some z; Some y; Some x; Some 1] w = (Ok inp, w1)
    /\ _build_encoder_layers (gm_encoder self) inp w1 = (Ok encoded, w2)
    /\ _build_decoder_layers self encoded w2 = (Ok decoded, w3)
    /\ List.filter is_conv3d (lclass <$> layers_since inp encoded)
       = flat_map (fun f => [Conv3D f ks (1, 1, 1) "same";
                             Conv3D f ks (2, 2, 2) "same"]) fs
    /\ length (List.filter is_conv3d (lclass <$> layers_since inp encoded)) = (2 * n)%nat
    /\ length (List.filter (has_strides (2, 2, 2))
                 (List.filter is_conv3d (lclass <$> layers_since inp encoded))) = n
    /\ List.filter is_conv3dtranspose (lclass <$> layers_since encoded decoded)
       = flat_map (fun f => [Conv3DTranspose f ks (2, 2, 2) "same";
                             Conv3DTranspose f ks (1, 1, 1) "same"]) (rev fs)
    /\ length (List.filter (has_strides (2, 2, 2))
                 (List.filter is_conv3dtranspose
                    (lclass <$> layers_since encoded decoded))) = n
    /\ int_shape decoded = [None; Some z; Some y; Some x; Some (default 1 (head fs))]
    /\ _loss (gm_naked self) = Some (build_gmd_log_likelihood (z * y * x) m).
Proof.
  intros self n Hz Hy Hx.
  destruct (autoencoder_same_ok self z y x w eq_refl Hz Hy Hx)
    as (inp & w1 & encoded & w2 & decoded & w3 & qz & qy & qx
        & Ei & Ee & Ed & Si & Se & _ & _ & _ & Sd
        & (l & k & enc_news & dec_news & _ & _ & _ & Le & Ge & Ld & Gd) & _).
  exists inp, w1, encoded, w2, decoded, w3.
  apply (sigs_of_news _ _ _ _ Ge) in Le. apply (sigs_of_news _ _ _ _ Gd) in Ld.
  apply classes_since in Le, Ld. rewrite Le, Ld.
  rewrite encoder_convs, decoder_deconvs.
  change (nb_filters_per_layer (gm_encoder self)) with fs in *.
  change (kernel_size (gm_encoder self)) with ks.
  change (padding (gm_encoder self)) with "same".
  repeat split; try assumption.
  - apply conv_pairs_length.
  - apply (conv_pairs_count fs (fun f => Conv3D f ks (1, 1, 1) "same")
             (fun f => Conv3D f ks (2, 2, 2) "same")).
    intros f. reflexivity.
  - rewrite (conv_pairs_count (rev fs) (fun f => Conv3DTranspose f ks (2, 2, 2) "same")
               (fun f => Conv3DTranspose f ks (1, 1, 1) "same"))
      by (intros f; reflexivity).
    apply length_rev.
Qed.

(** ** Layer names are unique *)

Lemma unit_name_inj : Inj (=) (=) unit_name.
Proof.
  intros [[d k] i] [[d' k'] i'] E. unfold unit_name in E. simpl in E.
  destruct d, k, d', k'; simpl in E; try discriminate E;
    (apply (inj (String.append _)) in E; apply (inj pretty) in E; now subst).
Qed.

Lemma unit_keys_index d kinds i fs key :
  key ∈ unit_keys d kinds i fs -> (i <= key.2)%nat /\ key.1.1 = d.
Proof.
  revert i. induction fs as [|f fs IH]; intros i; [now intros ?%elem_of_nil|].
  change (unit_keys d kinds i (f :: fs))
    with (((fun k => (d, k, i)) <$> kinds) ++ unit_keys d kinds (S i) fs).
  intros [Hin|Hin]%elem_of_app.
  - apply list_elem_of_fmap in Hin as (k & -> & _). simpl. split; [lia|reflexivity].
  - apply IH in Hin as [? ?]. split; [lia|assumption].
Qed.

Lemma unit_keys_NoDup d kinds i fs : NoDup kinds -> NoDup (unit_keys d kinds i fs).
Proof.
  intros Hk. revert i. induction fs as [|f fs IH]; intros i; [constructor|].
  change (unit_keys d kinds i (f :: fs))
    with (((fun k => (d, k, i)) <$> kinds) ++ unit_keys d kinds (S i) fs).
  apply NoDup_app. split; [|split; [|apply IH]].
  - apply NoDup_fmap_2; [|exact Hk]. intros k k' E. now inversion E.
  - intros key Hin Hin'.
    apply list_elem_of_fmap in Hin as (k & -> & _).
    apply unit_keys_index in Hin' as [Hle _]. simpl in Hle. lia.
Qed.

Lemma encoder_kinds_NoDup bn : NoDup (encoder_kinds bn).
Proof. destruct bn; apply (bool_decide_unpack (NoDup _)); vm_compute; exact I. Qed.

Lemma decoder_kinds_NoDup bn : NoDup (decoder_kinds bn).
Proof. destruct bn; apply (bool_decide_unpack (NoDup _)); vm_compute; exact I. Qed.

Lemma encoder_names enc i fs :
  (encoder_sigs_from enc i fs).*1
  = unit_name <$> unit_keys false (encoder_kinds (batch_normalization enc)) i fs.
Proof.
  revert i. induction fs as [|f fs IH]; intros i; [reflexivity|].
  change (encoder_sigs_from enc i (f :: fs))
    with ((encoder_unit_sigs enc f (1, 1, 1) ("1-2_" +:+ pretty i)
           ++ encoder_unit_sigs enc f (2, 2, 2) ("2-1_" +:+ pretty i))
          ++ encoder_sigs_from enc (S i) fs).
  change (unit_keys false ?ks i (f :: fs))
    with (((fun k => (false, k, i)) <$> ks) ++ unit_keys false ks (S i) fs).
  rewrite !fmap_app, IH. f_equal.
  unfold encoder_unit_sigs, encoder_kinds.
  now destruct (batch_normalization enc).
Qed.

Lemma decoder_names enc i fs :
  (decoder_sigs_from enc i fs).*1
  = unit_name <$> unit_keys true (decoder_kinds (batch_normalization enc)) i fs.
Proof.
  revert i. induction fs as [|f fs IH]; intros i; [reflexivity|].
  change (decoder_sigs_from enc i (f :: fs))
    with ((decoder_unit_sigs enc f (2, 2, 2) ("2-1_" +:+ pretty i)
           ++ decoder_unit_sigs enc f (1, 1, 1) ("1-2_" +:+ pretty i))
          ++ decoder_sigs_from enc (S i) fs).
  change (unit_keys true ?ks i (f :: fs))
    with (((fun k => (true, k, i)) <$> ks) ++ unit_keys true ks (S i) fs).
  rewrite !fmap_app, IH. f_equal.
  unfold decoder_unit_sigs, decoder_kinds.
  now destruct (batch_normalization enc).
Qed.

Lemma unit_name_first_char key :
  first_char (unit_name key) = Some "e"%char \/ first_char (unit_name key) = Some "d"%char.
Proof. destruct key as [[[] []] i]; simpl; auto. Qed.

(** The names of an autoencoder: the input layer, the convolution units of
    the two halves, and the head. *)
Lemma cae_names_NoDup enc (k : nat) fs :
  NoDup (("input_" +:+ pretty k)
         :: ((encoder_sigs_from enc 0 fs).*1 ++ (decoder_sigs_from enc 0 (rev fs)).*1)
         ++ head_names).
Proof.
  rewrite encoder_names, decoder_names, <- fmap_app.
  set (keys := unit_keys false _ 0 fs ++ unit_keys true _ 0 (rev fs)).
  assert (Hkeys : NoDup keys).
  { apply NoDup_app. split; [|split].
    - apply unit_keys_NoDup, encoder_kinds_NoDup.
    - intros key [_ H1]%unit_keys_index [_ H2]%unit_keys_index. congruence.
    - apply unit_keys_NoDup, decoder_kinds_NoDup. }
  assert (Hunits : forall nm, nm ∈ unit_name <$> keys ->
            first_char nm = Some "e"%char \/ first_char nm = Some "d"%char).
  { intros nm (key & -> & _)%list_elem_of_fmap. apply unit_name_first_char. }
  assert (Hheads : forall nm, nm ∈ head_names ->
            first_char nm <> Some "e"%char /\ first_char nm <> Some "d"%char
            /\ first_char nm <> Some "i"%char).
  { intros nm Hin. unfold head_names in Hin.
    repeat (apply elem_of_cons in Hin as [-> | Hin]; [now repeat split|]).
    now apply elem_of_nil in Hin. }
  apply NoDup_cons. split; [|apply NoDup_app; split; [|split]].
  - intros [Hin|Hin]%elem_of_app.
    + apply Hunits in Hin as [Hin|Hin]; discriminate Hin.
    + apply Hheads in Hin as (_ & _ & Hin). now apply Hin.
  - apply NoDup_fmap_2; [apply unit_name_inj | exact Hkeys].
  - intros nm Hu Hh. apply Hheads in Hh as (He & Hd & _).
    apply Hunits in Hu as [Hu|Hu]; contradiction.
  - apply (bool_decide_unpack (NoDup head_names)). vm_compute. exact I.
Qed.

(** ** Constructing the Keras model *)

Lemma dedup_by_lid_spec seen ls :
  NoDup (lid <$> dedup_by_lid seen ls)
  /\ (forall l, l ∈ dedup_by_lid seen ls -> l ∈ ls /\ lid l ∉ seen)
  /\ (forall l, l ∈ ls -> lid l ∉ seen -> lid l ∈ lid <$> dedup_by_lid seen ls).
Proof.
  revert seen. induction ls as [|a ls IH]; intros seen.
  - simpl. split; [constructor|]. split; intros l Hl; now apply elem_of_nil in Hl.
  - simpl. case_bool_decide as Ha.
    + destruct (IH seen) as (N & S1 & S2). split; [exact N|]. split.
      * intros l Hl. apply S1 in Hl as [? ?]. split; [now right | assumption].
      * intros l [->|Hl]%elem_of_cons Hs; [contradiction | now apply S2].
    + destruct (IH (lid a :: seen)) as (N & S1 & S2). split; [|split].
      * rewrite fmap_cons. apply NoDup_cons. split; [|exact N].
        intros (l & El & Hl)%list_elem_of_fmap. apply S1 in Hl as [_ Hl].
        apply Hl. rewrite <- El. now left.
      * intros l [->|Hl]%elem_of_cons; [split; [now left | assumption]|].
        apply S1 in Hl as [? Hl]. split; [now right|].
        intros Hs. apply Hl. now right.
      * intros l Hl Hs. rewrite fmap_cons.
        destruct (decide (lid l = lid a)) as [E|E]; [rewrite E; now left|].
        right. apply elem_of_cons in Hl as [->|Hl]; [congruence|].
        apply S2; [assumption|]. intros [?|?]%elem_of_cons; contradiction.
Qed.

Lemma NoDup_fmap_inj_on {A B} (f : A -> B) (l : list A) x y :
  NoDup (f <$> l) -> x ∈ l -> y ∈ l -> f x = f y -> x = y.
Proof.
  induction l as [|a l IH]; [now intros _ ?%elem_of_nil|].
  rewrite fmap_cons. intros [Ha N]%NoDup_cons [->|Hx]%elem_of_cons [->|Hy]%elem_of_cons E.
  - reflexivity.
  - exfalso. apply Ha. rewrite E. now apply list_elem_of_fmap_2.
  - exfalso. apply Ha. rewrite <- E. now apply list_elem_of_fmap_2.
  - now apply IH.
Qed.

(** Layers that come from a collection with unique names still have unique
    names once every layer object is listed once. *)
Lemma names_unique_after_dedup (ls universe : list layer) :
  ls ⊆ universe ->
  NoDup (lname <$> universe) ->
  NoDup (lname <$> dedup_by_lid [] ls).
Proof.
  intros Hsub Hu. destruct (dedup_by_lid_spec [] ls) as (N & S1 & _).
  apply NoDup_fmap_2_strong; [|now apply NoDup_fmap_1 in N].
  intros x y Hx Hy E. apply S1 in Hx as [Hx _]. apply S1 in Hy as [Hy _].
  apply (NoDup_fmap_inj_on lname universe); auto.
Qed.

Lemma new_Model_ok inp out (universe : list layer) w :
  producer inp ∈ tensor_layers out ->
  tensor_layers out ⊆ universe ->
  NoDup (lname <$> universe) ->
  new_Model (Some inp) (Some out) w
  = (Ok {| m_input := inp; m_output := out;
           layers := dedup_by_lid [] (tensor_layers out);
           compiled := None |}, w).
Proof.
  intros Hin Hsub Hu. unfold new_Model.
  destruct (dedup_by_lid_spec [] (tensor_layers out)) as (_ & _ & S2).
  rewrite bool_decide_eq_true_2
    by (apply S2; [assumption | apply not_elem_of_nil]).
  destruct (decide (NoDup _)) as [|Hn]; [reflexivity|].
  exfalso. apply Hn. now apply (names_unique_after_dedup _ universe).
Qed.



Lemma names_of_sigs (news : list layer) sigs :
  sig <$> news = sigs -> lname <$> news = sigs.*1.
Proof. intros <-. now rewrite <- list_fmap_compose. Qed.


(** ** Building the autoencoder *)



Lemma gmd_head_shape self b width_mu encoded decoded out :
  gmd_head self b width_mu encoded decoded out ->
  int_shape out = [b; Some (2 * n_gaussians self + width_mu)].
Proof. intros (l & lp & ss & mu & ? & ? & ? & ? & ? & ? & ? & ? & -> & _). reflexivity. Qed.



(** ** The activations of the head *)


Ltac invert_apply_new E :=
  apply inversion_apply_new in E as (? & ? & -> & ->); [|discriminate].


(** ** Every layer has a name *)

Lemma tensor_layers_eq l ins s :
  tensor_layers (Tensor l ins s) = concat (tensor_layers <$> ins) ++ [l].
Proof.
  simpl. f_equal. induction ins as [|t ins IH]; [reflexivity|].
  simpl. now rewrite IH.
Qed.

Lemma named_Tensor l ins s :
  lname l <> "" -> Forall named ins -> named (Tensor l ins s).
Proof.
  intros Hl Hins. unfold named. rewrite tensor_layers_eq.
  apply Forall_app. split; [|now repeat constructor].
  induction Hins as [|t ins Ht _ IH]; [constructor|].
  simpl. apply Forall_app. now split.
Qed.

Lemma class_prefix_nonempty c (n : nat) : class_prefix c +:+ "_" +:+ pretty n <> "".
Proof. destruct c; discriminate. Qed.

Lemma new_layer_nonempty c name w l w' :
  new_layer c name w = (Ok l, w') -> lname l <> "".
Proof.
  unfold new_layer. intros E.
  apply bind_Ok_inv in E as ([] & w1 & _ & E).
  apply bind_Ok_inv in E as (nm & w2 & En & E).
  apply bind_Ok_inv in E as (i & w3 & _ & E).
  inversion E; subst; clear E. simpl.
  assert (Hauto : forall w w' nm,
            (n <- get_uid (class_prefix c) ;; ret (class_prefix c +:+ "_" +:+ pretty n)) w
            = (Ok nm, w') -> nm <> "").
  { intros u u' nm' Eu. apply bind_Ok_inv in Eu as (n & u1 & _ & Eu).
    inversion Eu. apply class_prefix_nonempty. }
  destruct name as [s|]; [|now apply Hauto in En].
  case_bool_decide; [now apply Hauto in En|]. now inversion En; subst.
Qed.

Lemma apply_new_keeps_named c name ins w t w' :
  apply_new c name ins w = (Ok t, w') -> Forall named ins -> named t.
Proof.
  unfold apply_new. intros E Hins.
  apply bind_Ok_inv in E as (l & w1 & El & E).
  apply new_layer_nonempty in El.
  unfold call in E.
  destruct (compute_output_shape (lclass l) (int_shape <$> ins)); [|discriminate].
  inversion E; subst. now apply named_Tensor.
Qed.

Lemma for_each_invariant {A B} (I : A -> Prop) (body : A -> B -> Py A) xs :
  (forall acc x w acc' w', body acc x w = (Ok acc', w') -> I acc -> I acc') ->
  forall acc w acc' w',
    for_each xs body acc w = (Ok acc', w') -> I acc -> I acc'.
Proof.
  intros Hbody. induction xs as [|x xs IH]; intros acc w acc' w' E Hacc.
  - now inversion E; subst.
  - simpl in E. apply bind_Ok_inv in E as (a1 & w1 & E1 & E).
    eapply IH; [exact E|]. eapply Hbody; eauto.
Qed.

Ltac keep_named :=
  repeat match goal with
    | E : bind _ _ _ = (Ok _, _) |- _ =>
        let E1 := fresh "E" in
        apply bind_Ok_inv in E as (? & ? & E1 & E)
    | E : apply_new _ _ _ _ = (Ok _, _) |- _ =>
        apply apply_new_keeps_named in E; [|repeat constructor; assumption]
    | E : ret _ _ = (Ok _, _) |- _ => inversion E; subst; clear E
    | E : (if ?b then _ else _) _ = (Ok _, _) |- _ => destruct b
    end.

Lemma custom_conv3d_named enc t f st nm w t' w' :
  _custom_conv3d enc t f st nm w = (Ok t', w') -> named t -> named t'.
Proof. unfold _custom_conv3d. intros E Ht. keep_named; assumption. Qed.

Lemma build_encoder_named enc t w t' w' :
  _build_encoder_layers enc t w = (Ok t', w') -> named t -> named t'.
Proof.
  unfold _build_encoder_layers. apply for_each_invariant.
  intros acc [i f] u acc' u' E Hacc.
  apply bind_Ok_inv in E as (a1 & u1 & E1 & E).
  eapply custom_conv3d_named; [exact E|].
  eapply custom_conv3d_named; eauto.
Qed.

Lemma custom_conv3dtranspose_named self t f st nm w t' w' :
  _custom_conv3dtranspose self t f st nm w = (Ok t', w') -> named t -> named t'.
Proof. unfold _custom_conv3dtranspose. intros E Ht. keep_named; assumption. Qed.

Lemma build_decoder_named self t w t' w' :
  _build_decoder_layers self t w = (Ok t', w') -> named t -> named t'.
Proof.
  unfold _build_decoder_layers. apply for_each_invariant.
  intros acc [i f] u acc' u' E Hacc.
  apply bind_Ok_inv in E as (a1 & u1 & E1 & E).
  eapply custom_conv3dtranspose_named; [exact E|].
  eapply custom_conv3dtranspose_named; eauto.
Qed.

Lemma build_gmd_named self encoded decoded w out w' :
  _build_gmd_layers self encoded decoded w = (Ok out, w') ->
  named encoded -> named decoded -> named out.
Proof. unfold _build_gmd_layers. intros E He Hd. keep_named; assumption. Qed.

Lemma build_classifier_named self encoded w out w' :
  _build_classifier_layers self encoded w = (Ok out, w') ->
  named encoded -> named out.
Proof.
  unfold _build_classifier_layers. intros E He.
  apply bind_Ok_inv in E as (h & w1 & E1 & E).
  apply apply_new_keeps_named in E1; [|now repeat constructor].
  apply bind_Ok_inv in E as (h' & w2 & E2 & E).
  apply apply_new_keeps_named in E; [assumption|]. repeat constructor.
  revert E2 E1. apply for_each_invariant.
  intros acc n u acc' u' Eb Hacc. keep_named; assumption.
Qed.

Lemma Input_named sh w t w' : Input sh w = (Ok t, w') -> named t.
Proof. unfold Input. intros E. now apply apply_new_keeps_named in E. Qed.

(** ** The two subclasses respect the contract of [NakedModel] *)

Lemma cae_build_layers_inv self w self' w' :
  GaussianMixtureCAE_build_layers self w = (Ok self', w') ->
  exists inp out,
    self' = gm_with_naked self
              (set_output_layer (set_input_layer (gm_naked self) (Some inp)) (Some out))
    /\ named out.
Proof.
  unfold GaussianMixtureCAE_build_layers. destruct (input_shape self) as [[z y] x].
  intros E.
  apply bind_Ok_inv in E as (inp & w1 & Ei & E).
  apply bind_Ok_inv in E as (encoded & w2 & Ee & E).
  apply bind_Ok_inv in E as (decoded & w3 & Ed & E).
  apply bind_Ok_inv in E as (out & w4 & Eg & E).
  inversion E; subst; clear E. exists inp, out. split; [reflexivity|].
  apply Input_named in Ei. apply build_encoder_named in Ee; [|assumption].
  apply build_decoder_named in Ed; [|assumption].
  now apply build_gmd_named in Eg.
Qed.

Lemma lungnet_build_layers_inv self w self' w' :
  LungNet_build_layers self w = (Ok self', w') ->
  exists inp out,
    self' = ln_with_naked self
              (set_output_layer (set_input_layer (ln_naked self) (Some inp)) (Some out))
    /\ named out.
Proof.
  unfold LungNet_build_layers. intros E.
  apply bind_Ok_inv in E as (inp & w1 & Ei & E).
  apply bind_Ok_inv in E as (encoded & w2 & Ee & E).
  apply bind_Ok_inv in E as (out & w3 & Ec & E).
  inversion E; subst; clear E. exists inp, out. split; [reflexivity|].
  apply Input_named in Ei. apply build_encoder_named in Ee; [|assumption].
  now apply build_classifier_named in Ec.
Qed.

#[export] Instance GaussianMixtureCAE_laws : NakedModelLaws GaussianMixtureCAE.
Proof.
  split.
  - reflexivity.
  - intros s s' w w' t E Ho.
    apply cae_build_layers_inv in E as (inp & out & -> & Hn).
    simpl in Ho. now inversion Ho; subst.
  - intros s m Hm.
    exists {| c_optimizer := optimizer (gm_naked s);
              c_loss := _loss (gm_naked s); c_metrics := [] |}.
    intros w. simpl. unfold NakedModel_compile_model, bind.
    simpl in Hm. now rewrite Hm.
Qed.

#[export] Instance LungNet_laws : NakedModelLaws LungNet.
Proof.
  split.
  - reflexivity.
  - intros s s' w w' t E Ho.
    apply lungnet_build_layers_inv in E as (inp & out & -> & Hn).
    simpl in Ho. now inversion Ho; subst.
  - intros s m Hm.
    exists {| c_optimizer := optimizer (ln_naked s);
              c_loss := _loss (ln_naked s); c_metrics := ["accuracy"] |}.
    intros w. simpl. unfold LungNet_compile_model.
    simpl in Hm. now rewrite Hm.
Qed.

(** ** Freezing layers *)

Lemma new_Model_inv inp out w m w' :
  new_Model inp out w = (Ok m, w') ->
  exists i o,
    inp = Some i /\ out = Some o /\ w' = w
    /\ m = {| m_input := i; m_output := o;
              layers := dedup_by_lid [] (tensor_layers o); compiled := None |}
    /\ NoDup (lname <$> layers m) /\ NoDup (lid <$> layers m)
    /\ layers m ⊆ tensor_layers o.
Proof.
  unfold new_Model. destruct inp as [i|], out as [o|]; try discriminate.
  case_bool_decide; [|discriminate].
  destruct (decide (NoDup _)) as [Hn|]; [|discriminate].
  intros E. inversion E; subst; clear E. exists i, o.
  destruct (dedup_by_lid_spec [] (tensor_layers o)) as (Hl & Hs & _).
  repeat split; try assumption. simpl. intros l Hl'. now apply Hs in Hl'.
Qed.

Lemma new_Model_model_ok inp out w m w' :
  new_Model inp out w = (Ok m, w') ->
  (forall o, out = Some o -> named o) ->
  model_ok m.
Proof.
  intros E Hn. apply new_Model_inv in E as (i & o & -> & -> & -> & _ & N1 & N2 & Hs).
  repeat split; try assumption.
  apply Forall_forall. intros l Hl. apply Hs in Hl.
  specialize (Hn o eq_refl). unfold named in Hn.
  rewrite Forall_forall in Hn. now apply Hn.
Qed.

Lemma switched_off_idem l : switched_off (switched_off l) = switched_off l.
Proof. reflexivity. Qed.

Lemma freeze_named_cons nm names l :
  freeze_named (nm :: names) l = freeze_named names (freeze_named [nm] l).
Proof.
  unfold freeze_named.
  destruct (decide (lname l = nm)) as [E|E].
  - rewrite (bool_decide_eq_true_2 (lname l ∈ nm :: names)) by (rewrite E; now left).
    rewrite (bool_decide_eq_true_2 (lname l ∈ [nm])) by (rewrite E; now left).
    simpl. now case_bool_decide.
  - rewrite (bool_decide_eq_false_2 (lname l ∈ [nm]))
      by (intros [?|?%elem_of_nil]%elem_of_cons; [contradiction|assumption]).
    case_bool_decide as H1; case_bool_decide as H2; try reflexivity.
    + apply elem_of_cons in H1 as [?|?]; contradiction.
    + exfalso. apply H1. now right.
Qed.

Lemma frozen_nil m : frozen m [] = m.
Proof.
  destruct m as [i o ls c]. unfold frozen. simpl. f_equal.
  rewrite <- (list_fmap_id ls) at 2. apply list_fmap_ext. intros k l _.
  unfold freeze_named. rewrite bool_decide_eq_false_2; [reflexivity|apply not_elem_of_nil].
Qed.

Lemma frozen_cons m nm names : frozen m (nm :: names) = frozen (frozen m [nm]) names.
Proof.
  unfold frozen. simpl. f_equal. rewrite <- list_fmap_compose.
  apply list_fmap_ext. intros k l _. apply freeze_named_cons.
Qed.

Lemma frozen_model_ok m names : model_ok m -> model_ok (frozen m names).
Proof.
  intros (N1 & N2 & Hf). unfold model_ok, frozen. simpl.
  assert (Hn : lname <$> (freeze_named names <$> layers m) = lname <$> layers m).
  { rewrite <- list_fmap_compose. apply list_fmap_ext. intros k l _.
    unfold freeze_named. simpl. now case_bool_decide. }
  assert (Hi : lid <$> (freeze_named names <$> layers m) = lid <$> layers m).
  { rewrite <- list_fmap_compose. apply list_fmap_ext. intros k l _.
    unfold freeze_named. simpl. now case_bool_decide. }
  rewrite Hn, Hi. repeat split; try assumption.
  apply Forall_fmap. eapply Forall_impl; [exact Hf|].
  intros l Hl. unfold freeze_named. simpl. now case_bool_decide.
Qed.

(** One turn of the loop: the layer called [nm] is found and switched off,
    the others are left alone. *)
Lemma freeze_one m nm :
  model_ok m -> nm ∈ lname <$> layers m ->
  exists l, get_layer m nm = Ok l /\ set_trainable m l false = frozen m [nm].
Proof.
  intros (N1 & N2 & Hf) Hin.
  apply list_elem_of_fmap in Hin as (l0 & -> & Hl0).
  assert (Hne : lname l0 <> "").
  { rewrite Forall_forall in Hf. now apply Hf. }
  destruct (list_find_elem_of (fun l => lname l = lname l0) (layers m) l0 Hl0 eq_refl)
    as [[i l] Efind].
  pose proof Efind as Hfind. apply list_find_Some in Hfind as (Hi & Hnm & _).
  apply list_elem_of_lookup_2 in Hi.
  exists l. split.
  - unfold get_layer. rewrite bool_decide_eq_false_2 by assumption. now rewrite Efind.
  - unfold set_trainable, frozen. f_equal.
    apply list_fmap_ext. intros k l' Hk. apply list_elem_of_lookup_2 in Hk.
    unfold freeze_named.
    case_bool_decide as Hid.
    + assert (l' = l) as -> by (eapply (NoDup_fmap_inj_on lid); eauto).
      rewrite bool_decide_eq_true_2 by (rewrite Hnm; now left). reflexivity.
    + rewrite bool_decide_eq_false_2; [reflexivity|].
      intros [E|E%elem_of_nil]%elem_of_cons; [|assumption].
      apply Hid. f_equal. eapply (NoDup_fmap_inj_on lname); eauto. congruence.
Qed.

Lemma set_model_same (n : NakedModel) m : _model n = Some m -> set_model n (Some m) = n.
Proof. destruct n. simpl. now intros ->. Qed.

Lemma set_model_twice (n : NakedModel) m m' :
  set_model (set_model n m) m' = set_model n m'.
Proof. reflexivity. Qed.

Section Freezing.
Context {Self : Type} `{NakedModelLaws Self}.

Lemma freeze_loop names :
  forall (self : Self) m w,
    _model (base self) = Some m ->
    model_ok m ->
    (forall nm, nm ∈ names -> nm ∈ lname <$> layers m) ->
    exists self' w',
      for_each names freeze_layer self w = (Ok self', w')
      /\ base self' = set_model (base self) (Some (frozen m names))
      /\ events w' = events w ++ freeze_prints names.
Proof.
  induction names as [|nm names IH]; intros self m w Hm Hok Hin.
  - exists self, w. split; [reflexivity|]. split.
    + rewrite frozen_nil. symmetry. now apply set_model_same.
    + simpl. now rewrite app_nil_r.
  - destruct (freeze_one m nm Hok) as (l & Eg & El); [apply Hin; now left|].
    set (self1 := with_base self (set_model (base self) (Some (frozen m [nm])))).
    assert (E1 : freeze_layer self nm w
                 = (Ok self1, logged w [EvPrint (nm +:+ " is set to 0")])).
    { unfold freeze_layer. rewrite Hm, Eg, El. reflexivity. }
    destruct (IH self1 (frozen m [nm]) (logged w [EvPrint (nm +:+ " is set to 0")]))
      as (self' & w' & E & Hb & Hv).
    + unfold self1. now rewrite base_with_base.
    + now apply frozen_model_ok.
    + intros nm' Hnm'. unfold frozen. simpl.
      assert (Hn : lname <$> (freeze_named [nm] <$> layers m) = lname <$> layers m).
      { rewrite <- list_fmap_compose. apply list_fmap_ext. intros k l' _.
        unfold freeze_named. simpl. now case_bool_decide. }
      rewrite Hn. apply Hin. now right.
    + exists self', w'. split; [|split].
      * simpl for_each. now rewrite (bind_Ok _ _ _ _ _ E1).
      * rewrite Hb. unfold self1. rewrite base_with_base, set_model_twice.
        now rewrite <- frozen_cons.
      * rewrite Hv. simpl. now rewrite <- app_assoc.
Qed.


End Freezing.

(** ** Compilation *)

Section FreezingFrame.
Context {Self : Type} `{NakedModelLaws Self}.

(** The loop touches nothing but the model of the object. *)
Lemma freeze_loop_frame names :
  forall (self self' : Self) w w' m,
    for_each names freeze_layer self w = (Ok self', w') ->
    _model (base self) = Some m ->
    exists m', base self' = set_model (base self) (Some m').
Proof.
  induction names as [|nm names IH]; intros self self' w w' m E Hm.
  - inversion E; subst. exists m. symmetry. now apply set_model_same.
  - simpl in E. apply bind_Ok_inv in E as (self1 & w1 & E1 & E).
    unfold freeze_layer in E1. rewrite Hm in E1.
    destruct (get_layer m nm) as [l|]; [|discriminate].
    apply bind_Ok_inv in E1 as ([] & w0 & _ & E1). inversion E1; subst; clear E1.
    eapply IH in E as (m' & Hb); [|rewrite base_with_base; reflexivity].
    exists m'. now rewrite Hb, base_with_base.
Qed.

End FreezingFrame.

(** C2. A [GaussianMixtureCAE] constructed with [input_shape] [(z, y, x)]
    and [m] Gaussians holds the loss [build_gmd_log_likelihood(z*y*x, m)],
    and whenever [build_model] returns, the model it built is compiled with
    that loss and with the optimizer given to the constructor. *)
Theorem compiled_with_gmd_loss (m z y x : Z) (fs : list Z) (ks : Z * Z * Z)
    (pad : string) (bn : bool) (opt : optimizer_arg) (es : Z) (mp wnf : string)
    (hf : Z) (freeze : option (list string)) (w w' : world)
    (self' : GaussianMixtureCAE) :
  let self := GaussianMixtureCAE_init m (z, y, x) fs ks pad bn opt es mp wnf hf in
  build_model self freeze w = (Ok self', w') ->
  _loss (gm_naked self) = Some (build_gmd_log_likelihood (z * y * x) m)
  /\ exists mdl,
       _model (gm_naked self') = Some mdl
       /\ compiled mdl
          = Some {| c_optimizer := opt;
                    c_loss := Some (build_gmd_log_likelihood (z * y * x) m);
                    c_metrics := [] |}.
Proof.
  intros self E. split; [reflexivity|].
  unfold build_model in E.
  apply bind_Ok_inv in E as (self1 & w1 & Eb & E).
  apply cae_build_layers_inv in Eb as (inp & out & -> & _).
  apply bind_Ok_inv in E as (m0 & w2 & Em & E).
  apply bind_Ok_inv in E as (self3 & w3 & El & E).
  set (self2 := with_base _ _) in El.
  assert (Hb : exists m3, base self3 = set_model (base self2) (Some m3)).
  { destruct freeze as [names|].
    - eapply freeze_loop_frame; [exact El|]. reflexivity.
    - inversion El; subst. exists m0. reflexivity. }
  destruct Hb as (m3 & Hb).
  simpl in E. apply bind_Ok_inv in E as (n & w4 & Ec & E).
  inversion E; subst; clear E.
  unfold NakedModel_compile_model in Ec.
  change (gm_naked self3) with (base self3) in Ec. rewrite Hb in Ec.
  simpl in Ec. inversion Ec; subst; clear Ec.
  eexists. split; reflexivity.
Qed.

(** ** LungNet and batch normalization *)

(** C3 fails on the code when batch normalization is switched on: the
    encoder of [LungNet] normalizes along axis 1, the first spatial axis,
    which the input layer [(None, None, None, 1)] leaves unknown; Keras
    refuses to build such a layer, so [build_model] raises [ValueError] and
    the network accepts no input at all. *)
Theorem lungnet_batchnorm_build_fails (fs : list Z) (ks : Z * Z * Z) (pad : string)
    (spp n_dense : list Z) (rate : Q) (opt : optimizer_arg) (es : Z)
    (mp wnf : string) (freeze : option (list string)) (w : world) :
  fs <> [] ->
  exists w',
    build_model (LungNet_init fs ks pad true spp n_dense rate opt es mp wnf) freeze w
    = (Raise ValueError, w')
    /\ events w' = events w.
Proof.
  intros Hfs.
  set (net := LungNet_init fs ks pad true spp n_dense rate opt es mp wnf).
  destruct (Input_ok [None; None; None; Some 1] w) as (l & w1 & Ei & _ & _ & Vi).
  set (inp := Tensor l [] [None; None; None; None; Some 1]) in *.
  destruct (build_encoder_bn_undefined (ln_encoder net) inp w1 None None None 1
              eq_refl eq_refl Hfs) as (w' & Ee & Ve).
  exists w'. split; [|congruence].
  unfold build_model.
  change (_build_layers net) with (LungNet_build_layers net).
  erewrite bind_Raise; [reflexivity|].
  unfold LungNet_build_layers. rewrite (bind_Ok _ _ _ _ _ Ei).
  erewrite bind_Raise; [reflexivity|]. exact Ee.
Qed.

(** Whenever the encoder can be built, the layers it adds are the ones
    [Encoder] prescribes, whatever it is built on. *)
Lemma custom_conv3d_inv enc t f st nm w t' w' :
  _custom_conv3d enc t f st nm w = (Ok t', w') ->
  exists news,
    tensor_layers t' = tensor_layers t ++ news
    /\ sig <$> news = encoder_unit_sigs enc f st nm.
Proof.
  unfold _custom_conv3d, encoder_unit_sigs. intros E.
  apply bind_Ok_inv in E as (t1 & w1 & E1 & E). invert_apply_new E1.
  apply bind_Ok_inv in E as (t2 & w2 & E2 & E).
  destruct (batch_normalization enc).
  - invert_apply_new E2. invert_apply_new E.
    eexists. split; [rewrite !tensor_layers_unary, <- !app_assoc|]; reflexivity.
  - inversion E2; subst; clear E2. invert_apply_new E.
    eexists. split; [rewrite !tensor_layers_unary, <- !app_assoc|]; reflexivity.
Qed.

Lemma build_encoder_inv enc t w t' w' :
  _build_encoder_layers enc t w = (Ok t', w') ->
  exists news,
    tensor_layers t' = tensor_layers t ++ news
    /\ sig <$> news = encoder_sigs_from enc 0 (nb_filters_per_layer enc).
Proof.
  unfold _build_encoder_layers, enumerate.
  generalize 0%nat as i. revert t w.
  induction (nb_filters_per_layer enc) as [|f fs IH]; intros t w i E.
  - inversion E; subst. exists []. now rewrite app_nil_r.
  - simpl in E. apply bind_Ok_inv in E as (t2 & w2 & E12 & E).
    apply bind_Ok_inv in E12 as (t1 & w1 & E1 & E2).
    apply custom_conv3d_inv in E1 as (n1 & L1 & G1).
    apply custom_conv3d_inv in E2 as (n2 & L2 & G2).
    apply IH in E as (n' & L & G).
    exists (n1 ++ n2 ++ n'). split.
    + rewrite L, L2, L1, <- !app_assoc. reflexivity.
    + change (encoder_sigs_from enc i (f :: fs))
        with ((encoder_unit_sigs enc f (1, 1, 1) ("1-2_" +:+ pretty i)
               ++ encoder_unit_sigs enc f (2, 2, 2) ("2-1_" +:+ pretty i))
              ++ encoder_sigs_from enc (S i) fs).
      rewrite !fmap_app, G1, G2, G, <- !app_assoc. reflexivity.
Qed.

(** Two encoders built from equal arguments have layers with the same
    names, classes and constructor arguments, in the same order. *)
Lemma encoder_stack_shared enc t1 w1 e1 w1' t2 w2 e2 w2' :
  _build_encoder_layers enc t1 w1 = (Ok e1, w1') ->
  _build_encoder_layers enc t2 w2 = (Ok e2, w2') ->
  sig <$> layers_since t1 e1 = sig <$> layers_since t2 e2.
Proof.
  intros (n1 & L1 & G1)%build_encoder_inv (n2 & L2 & G2)%build_encoder_inv.
  unfold layers_since. rewrite L1, L2, !drop_app_length. congruence.
Qed.

(** C4 fails on the code when batch normalization is switched on: with
    equal encoder arguments the autoencoder is built, but [LungNet] is not
    ([build_model] raises [ValueError], see C3), so it has no model to load
    the encoder weights into and [load_weights_from_file] raises
    [AttributeError]. *)
Theorem encoder_transfer_fails_with_batchnorm :
  (exists cae w1,
      build_model (example_cae true) None world0 = (Ok cae, w1)
      /\ is_Some (_model (gm_naked cae)))
  /\ (exists w2,
         build_model (example_lungnet true) None world0 = (Raise ValueError, w2))
  /\ load_weights_from_file (example_lungnet true) "weights.hdf5" world0
     = (Raise AttributeError, world0).
Proof.
  split; [|split].
  - eexists _, _. split; [vm_compute; reflexivity|].
    vm_compute. eexists. reflexivity.
  - eexists. vm_compute. reflexivity.
  - reflexivity.
Qed.

(** ** Reconstruction: [predict] on batches *)

Lemma lift_Ok_inv {A} (r : result A) w a w' :
  lift r w = (Ok a, w') -> r = Ok a /\ w' = w.
Proof. destruct r; simpl; intros E; inversion E; auto. Qed.

Lemma broadcast_rev_refl a : broadcast_rev a a = Some a.
Proof.
  induction a as [|x a IH]; [reflexivity|]. simpl. rewrite IH.
  now destruct (decide (x = x)).
Qed.

Lemma broadcast_shapes_refl a : broadcast_shapes a a = Some a.
Proof.
  unfold broadcast_shapes. rewrite broadcast_rev_refl. simpl.
  now rewrite rev_involutive.
Qed.

Lemma broadcast_shapes_nil a : broadcast_shapes [] a = Some a.
Proof. unfold broadcast_shapes. simpl. now rewrite rev_involutive. Qed.

(** A vector of [s] indices does not broadcast against a block of shape
    [(s, z, y, x)]: broadcasting aligns it with the last axis. *)
Lemma broadcast_batch_vector (s z y x : nat) :
  s <> 1%nat -> x <> 1%nat -> s <> x ->
  broadcast_shapes [s; z; y; x] [s] = None.
Proof.
  intros Hs Hx Hsx. unfold broadcast_shapes. simpl.
  destruct (decide (x = s)); [congruence|].
  destruct (decide (x = 1%nat)); [congruence|].
  destruct (decide (s = 1%nat)); [congruence|]. reflexivity.
Qed.

Lemma broadcast_rows (s c1 c2 : nat) sh :
  broadcast_shapes [s; c1] [s; c2] = Some sh -> exists c, sh = [s; c].
Proof.
  unfold broadcast_shapes. simpl.
  destruct (decide (s = s)) as [_|]; [|congruence].
  repeat case_decide; simpl; intros E; inversion E; eauto.
Qed.

Section PredictBatches.
Context {F : Type}.
Variables (f_exp f_sqrt : F -> F) (f_div : F -> F -> F) (f_gt : F -> F -> bool).
Variable forward : Model -> ndarray F -> result (ndarray F).

Lemma np_map2_shape (f : F -> F -> F) a b r :
  np_map2 f a b = Ok r -> broadcast_shapes (nd_shape a) (nd_shape b) = Some (nd_shape r).
Proof.
  unfold np_map2. destruct (broadcast_shapes _ _) as [sh|]; [|discriminate].
  destruct (mapM _ _); [|discriminate]. intros E. now inversion E.
Qed.

Lemma np_argmax_shape (a : ndarray F) r s c :
  np_argmax_axis1 f_gt a = Ok r -> nd_shape a = [s; c] -> nd_shape r = [s].
Proof.
  unfold np_argmax_axis1. intros E Hs. rewrite Hs in E.
  destruct (mapM _ _); [|discriminate]. now inversion E.
Qed.

Lemma np_take_broadcast (a : ndarray F) i1 i2 i3 i4 i5 r :
  np_take a [i1; i2; i3; i4; i5] = Ok r ->
  nd_shape i2 = nd_shape i1 -> nd_shape i3 = nd_shape i1 -> nd_shape i4 = nd_shape i1 ->
  is_Some (broadcast_shapes (nd_shape i1) (nd_shape i5)).
Proof.
  unfold np_take. intros E H2 H3 H4.
  case_decide; [|discriminate]. simpl foldl in E.
  rewrite rev_involutive, H2, H3, H4, !broadcast_shapes_refl in E.
  destruct (broadcast_shapes (nd_shape i1) (nd_shape i5)); [eauto|discriminate].
Qed.

(** C5 fails on the code for batches: [which], one Gaussian per sample, is
  used as an index next to the four index arrays of shape
  [(samples, z, y, x)], and numpy aligns it with the last axis [x] and
  not with the sample axis.  For a batch of more than one sample whose
  [x] size is neither 1 nor the number of samples, [predict] therefore
  never returns: the indexing raises. *)
Theorem predict_fails_on_batches (self : GaussianMixtureCAE) (array : ndarray F)
    (s z y x : nat) (w : world) :
  nd_shape array = [s; z; y; x; 1%nat] ->
  (forall mdl pred, forward mdl array = Ok pred -> exists c, nd_shape pred = [s; c]) ->
  s <> 1%nat -> x <> 1%nat -> s <> x ->
  exists e w',
    GaussianMixtureCAE_predict f_exp f_sqrt f_div f_gt forward self array w
    = (Raise e, w').
Proof.
  intros Hshape Hfw Hs Hx Hsx.
  destruct (GaussianMixtureCAE_predict f_exp f_sqrt f_div f_gt forward self array w)
    as [[r|e] w'] eqn:E; [exfalso|eauto].
  unfold GaussianMixtureCAE_predict in E.
  apply bind_Ok_inv in E as ([] & w0 & _ & E).
  destruct (_model (gm_naked self)) as [mdl|]; [|discriminate].
  apply bind_Ok_inv in E as (pred & w1 & Ep & E).
  unfold keras_predict in Ep. apply bind_Ok_inv in Ep as ([] & w2 & _ & Ep).
  apply lift_Ok_inv in Ep as [Ep _]. apply Hfw in Ep as (c & Hc).
  rewrite Hshape in E.
  apply bind_Ok_inv in E as (parts & w3 & Esplit & E).
  apply lift_Ok_inv in Esplit as [Esplit _].
  unfold np_split_axis1 in Esplit. rewrite Hc in Esplit.
  simpl in Esplit. inversion Esplit; subst parts; clear Esplit.
  apply bind_Ok_inv in E as (mu & w4 & _ & E).
  apply bind_Ok_inv in E as (ratio & w5 & Eratio & E).
  apply lift_Ok_inv in Eratio as [Eratio _].
  apply np_map2_shape in Eratio. simpl in Eratio.
  apply broadcast_rows in Eratio as (c' & Hratio).
  apply bind_Ok_inv in E as (which & w6 & Ewhich & E).
  apply lift_Ok_inv in Ewhich as [Ewhich _].
  apply (np_argmax_shape _ _ _ _ Ewhich) in Hratio.
  simpl in E.
  apply bind_Ok_inv in E as (r' & w7 & Etake & _).
  apply lift_Ok_inv in Etake as [Etake _].
  apply np_take_broadcast in Etake; [|reflexivity..].
  simpl in Etake. rewrite Hratio, broadcast_batch_vector in Etake by assumption.
  now destruct Etake.
Qed.

End PredictBatches.

(** On a batch of two 8x8x8 volumes the default autoencoder's [predict]
    raises [IndexError], whatever numbers the network returns. *)
Lemma predict_batch_of_two_raises {F} (f_exp f_sqrt : F -> F) (f_div : F -> F -> F)
    (f_gt : F -> F -> bool) (v : F) :
  (GaussianMixtureCAE_predict f_exp f_sqrt f_div f_gt (example_forward v)
     (built_cae false) (example_batch v 2) world0).1
  = Raise IndexError.
Proof. vm_compute. reflexivity. Qed.

(** When the [x] size equals the number of samples the indexing succeeds
    and mixes the samples up.  Two volumes of 1x1x2 voxels, two Gaussians;
    the network returns, per sample, two log-priors, two variances and the
    means of the two voxels.  Sample [a] prefers Gaussian 1 and sample [b]
    prefers Gaussian 0, so the reconstruction should be [a01; a11] and
    [b00; b10]; [predict] returns [a01; a10] and [b01; b10]: the voxel at
    [x = k] is taken from the Gaussian that sample number [k] prefers. *)
Lemma predict_mixes_samples {F} (f_exp f_sqrt : F -> F) (f_div : F -> F -> F)
    (f_gt : F -> F -> bool)
    (a_lp0 a_lp1 a_ss0 a_ss1 a00 a01 a10 a11 : F)
    (b_lp0 b_lp1 b_ss0 b_ss1 b00 b01 b10 b11 : F) (v : F) :
  let ratio l s := f_div (f_exp l) (f_sqrt s) in
  let forward (_ : Model) (_ : ndarray F) :=
    Ok {| nd_dtype := "float32"; nd_shape := [2; 8]%nat;
          nd_data := [a_lp0; a_lp1; a_ss0; a_ss1; a00; a01; a10; a11;
                      b_lp0; b_lp1; b_ss0; b_ss1; b00; b01; b10; b11] |} in
  let x := {| nd_dtype := "float32"; nd_shape := [2; 1; 1; 2; 1]%nat;
              nd_data := [v; v; v; v] |} in
  f_gt (ratio a_lp1 a_ss1) (ratio a_lp0 a_ss0) = true ->
  f_gt (ratio b_lp1 b_ss1) (ratio b_lp0 b_ss0) = false ->
  (GaussianMixtureCAE_predict f_exp f_sqrt f_div f_gt forward tiny_cae x world0).1
  = Ok {| nd_dtype := "float32"; nd_shape := [2; 1; 1; 2; 1]%nat;
          nd_data := [a01; a10; b01; b10] |}.
Proof.
  intros ratio forward x Ha Hb. subst ratio. simpl in Ha, Hb.
  vm_compute. rewrite Ha, Hb. reflexivity.
Qed.

(** ** LungNet without batch normalization *)






(** On a single volume [predict] returns the reconstruction its docstring
    describes: here the sample prefers Gaussian 1 and both voxels take
    their mean from it. *)
Lemma predict_single_sample {F} (f_exp f_sqrt : F -> F) (f_div : F -> F -> F)
    (f_gt : F -> F -> bool) (lp0 lp1 ss0 ss1 mu00 mu01 mu10 mu11 : F) (v : F) :
  let ratio l s := f_div (f_exp l) (f_sqrt s) in
  let forward (_ : Model) (_ : ndarray F) :=
    Ok {| nd_dtype := "float32"; nd_shape := [1; 8]%nat;
          nd_data := [lp0; lp1; ss0; ss1; mu00; mu01; mu10; mu11] |} in
  let x := {| nd_dtype := "float32"; nd_shape := [1; 1; 1; 2; 1]%nat;
              nd_data := [v; v] |} in
  f_gt (ratio lp1 ss1) (ratio lp0 ss0) = true ->
  (GaussianMixtureCAE_predict f_exp f_sqrt f_div f_gt forward tiny_cae x world0).1
  = Ok {| nd_dtype := "float32"; nd_shape := [1; 1; 1; 2; 1]%nat;
          nd_data := [mu01; mu11] |}.
Proof.
  intros ratio forward x Ha. subst ratio. simpl in Ha.
  vm_compute. rewrite Ha. reflexivity.
Qed.

(** * The theorems at concrete inputs *)

(** Training the default autoencoder, built for 8x8x8 inputs. *)
Lemma fit_generator_callbacks_witness :
  _model (base (built_cae false)) = Some (model_of (gm_naked (built_cae false)))
  /\ exists args,
       fit_generator (built_cae false) (Generator 0) 100 10 (Generator 1) 20 world0
       = (Ok (KerasHistory (model_of (gm_naked (built_cae false))) args),
          logged world0 [EvMakedir "/tmp/";
                         EvFitGenerator (model_of (gm_naked (built_cae false))) args])
       /\ fa_callbacks args
          = [ ModelCheckpoint "/tmp/weights.{epoch:02d}-{val_loss:.6f}.hdf5"
                              "val_loss" true true;
              EarlyStopping "val_loss" 0 10;
              CSVLogger "/tmp/epoch_log.csv";
              BatchLossCSVLogger "/tmp/batch_log.csv";
              TensorBoard "/tmp/tensorboard" 0 false;
              TerminateOnNaN ].
Proof.
  assert (Hm : _model (base (built_cae false))
               = Some (model_of (gm_naked (built_cae false))))
    by (vm_compute; reflexivity).
  split; [exact Hm|].
  eexists. split.
  - apply (fit_generator_callbacks (built_cae false) _ (Generator 0) (Generator 1)
             100 10 20 world0 Hm).
  - vm_compute. reflexivity.
Defined.

Lemma autoencoder_restores_shape_witness :
  (2 ^ Z.of_nat (length default_filters) | 8)
  /\ exists inp w1 encoded w2 decoded w3,
       Input [Some 8; Some 8; Some 8; Some 1] world0 = (Ok inp, w1)
       /\ _build_encoder_layers (gm_encoder (example_cae false)) inp w1 = (Ok encoded, w2)
       /\ _build_decoder_layers (example_cae false) encoded w2 = (Ok decoded, w3)
       /\ length (List.filter is_conv3d (lclass <$> layers_since inp encoded)) = 6%nat
       /\ int_shape decoded = [None; Some 8; Some 8; Some 8; Some 64].
Proof.
  assert (D : (2 ^ Z.of_nat (length default_filters) | 8)) by (exists 1; reflexivity).
  split; [exact D|].
  destruct (autoencoder_restores_shape 2 8 8 8 default_filters default_kernel false
              (opt_name "adam") 10 "/tmp/" default_weights_name_format 0 world0 D D D)
    as (inp & w1 & encoded & w2 & decoded & w3 & Ei & Ee & Ed & _ & Hn & _ & _ & _ & Hs & _).
  exists inp, w1, encoded, w2, decoded, w3. repeat split; assumption.
Defined.



Lemma compiled_with_gmd_loss_witness :
  build_model (example_cae false) None world0
  = (Ok (built_cae false), (build_model (example_cae false) None world0).2)
  /\ exists mdl,
       _model (gm_naked (built_cae false)) = Some mdl
       /\ compiled mdl
          = Some {| c_optimizer := opt_name "adam";
                    c_loss := Some (build_gmd_log_likelihood (8 * 8 * 8) 2);
                    c_metrics := [] |}.
Proof.
  assert (E : build_model (example_cae false) None world0
              = (Ok (built_cae false), (build_model (example_cae false) None world0).2))
    by (vm_compute; reflexivity).
  split; [exact E|].
  exact (proj2 (compiled_with_gmd_loss 2 8 8 8 default_filters default_kernel "same"
                  false (opt_name "adam") 10 "/tmp/" default_weights_name_format 0
                  None world0 _ (built_cae false) E)).
Defined.

Lemma lungnet_batchnorm_build_fails_witness :
  default_filters <> []
  /\ exists w',
       build_model (example_lungnet true) None world0 = (Raise ValueError, w')
       /\ events w' = events world0.
Proof.
  assert (Hf : default_filters <> []) by discriminate.
  split; [exact Hf|].
  exact (lungnet_batchnorm_build_fails default_filters default_kernel "same"
           [1; 2; 4] [1024; 1024] (1 # 2) (opt_name "adam") 10 "/tmp/"
           default_weights_name_format None world0 Hf).
Defined.

Lemma predict_fails_on_batches_witness :
  nd_shape (example_batch 0%R 2) = [2; 8; 8; 8; 1]%nat
  /\ exists e w',
       GaussianMixtureCAE_predict exp sqrt Rdiv Rgtb (example_forward 0%R)
         (built_cae false) (example_batch 0%R 2) world0
       = (Raise e, w').
Proof.
  split; [reflexivity|].
  apply (predict_fails_on_batches exp sqrt Rdiv Rgtb (example_forward 0%R)
           (built_cae false) (example_batch 0%R 2) 2 8 8 8 world0).
  - reflexivity.
  - intros mdl pred E. inversion E. eexists. reflexivity.
  - lia.
  - lia.
  - lia.
Defined.


(** * More of [model.py] *)

(** ** [build_model] with a name that is not a layer *)


Lemma get_layer_missing m nm :
  nm ∉ lname <$> layers m -> get_layer m nm = Raise ValueError.
Proof.
  intros Hn. unfold get_layer. case_bool_decide; [reflexivity|].
  destruct (list_find _ _) as [[i l]|] eqn:E; [|reflexivity].
  apply list_find_Some in E as (Hi & Hl & _). exfalso. apply Hn.
  rewrite <- Hl. apply list_elem_of_fmap_2. eapply list_elem_of_lookup_2; eauto.
Qed.


Section FreezingErrors.
Context {Self : Type} `{NakedModelLaws Self}.


End FreezingErrors.


(** ** Methods called before [build_model] *)

Section Unbuilt.
Context {F : Type}.
Variables (f_exp f_sqrt : F -> F) (f_div : F -> F -> F) (f_gt : F -> F -> bool).
Variable forward : Model -> ndarray F -> result (ndarray F).

(** X2. The constructors build no network.  On a freshly constructed
    [GaussianMixtureCAE] or [LungNet], [fit_generator] still creates the
    [model_path] directory and then raises [AttributeError];
    [load_weights_from_file] and [summary] raise [AttributeError] and do
    nothing; and the two [predict] methods behave alike: [ValueError] or
    [AttributeError], without invoking a network. *)
Theorem methods_before_build_model (m : Z) (shp : Z * Z * Z) (fs : list Z)
    (ks : Z * Z * Z) (pad : string) (bn : bool) (bins units : list Z) (rate : Q)
    (opt : optimizer_arg) (es : Z) (mp wnf : string) (hf : Z)
    (train validation : generator) (steps epochs vsteps : Z) (path : string)
    (summary_lines : Model -> list string) (x : ndarray F) (w : world) :
  let cae := GaussianMixtureCAE_init m shp fs ks pad bn opt es mp wnf hf in
  let net := LungNet_init fs ks pad bn bins units rate opt es mp wnf in
  fit_generator cae train steps epochs validation vsteps w
    = (Raise AttributeError, logged w [EvMakedir mp])
  /\ fit_generator net train steps epochs validation vsteps w
    = (Raise AttributeError, logged w [EvMakedir mp])
  /\ load_weights_from_file cae path w = (Raise AttributeError, w)
  /\ load_weights_from_file net path w = (Raise AttributeError, w)
  /\ summary summary_lines cae w = (Raise AttributeError, w)
  /\ summary summary_lines net w = (Raise AttributeError, w)
  /\ GaussianMixtureCAE_predict f_exp f_sqrt f_div f_gt forward cae x w
     = LungNet_predict forward net x w
  /\ (LungNet_predict forward net x w = (Raise ValueError, w)
      \/ LungNet_predict forward net x w = (Raise AttributeError, w)).
Proof.
  intros cae net.
  assert (Hc : _model (gm_naked cae) = None).
  { unfold cae, GaussianMixtureCAE_init. now destruct shp as [[z y] x0]. }
  assert (Hpc : model_path (gm_naked cae) = mp).
  { unfold cae, GaussianMixtureCAE_init. now destruct shp as [[z y] x0]. }
  assert (Hn : _model (ln_naked net) = None) by reflexivity.
  assert (Hpn : model_path (ln_naked net) = mp) by reflexivity.
  clearbody cae net.
  assert (Hfit : forall (Self : Type) (C : NakedModelClass Self) (self : Self),
             _model (base self) = None ->
             fit_generator self train steps epochs validation vsteps w
             = (Raise AttributeError, logged w [EvMakedir (model_path (base self))])).
  { intros Self C self Hm. unfold fit_generator, _build_callbacks, makedir.
    unfold bind at 1. unfold bind at 1. rewrite emit_logged.
    unfold ret at 1. now rewrite Hm. }
  split; [|split; [|split; [|split; [|split; [|split; [|split]]]]]].
  - rewrite <- Hpc. now apply Hfit.
  - rewrite <- Hpn. now apply Hfit.
  - unfold load_weights_from_file. change (base cae) with (gm_naked cae). now rewrite Hc.
  - unfold load_weights_from_file. change (base net) with (ln_naked net). now rewrite Hn.
  - unfold summary. change (base cae) with (gm_naked cae). now rewrite Hc.
  - unfold summary. change (base net) with (ln_naked net). now rewrite Hn.
  - unfold GaussianMixtureCAE_predict, LungNet_predict. now rewrite Hc, Hn.
  - unfold LungNet_predict. rewrite Hn.
    destruct (rejected_input_dec x) as [Hbad|Hok].
    + left. now rewrite (bind_Raise _ _ _ _ _ (check_input_array_rejects x w Hbad)).
    + right. now rewrite (bind_Ok _ _ _ _ _ (check_input_array_accepts x w Hok)).
Qed.

End Unbuilt.

(** ** The classifier: compilation and training *)

Lemma Input_inv sh w t w' :
  Input sh w = (Ok t, w') -> int_shape t = None :: sh /\ inbound t = [].
Proof.
  unfold Input, apply_new. intros E.
  apply bind_Ok_inv in E as (l & w1 & El & E).
  unfold new_layer in El.
  apply bind_Ok_inv in El as ([] & w0 & _ & El).
  apply bind_Ok_inv in El as (nm & w2 & _ & El).
  apply bind_Ok_inv in El as (i & w3 & _ & El).
  inversion El; subst; clear El.
  unfold call in E. simpl in E. inversion E. now split.
Qed.

Section FreezingKeeps.
Context {Self : Type} `{NakedModelLaws Self}.

(** The loop changes the [trainable] flags of the model and nothing else. *)
Lemma freeze_loop_keeps names :
  forall (self self' : Self) w w' m,
    for_each names freeze_layer self w = (Ok self', w') ->
    _model (base self) = Some m ->
    exists m',
      base self' = set_model (base self) (Some m')
      /\ m_input m' = m_input m /\ m_output m' = m_output m
      /\ compiled m' = compiled m
      /\ sig <$> layers m' = sig <$> layers m.
Proof.
  induction names as [|nm names IH]; intros self self' w w' m E Hm.
  - inversion E; subst. exists m. split; [|now repeat split].
    symmetry. now apply set_model_same.
  - simpl in E. apply bind_Ok_inv in E as (self1 & w1 & E1 & E).
    unfold freeze_layer in E1. rewrite Hm in E1.
    destruct (get_layer m nm) as [l|]; [|discriminate].
    apply bind_Ok_inv in E1 as ([] & w0 & _ & E1). inversion E1; subst; clear E1.
    eapply IH in E as (m' & Hb & Hi & Ho & Hc & Hl); [|rewrite base_with_base; reflexivity].
    exists m'. rewrite Hb, base_with_base. repeat split; try assumption.
    rewrite Hl. unfold set_trainable. simpl. rewrite <- list_fmap_compose.
    apply list_fmap_ext. intros k l' _. simpl. now case_bool_decide.
Qed.

End FreezingKeeps.

(** X3. Whenever [LungNet.build_model] returns, with or without frozen
    layers, the model is compiled with the loss ['binary_crossentropy'],
    the optimizer given to the constructor and the metric ['accuracy'], and
    its input layer has the shape [(None, None, None, None, 1)]: no
    spatial size is fixed. *)
Theorem lungnet_compiled_for_classification (fs : list Z) (ks : Z * Z * Z)
    (pad : string) (bn : bool) (bins units : list Z) (rate : Q)
    (opt : optimizer_arg) (es : Z) (mp wnf : string)
    (freeze : option (list string)) (w w' : world) (net' : LungNet) :
  let net := LungNet_init fs ks pad bn bins units rate opt es mp wnf in
  build_model net freeze w = (Ok net', w') ->
  exists mdl,
    _model (ln_naked net') = Some mdl
    /\ compiled mdl
       = Some {| c_optimizer := opt;
                 c_loss := Some (loss_name "binary_crossentropy");
                 c_metrics := ["accuracy"] |}
    /\ int_shape (m_input mdl) = [None; None; None; None; Some 1].
Proof.
  intros net E.
  unfold build_model in E.
  apply bind_Ok_inv in E as (self1 & w1 & Eb & E).
  change (_build_layers net) with (LungNet_build_layers net) in Eb.
  unfold LungNet_build_layers in Eb.
  apply bind_Ok_inv in Eb as (inp & v1 & Ei & Eb).
  apply bind_Ok_inv in Eb as (encoded & v2 & _ & Eb).
  apply bind_Ok_inv in Eb as (out & v3 & _ & Eb).
  inversion Eb; subst self1 v3; clear Eb.
  apply Input_inv in Ei as [Si _].
  apply bind_Ok_inv in E as (m0 & w2 & Em & E).
  apply new_Model_inv in Em as (i & o & Hi & _ & _ & Hm0 & _).
  simpl in Hi. injection Hi as <-.
  apply bind_Ok_inv in E as (self3 & w3 & El & E).
  set (self2 := with_base _ _) in El.
  assert (Hb : exists m3, base self3 = set_model (base self2) (Some m3)
                          /\ m_input m3 = m_input m0).
  { destruct freeze as [names|].
    - eapply freeze_loop_keeps in El as (m3 & Hb & Hi & _); [|reflexivity].
      now exists m3.
    - injection El as <- <-. now exists m0. }
  destruct Hb as (m3 & Hb & Hi).
  simpl in E. unfold LungNet_compile_model in E.
  change (ln_naked self3) with (base self3) in E. rewrite Hb in E.
  simpl in E. inversion E; subst net'; clear E.
  eexists. split; [reflexivity|]. simpl. split; [reflexivity|].
  rewrite Hi, Hm0. exact Si.
Qed.

Lemma lungnet_compiled_for_classification_witness :
  build_model (example_lungnet false) None world0
  = (Ok built_lungnet, (build_model (example_lungnet false) None world0).2)
  /\ exists mdl,
       _model (ln_naked built_lungnet) = Some mdl
       /\ compiled mdl
          = Some {| c_optimizer := opt_name "adam";
                    c_loss := Some (loss_name "binary_crossentropy");
                    c_metrics := ["accuracy"] |}
       /\ int_shape (m_input mdl) = [None; None; None; None; Some 1].
Proof.
  assert (E : build_model (example_lungnet false) None world0
              = (Ok built_lungnet, (build_model (example_lungnet false) None world0).2))
    by (vm_compute; reflexivity).
  split; [exact E|].
  exact (lungnet_compiled_for_classification default_filters default_kernel "same"
           false [1; 2; 4] [1024; 1024] (1 # 2) (opt_name "adam") 10 "/tmp/"
           default_weights_name_format None world0 _ built_lungnet E).
Defined.

(** X4. [LungNet.__init__] does not pass [histogram_freq] on, and
    [build_model] leaves the training settings of the object alone: a
    [LungNet] that has been built trains with the checkpoint and log paths
    under the [model_path] of the constructor, the patience of the
    constructor, and a [TensorBoard] callback that never computes
    histograms or gradients. *)
Theorem lungnet_training_callbacks (fs : list Z) (ks : Z * Z * Z)
    (pad : string) (bn : bool) (bins units : list Z) (rate : Q)
    (opt : optimizer_arg) (es : Z) (mp wnf : string)
    (freeze : option (list string)) (w w' : world) (net' : LungNet)
    (train validation : generator) (steps epochs vsteps : Z) (v : world) :
  build_model (LungNet_init fs ks pad bn bins units rate opt es mp wnf) freeze w
  = (Ok net', w') ->
  exists mdl,
    _model (ln_naked net') = Some mdl
    /\ let args :=
         {| fa_generator := train;
            fa_steps_per_epoch := steps;
            fa_epochs := epochs;
            fa_callbacks :=
              [ ModelCheckpoint (path_join mp wnf) "val_loss" true true;
                EarlyStopping "val_loss" 0 es;
                CSVLogger (path_join mp "epoch_log.csv");
                BatchLossCSVLogger (path_join mp "batch_log.csv");
                TensorBoard (path_join mp "tensorboard") 0 false;
                TerminateOnNaN ];
            fa_validation_data := validation;
            fa_validation_steps := vsteps |} in
       fit_generator net' train steps epochs validation vsteps v
       = (Ok (KerasHistory mdl args), logged v [EvMakedir mp; EvFitGenerator mdl args]).
Proof.
  intros E.
  unfold build_model in E.
  apply bind_Ok_inv in E as (self1 & w1 & Eb & E).
  apply lungnet_build_layers_inv in Eb as (inp & out & -> & _).
  apply bind_Ok_inv in E as (m0 & w2 & Em & E).
  apply bind_Ok_inv in E as (self3 & w3 & El & E).
  set (self2 := with_base _ _) in El.
  assert (Hb : exists m3, base self3 = set_model (base self2) (Some m3)).
  { destruct freeze as [names|].
    - eapply freeze_loop_frame; [exact El|]. reflexivity.
    - inversion El; subst. exists m0. reflexivity. }
  destruct Hb as (m3 & Hb).
  simpl in E. unfold LungNet_compile_model in E.
  change (ln_naked self3) with (base self3) in E. rewrite Hb in E.
  simpl in E. inversion E; subst net'; clear E.
  eexists. split; [reflexivity|].
  unfold fit_generator, _build_callbacks, makedir.
  unfold bind at 1. unfold bind at 1. rewrite emit_logged.
  unfold ret at 1. simpl.
  unfold keras_fit_generator, bind, ret. rewrite emit_logged, logged_logged.
  reflexivity.
Qed.

Lemma lungnet_training_callbacks_witness :
  build_model (example_lungnet false) None world0
  = (Ok built_lungnet, (build_model (example_lungnet false) None world0).2)
  /\ exists mdl args,
       fit_generator built_lungnet (Generator 0) 100 10 (Generator 1) 20 world0
       = (Ok (KerasHistory mdl args),
          logged world0 [EvMakedir "/tmp/"; EvFitGenerator mdl args])
       /\ fa_callbacks args
          = [ ModelCheckpoint "/tmp/weights.{epoch:02d}-{val_loss:.6f}.hdf5"
                              "val_loss" true true;
              EarlyStopping "val_loss" 0 10;
              CSVLogger "/tmp/epoch_log.csv";
              BatchLossCSVLogger "/tmp/batch_log.csv";
              TensorBoard "/tmp/tensorboard" 0 false;
              TerminateOnNaN ].
Proof.
  assert (E : build_model (example_lungnet false) None world0
              = (Ok built_lungnet, (build_model (example_lungnet false) None world0).2))
    by (vm_compute; reflexivity).
  split; [exact E|].
  destruct (lungnet_training_callbacks default_filters default_kernel "same"
              false [1; 2; 4] [1024; 1024] (1 # 2) (opt_name "adam") 10 "/tmp/"
              default_weights_name_format None world0 _ built_lungnet
              (Generator 0) (Generator 1) 100 10 20 world0 E) as (mdl & _ & Ef).
  eexists mdl, _. split; [exact Ef|]. vm_compute. reflexivity.
Defined.

(** ** Which layers a model has *)

Lemma created_nil w : created w [] w.
Proof. split; [reflexivity|]. simpl. lia. Qed.

Lemma created_app w a w1 b w2 :
  created w a w1 -> created w1 b w2 -> created w (a ++ b) w2.
Proof.
  intros [La Na] [Lb Nb]. split.
  - rewrite fmap_app, length_app, seq_app, La, Lb, Na. reflexivity.
  - rewrite length_app. lia.
Qed.

Lemma custom_conv3d_created enc t f st nm w t' w' :
  _custom_conv3d enc t f st nm w = (Ok t', w') ->
  exists news,
    tensor_layers t' = tensor_layers t ++ news
    /\ sig <$> news = encoder_unit_sigs enc f st nm
    /\ created w news w'.
Proof.
  unfold _custom_conv3d, encoder_unit_sigs, created. intros E.
  apply bind_Ok_inv in E as (t1 & w1 & E1 & E). invert_apply_new E1.
  apply bind_Ok_inv in E as (t2 & w2 & E2 & E).
  destruct (batch_normalization enc).
  - invert_apply_new E2. invert_apply_new E.
    eexists. split; [rewrite !tensor_layers_unary, <- !app_assoc; reflexivity|].
    split; [reflexivity|]. split; [reflexivity|]. simpl. lia.
  - inversion E2; subst; clear E2. invert_apply_new E.
    eexists. split; [rewrite !tensor_layers_unary, <- !app_assoc; reflexivity|].
    split; [reflexivity|]. split; [reflexivity|]. simpl. lia.
Qed.

Lemma build_encoder_created enc t w t' w' :
  _build_encoder_layers enc t w = (Ok t', w') ->
  exists news,
    tensor_layers t' = tensor_layers t ++ news
    /\ sig <$> news = encoder_sigs_from enc 0 (nb_filters_per_layer enc)
    /\ created w news w'.
Proof.
  unfold _build_encoder_layers, enumerate.
  generalize 0%nat as i. revert t w.
  induction (nb_filters_per_layer enc) as [|f fs IH]; intros t w i E.
  - inversion E; subst. exists []. rewrite app_nil_r.
    split; [reflexivity|]. split; [reflexivity|]. apply created_nil.
  - simpl in E. apply bind_Ok_inv in E as (t2 & w2 & E12 & E).
    apply bind_Ok_inv in E12 as (t1 & w1 & E1 & E2).
    apply custom_conv3d_created in E1 as (n1 & L1 & G1 & C1).
    apply custom_conv3d_created in E2 as (n2 & L2 & G2 & C2).
    apply IH in E as (n' & L & G & C').
    exists (n1 ++ n2 ++ n'). split; [|split].
    + rewrite L, L2, L1, <- !app_assoc. reflexivity.
    + change (encoder_sigs_from enc i (f :: fs))
        with ((encoder_unit_sigs enc f (1, 1, 1) ("1-2_" +:+ pretty i)
               ++ encoder_unit_sigs enc f (2, 2, 2) ("2-1_" +:+ pretty i))
              ++ encoder_sigs_from enc (S i) fs).
      rewrite !fmap_app, G1, G2, G, <- !app_assoc. reflexivity.
    + eapply created_app; [exact C1|]. eapply created_app; eassumption.
Qed.

Lemma custom_conv3dtranspose_created self t f st nm w t' w' :
  _custom_conv3dtranspose self t f st nm w = (Ok t', w') ->
  exists news,
    tensor_layers t' = tensor_layers t ++ news
    /\ sig <$> news = decoder_unit_sigs (gm_encoder self) f st nm
    /\ created w news w'.
Proof.
  unfold _custom_conv3dtranspose, decoder_unit_sigs, created. intros E.
  apply bind_Ok_inv in E as (t1 & w1 & E1 & E). invert_apply_new E1.
  apply bind_Ok_inv in E as (t2 & w2 & E2 & E).
  destruct (batch_normalization (gm_encoder self)).
  - invert_apply_new E2. invert_apply_new E.
    eexists. split; [rewrite !tensor_layers_unary, <- !app_assoc; reflexivity|].
    split; [reflexivity|]. split; [reflexivity|]. simpl. lia.
  - inversion E2; subst; clear E2. invert_apply_new E.
    eexists. split; [rewrite !tensor_layers_unary, <- !app_assoc; reflexivity|].
    split; [reflexivity|]. split; [reflexivity|]. simpl. lia.
Qed.

Lemma build_decoder_created self t w t' w' :
  _build_decoder_layers self t w = (Ok t', w') ->
  exists news,
    tensor_layers t' = tensor_layers t ++ news
    /\ sig <$> news
       = decoder_sigs_from (gm_encoder self) 0 (rev (nb_filters_per_layer (gm_encoder self)))
    /\ created w news w'.
Proof.
  unfold _build_decoder_layers, enumerate.
  generalize 0%nat as i. revert t w.
  induction (rev (nb_filters_per_layer (gm_encoder self))) as [|f fs IH]; intros t w i E.
  - inversion E; subst. exists []. rewrite app_nil_r.
    split; [reflexivity|]. split; [reflexivity|]. apply created_nil.
  - simpl in E. apply bind_Ok_inv in E as (t2 & w2 & E12 & E).
    apply bind_Ok_inv in E12 as (t1 & w1 & E1 & E2).
    apply custom_conv3dtranspose_created in E1 as (n1 & L1 & G1 & C1).
    apply custom_conv3dtranspose_created in E2 as (n2 & L2 & G2 & C2).
    apply IH in E as (n' & L & G & C').
    exists (n1 ++ n2 ++ n'). split; [|split].
    + rewrite L, L2, L1, <- !app_assoc. reflexivity.
    + change (decoder_sigs_from (gm_encoder self) i (f :: fs))
        with ((decoder_unit_sigs (gm_encoder self) f (2, 2, 2) ("2-1_" +:+ pretty i)
               ++ decoder_unit_sigs (gm_encoder self) f (1, 1, 1) ("1-2_" +:+ pretty i))
              ++ decoder_sigs_from (gm_encoder self) (S i) fs).
      rewrite !fmap_app, G1, G2, G, <- !app_assoc. reflexivity.
    + eapply created_app; [exact C1|]. eapply created_app; eassumption.
Qed.

Lemma apply_new_unary_inv c nm t0 w t w' :
  nm <> "" ->
  apply_new c (Some nm) [t0] w = (Ok t, w') ->
  exists l,
    tensor_layers t = tensor_layers t0 ++ [l]
    /\ sig l = (nm, c) /\ lid l = next_id w /\ w' = bump w.
Proof.
  intros Hnm E. apply inversion_apply_new in E as (s & _ & -> & ->); [|assumption].
  eexists. split; [apply tensor_layers_unary|]. now repeat split.
Qed.

Ltac invert_unary E l :=
  apply apply_new_unary_inv in E as (l & ? & ? & ? & ->); [|discriminate].

Lemma build_gmd_created self encoded decoded w out w' :
  _build_gmd_layers self encoded decoded w = (Ok out, w') ->
  exists heads,
    (forall l, l ∈ tensor_layers out
               <-> l ∈ tensor_layers encoded \/ l ∈ tensor_layers decoded \/ l ∈ heads)
    /\ sig <$> heads = head_sigs self
    /\ created w heads w'.
Proof.
  intros E. unfold _build_gmd_layers in E.
  apply bind_Ok_inv in E as (t1 & w1 & E1 & E). invert_unary E1 l1.
  apply bind_Ok_inv in E as (t2 & w2 & E2 & E). invert_unary E2 l2.
  apply bind_Ok_inv in E as (t3 & w3 & E3 & E). invert_unary E3 l3.
  apply bind_Ok_inv in E as (t4 & w4 & E4 & E). invert_unary E4 l4.
  apply bind_Ok_inv in E as (t5 & w5 & E5 & E). invert_unary E5 l5.
  apply bind_Ok_inv in E as (t6 & w6 & E6 & E). invert_unary E6 l6.
  apply bind_Ok_inv in E as (t7 & w7 & E7 & E). invert_unary E7 l7.
  apply bind_Ok_inv in E as (t8 & w8 & E8 & E). invert_unary E8 l8.
  apply bind_Ok_inv in E as (t9 & w9 & E9 & E). invert_unary E9 l9.
  apply bind_Ok_inv in E as (t10 & w10 & E10 & E). invert_unary E10 l10.
  apply bind_Ok_inv in E as (t11 & w11 & E11 & E). invert_unary E11 l11.
  apply inversion_apply_new in E as (s & _ & -> & ->); [|discriminate].
  match goal with
  | |- context [tensor_layers (Tensor ?lg [t4; t11; t6] s)] =>
      set (l12 := lg);
      assert (Tout : tensor_layers (Tensor l12 [t4; t11; t6] s)
                     = tensor_layers t4 ++ tensor_layers t11 ++ tensor_layers t6 ++ [l12])
        by (simpl; rewrite app_nil_r, <- !app_assoc; reflexivity)
  end.
  exists [l1; l2; l3; l4; l5; l6; l7; l8; l9; l10; l11; l12].
  split; [|split; [|split]].
  - intros l. rewrite Tout.
    repeat match goal with
           | H : tensor_layers _ = _ |- _ => rewrite H; clear H
           end.
    rewrite !elem_of_app, !elem_of_cons, !elem_of_nil. tauto.
  - simpl. unfold head_sigs.
    repeat match goal with
           | H : sig _ = _ |- _ => rewrite H; clear H
           end.
    reflexivity.
  - simpl.
    repeat match goal with
           | H : lid _ = _ |- _ => rewrite H; clear H
           end.
    reflexivity.
  - simpl. lia.
Qed.

Lemma Input_created sh w t w' :
  Input sh w = (Ok t, w') ->
  exists l,
    t = Tensor l [] (None :: sh)
    /\ sig l = ("input_" +:+ pretty (S (uid_of w "input")), InputLayer (None :: sh))
    /\ created w [l] w'.
Proof.
  unfold Input, apply_new, new_layer, check_args, get_uid, fresh_id, call, bind, ret.
  simpl. intros E. inversion E; subst; clear E.
  eexists. split; [reflexivity|]. split; [reflexivity|].
  split; [reflexivity|]. simpl. lia.
Qed.

(** The layers of a model, when the layer objects under its output are
    known. *)
Lemma dedup_Permutation (ls universe : list layer) :
  (forall l, l ∈ ls <-> l ∈ universe) ->
  NoDup (lid <$> universe) ->
  dedup_by_lid [] ls ≡ₚ universe.
Proof.
  intros Hl Hu. destruct (dedup_by_lid_spec [] ls) as (N & S1 & S2).
  apply NoDup_Permutation.
  - now apply NoDup_fmap_1 in N.
  - now apply NoDup_fmap_1 in Hu.
  - intros l. split.
    + intros Hin. apply S1 in Hin as [Hin _]. now apply Hl.
    + intros Hin. pose proof Hin as Hin'. apply Hl in Hin'.
      apply S2 in Hin'; [|apply not_elem_of_nil].
      apply list_elem_of_fmap in Hin' as (l' & El & Hl').
      assert (l' = l) as <-; [|assumption].
      apply (NoDup_fmap_inj_on lid universe); auto.
      apply Hl. now apply S1 in Hl'.
Qed.

Lemma NoDup_seq_lids (news : list layer) (i : nat) :
  lid <$> news = seq i (length news) -> NoDup (lid <$> news).
Proof. intros ->. apply NoDup_seq. Qed.

Lemma cae_sigs_names self k :
  NoDup (cae_sigs self k).*1.
Proof.
  unfold cae_sigs. destruct (input_shape self) as [[z y] x].
  rewrite fmap_cons, !fmap_app. simpl fst.
  change ((head_sigs self).*1) with head_names.
  rewrite app_assoc. apply cae_names_NoDup.
Qed.

(** The layer objects under the output of the autoencoder. *)
Lemma cae_build_layers_created self w self1 w1 :
  GaussianMixtureCAE_build_layers self w = (Ok self1, w1) ->
  exists inp out universe,
    self1 = gm_with_naked self
              (set_output_layer (set_input_layer (gm_naked self) (Some inp)) (Some out))
    /\ (forall l, l ∈ tensor_layers out <-> l ∈ universe)
    /\ producer inp ∈ universe
    /\ sig <$> universe = cae_sigs self (uid_of w "input")
    /\ created w universe w1.
Proof.
  unfold GaussianMixtureCAE_build_layers, cae_sigs.
  destruct (input_shape self) as [[z y] x]. intros E.
  apply bind_Ok_inv in E as (inp & v1 & Ei & E).
  apply bind_Ok_inv in E as (encoded & v2 & Ee & E).
  apply bind_Ok_inv in E as (decoded & v3 & Ed & E).
  apply bind_Ok_inv in E as (out & v4 & Eg & E).
  inversion E; subst self1 v4; clear E.
  apply Input_created in Ei as (l & -> & Gi & Ci).
  apply build_encoder_created in Ee as (en & Le & Ge & Ce).
  apply build_decoder_created in Ed as (dn & Ld & Gd & Cd).
  apply build_gmd_created in Eg as (heads & Lo & Gh & Ch).
  simpl in Le. rewrite Le in Ld.
  exists (Tensor l [] [None; Some z; Some y; Some x; Some 1]), out,
         ([l] ++ en ++ dn ++ heads).
  split; [reflexivity|]. split; [|split; [|split]].
  - intros a. rewrite Lo, Ld, Le.
    change ([l] ++ en ++ dn ++ heads) with (l :: en ++ dn ++ heads).
    rewrite !elem_of_cons, !elem_of_app, !elem_of_cons. tauto.
  - simpl. apply list_elem_of_here.
  - rewrite !fmap_app, Ge, Gd, Gh. simpl. now rewrite Gi.
  - eapply created_app; [exact Ci|]. eapply created_app; [exact Ce|].
    eapply created_app; eassumption.
Qed.

Lemma cae_model_accepted self w self1 w1 :
  GaussianMixtureCAE_build_layers self w = (Ok self1, w1) ->
  exists mdl,
    new_Model (_input_layer (gm_naked self1)) (_output_layer (gm_naked self1)) w1
    = (Ok mdl, w1)
    /\ sig <$> layers mdl ≡ₚ cae_sigs self (uid_of w "input")
    /\ compiled mdl = None.
Proof.
  intros E. apply cae_build_layers_created in E
    as (inp & out & universe & -> & Hl & Hi & Gu & [Cu _]).
  eexists. split; [|split].
  - simpl. apply (new_Model_ok inp out universe).
    + now apply Hl.
    + intros l. apply Hl.
    + rewrite (names_of_sigs _ _ Gu). apply cae_sigs_names.
  - simpl. rewrite <- Gu. apply fmap_Permutation.
    apply dedup_Permutation; [exact Hl|]. eapply NoDup_seq_lids; eassumption.
  - reflexivity.
Qed.

(** X5. Whenever [GaussianMixtureCAE._build_layers] returns, the [Model]
    constructor accepts the graph and [build_model()] returns.  The model
    has exactly one layer for each of: the input layer [input_<k+1>]
    ([k] input layers named before in the session), the encoder units, the
    decoder units over the reversed filter list, and the twelve layers of
    the output head, each with the class and arguments [model.py] gives it;
    all layer names differ. *)
Theorem cae_model_layers (self self1 : GaussianMixtureCAE) (w w1 : world) :
  GaussianMixtureCAE_build_layers self w = (Ok self1, w1) ->
  exists self' mdl,
    build_model self None w = (Ok self', w1)
    /\ _model (gm_naked self') = Some mdl
    /\ sig <$> layers mdl ≡ₚ cae_sigs self (uid_of w "input")
    /\ NoDup (lname <$> layers mdl).
Proof.
  intros E. destruct (cae_model_accepted _ _ _ _ E) as (mdl & Em & Hp & Hc).
  eexists _, _. split; [|split; [|split]].
  - unfold build_model.
    change (_build_layers self) with (GaussianMixtureCAE_build_layers self).
    rewrite (bind_Ok _ _ _ _ _ E).
    change (base self1) with (gm_naked self1).
    rewrite (bind_Ok _ _ _ _ _ Em). reflexivity.
  - reflexivity.
  - exact Hp.
  - simpl. apply (fmap_Permutation fst) in Hp.
    rewrite <- list_fmap_compose in Hp. change (fst ∘ sig) with lname in Hp.
    rewrite Hp. apply cae_sigs_names.
Qed.

(** ** The layers of the classifier *)

Lemma apply_new_auto_inv c t0 w t w' :
  apply_new c None [t0] w = (Ok t, w') ->
  exists l,
    tensor_layers t = tensor_layers t0 ++ [l]
    /\ sig l = (class_prefix c +:+ "_" +:+ pretty (S (uid_of w (class_prefix c))), c)
    /\ created w [l] w'
    /\ uids w' = <[class_prefix c := S (uid_of w (class_prefix c))]> (uids w).
Proof.
  unfold apply_new, new_layer. intros E.
  apply bind_Ok_inv in E as (l & w1 & E1 & E2).
  apply bind_Ok_inv in E1 as ([] & w2 & Ec & E1).
  assert (w2 = w) as ->.
  { destruct c; simpl in Ec; try (now inversion Ec);
      destruct (_ || _); now inversion Ec. }
  cbv [bind get_uid fresh_id ret] in E1. simpl in E1.
  inversion E1; subst l w1; clear E1.
  unfold call in E2; simpl in E2.
  destruct (compute_output_shape c _) as [s|e]; [|discriminate].
  inversion E2; subst; clear E2.
  eexists. split; [apply tensor_layers_unary|].
  split; [reflexivity|]. split; [|reflexivity].
  split; [reflexivity|]. simpl. lia.
Qed.

Lemma custom_conv3d_uids enc t f st nm w t' w' :
  _custom_conv3d enc t f st nm w = (Ok t', w') -> uids w' = uids w.
Proof.
  unfold _custom_conv3d. intros E.
  apply bind_Ok_inv in E as (t1 & w1 & E1 & E). invert_apply_new E1.
  apply bind_Ok_inv in E as (t2 & w2 & E2 & E).
  destruct (batch_normalization enc).
  - invert_apply_new E2. invert_apply_new E. reflexivity.
  - inversion E2; subst; clear E2. invert_apply_new E. reflexivity.
Qed.

Lemma build_encoder_uids enc t w t' w' :
  _build_encoder_layers enc t w = (Ok t', w') -> uids w' = uids w.
Proof.
  unfold _build_encoder_layers, enumerate.
  generalize 0%nat as i. revert t w.
  induction (nb_filters_per_layer enc) as [|f fs IH]; intros t w i E.
  - now inversion E.
  - simpl in E. apply bind_Ok_inv in E as (t2 & w2 & E12 & E).
    apply bind_Ok_inv in E12 as (t1 & w1 & E1 & E2).
    apply custom_conv3d_uids in E1, E2. apply IH in E. congruence.
Qed.

Lemma uid_of_insert w w' p q n :
  uids w' = <[p := n]> (uids w) ->
  uid_of w' q = if decide (p = q) then n else uid_of w q.
Proof.
  unfold uid_of. intros ->. destruct (decide (p = q)) as [->|Hne].
  - now rewrite lookup_insert_eq.
  - now rewrite lookup_insert_ne.
Qed.

Lemma dense_stack_created (self : LungNet) :
  forall (nd : list Z) h w h' w',
    for_each nd
      (fun h n =>
         h <- apply_new (Dense n (act_builtin "relu")) None [h] ;;
         if float_truthy (dropout_rate self)
         then apply_new (Dropout (dropout_rate self)) None [h]
         else ret h)
      h w = (Ok h', w') ->
    exists news,
      tensor_layers h' = tensor_layers h ++ news
      /\ sig <$> news
         = dense_stack_sigs (dropout_rate self) (uid_of w "dense") (uid_of w "dropout") nd
      /\ created w news w'
      /\ uid_of w' "dense" = (uid_of w "dense" + length nd)%nat.
Proof.
  induction nd as [|n nd IH]; intros h w h' w' E.
  - inversion E; subst. exists []. rewrite app_nil_r.
    split; [reflexivity|]. split; [reflexivity|]. split; [apply created_nil|].
    simpl. lia.
  - simpl in E. apply bind_Ok_inv in E as (h2 & w2 & E12 & E).
    apply bind_Ok_inv in E12 as (h1 & w1 & E1 & E2).
    apply apply_new_auto_inv in E1 as (l1 & L1 & G1 & C1 & U1).
    simpl class_prefix in G1, U1.
    pose proof (uid_of_insert _ _ _ "dense" _ U1) as Ud1.
    pose proof (uid_of_insert _ _ _ "dropout" _ U1) as Ur1.
    simpl in Ud1, Ur1.
    simpl dense_stack_sigs.
    destruct (float_truthy (dropout_rate self)).
    + apply apply_new_auto_inv in E2 as (l2 & L2 & G2 & C2 & U2).
      simpl class_prefix in G2, U2.
      pose proof (uid_of_insert _ _ _ "dense" _ U2) as Ud2.
      pose proof (uid_of_insert _ _ _ "dropout" _ U2) as Ur2.
      simpl in Ud2, Ur2.
      apply IH in E as (news & L & G & C & Ud).
      exists (l1 :: l2 :: news). split; [|split; [|split]].
      * rewrite L, L2, L1, <- !app_assoc. reflexivity.
      * rewrite !fmap_cons, G1, G2, G, Ud2, Ur2, Ud1, Ur1. reflexivity.
      * apply (created_app w [l1] w1); [exact C1|].
        apply (created_app w1 [l2] w2); assumption.
      * rewrite Ud, Ud2, Ud1. simpl. lia.
    + inversion E2; subst h2 w2; clear E2.
      apply IH in E as (news & L & G & C & Ud).
      exists (l1 :: news). split; [|split; [|split]].
      * rewrite L, L1, <- !app_assoc. reflexivity.
      * rewrite !fmap_cons, G1, G, Ud1, Ur1. reflexivity.
      * apply (created_app w [l1] w1); assumption.
      * rewrite Ud, Ud1. simpl. lia.
Qed.

Lemma build_classifier_created self encoded w out w' :
  _build_classifier_layers self encoded w = (Ok out, w') ->
  exists news,
    tensor_layers out = tensor_layers encoded ++ news
    /\ sig <$> news
       = ("spp3d", SpatialPyramidPooling3D (spp_nb_bins_per_level self))
         :: dense_stack_sigs (dropout_rate self) (uid_of w "dense") (uid_of w "dropout")
              (n_dense self)
         ++ [("dense_" +:+ pretty (S (uid_of w "dense" + length (n_dense self))),
              Dense 1 (act_builtin "sigmoid"))]
    /\ created w news w'.
Proof.
  unfold _build_classifier_layers. intros E.
  apply bind_Ok_inv in E as (h & w1 & E1 & E).
  apply apply_new_unary_inv in E1 as (l1 & L1 & G1 & I1 & ->); [|discriminate].
  apply bind_Ok_inv in E as (h' & w2 & E2 & E).
  apply dense_stack_created in E2 as (news & L2 & G2 & C2 & Ud).
  apply apply_new_auto_inv in E as (l3 & L3 & G3 & C3 & _).
  simpl class_prefix in G3.
  exists (l1 :: news ++ [l3]). split; [|split].
  - rewrite L3, L2, L1, <- !app_assoc. reflexivity.
  - rewrite fmap_cons, fmap_app, G1, G2. simpl. rewrite G3, Ud. reflexivity.
  - apply (created_app w [l1] (bump w)).
    + split; [simpl; now rewrite I1|]. simpl. lia.
    + eapply created_app; eassumption.
Qed.

(** Names of the dense stack. *)
Lemma dense_stack_names rate d r nd nm :
  nm ∈ (dense_stack_sigs rate d r nd).*1 ->
  (exists j, nm = "dense_" +:+ pretty j /\ (d < j <= d + length nd)%nat)
  \/ (exists j, nm = "dropout_" +:+ pretty j /\ (r < j)%nat).
Proof.
  revert d r. induction nd as [|n nd IH]; intros d r; [now intros ?%elem_of_nil|].
  simpl. destruct (float_truthy rate); simpl.
  - intros [->|[->|Hin]%elem_of_cons]%elem_of_cons.
    + left. exists (S d). split; [reflexivity|lia].
    + right. exists (S r). split; [reflexivity|lia].
    + apply IH in Hin as [(j & -> & Hj)|(j & -> & Hj)].
      * left. exists j. split; [reflexivity|lia].
      * right. exists j. split; [reflexivity|lia].
  - intros [->|Hin]%elem_of_cons.
    + left. exists (S d). split; [reflexivity|lia].
    + apply IH in Hin as [(j & -> & Hj)|(j & -> & Hj)].
      * left. exists j. split; [reflexivity|lia].
      * right. exists j. split; [reflexivity|lia].
Qed.

Lemma auto_name_inj (p : string) (i j : nat) : p +:+ pretty i = p +:+ pretty j -> i = j.
Proof. intros E. apply (inj (String.append _)) in E. now apply (inj pretty) in E. Qed.

Lemma dense_stack_NoDup rate d r nd : NoDup (dense_stack_sigs rate d r nd).*1.
Proof.
  revert d r. induction nd as [|n nd IH]; intros d r; [constructor|].
  simpl. destruct (float_truthy rate); simpl.
  - apply NoDup_cons. split; [|apply NoDup_cons; split; [|apply IH]].
    + intros [E|Hin]%elem_of_cons; [discriminate E|].
      apply dense_stack_names in Hin as [(j & E & Hj)|(j & E & Hj)];
        [apply auto_name_inj in E; lia | discriminate E].
    + intros Hin.
      apply dense_stack_names in Hin as [(j & E & Hj)|(j & E & Hj)];
        [discriminate E | apply auto_name_inj in E; lia].
  - apply NoDup_cons. split; [|apply IH].
    intros Hin.
    apply dense_stack_names in Hin as [(j & E & Hj)|(j & E & Hj)];
      [apply auto_name_inj in E; lia | discriminate E].
Qed.

Lemma encoder_name_first_char enc i fs nm :
  nm ∈ (encoder_sigs_from enc i fs).*1 -> first_char nm = Some "e"%char.
Proof.
  rewrite encoder_names. intros (key & -> & Hk)%list_elem_of_fmap.
  apply unit_keys_index in Hk as [_ Hd].
  destruct key as [[[] k] j]; [discriminate Hd|]. now destruct k.
Qed.

Lemma lungnet_sigs_names self k d r : NoDup (lungnet_sigs self k d r).*1.
Proof.
  unfold lungnet_sigs. rewrite fmap_cons, fmap_app, fmap_cons, fmap_app. simpl.
  set (final := "dense_" +:+ pretty (S (d + length (n_dense self)))).
  assert (Hstack : forall nm,
             nm ∈ (dense_stack_sigs (dropout_rate self) d r (n_dense self)).*1 ++ [final] ->
             first_char nm = Some "d"%char).
  { intros nm [Hin|Hin]%elem_of_app.
    - apply dense_stack_names in Hin as [(j & -> & _)|(j & -> & _)]; reflexivity.
    - apply elem_of_cons in Hin as [->|Hin]; [reflexivity|now apply elem_of_nil in Hin]. }
  apply NoDup_cons. split; [|apply NoDup_app; split; [|split]].
  - intros [Hin|[E|Hin]%elem_of_cons]%elem_of_app.
    + apply encoder_name_first_char in Hin. discriminate Hin.
    + discriminate E.
    + apply Hstack in Hin. discriminate Hin.
  - rewrite encoder_names. apply NoDup_fmap_2; [apply unit_name_inj|].
    apply unit_keys_NoDup, encoder_kinds_NoDup.
  - intros nm He [->|Hin]%elem_of_cons; apply encoder_name_first_char in He.
    + discriminate He.
    + apply Hstack in Hin. congruence.
  - apply NoDup_cons. split.
    + intros Hin. apply Hstack in Hin. discriminate Hin.
    + apply NoDup_app. split; [apply dense_stack_NoDup|]. split.
      * intros nm Hin [->|Hf]%elem_of_cons; [|now apply elem_of_nil in Hf].
        apply dense_stack_names in Hin as [(j & E & Hj)|(j & E & Hj)];
          [apply auto_name_inj in E; lia | discriminate E].
      * apply NoDup_singleton.
Qed.

Lemma dedup_NoDup_id (ls : list layer) :
  NoDup (lid <$> ls) -> dedup_by_lid [] ls = ls.
Proof.
  assert (G : forall seen, NoDup (lid <$> ls) ->
                (forall l, l ∈ ls -> lid l ∉ seen) -> dedup_by_lid seen ls = ls).
  { induction ls as [|a ls IH]; intros seen N Hs; [reflexivity|].
    simpl. rewrite fmap_cons in N. apply NoDup_cons in N as [Ha N].
    rewrite bool_decide_eq_false_2 by (apply Hs; now left).
    f_equal. apply IH; [exact N|].
    intros l Hl [E|Hin]%elem_of_cons.
    - apply Ha. rewrite <- E. now apply list_elem_of_fmap_2.
    - revert Hin. apply Hs. now right. }
  intros N. apply G; [exact N|]. intros l _. apply not_elem_of_nil.
Qed.

Lemma Input_uids sh w t w' :
  Input sh w = (Ok t, w') -> uids w' = <["input" := S (uid_of w "input")]> (uids w).
Proof.
  unfold Input, apply_new, new_layer, check_args, get_uid, fresh_id, call, bind, ret.
  simpl. intros E. now inversion E.
Qed.

Lemma lungnet_build_layers_created self w self1 w1 :
  LungNet_build_layers self w = (Ok self1, w1) ->
  exists inp out,
    self1 = ln_with_naked self
              (set_output_layer (set_input_layer (ln_naked self) (Some inp)) (Some out))
    /\ producer inp ∈ tensor_layers out
    /\ sig <$> tensor_layers out
       = lungnet_sigs self (uid_of w "input") (uid_of w "dense") (uid_of w "dropout")
    /\ created w (tensor_layers out) w1.
Proof.
  unfold LungNet_build_layers, lungnet_sigs. intros E.
  apply bind_Ok_inv in E as (inp & v1 & Ei & E).
  apply bind_Ok_inv in E as (encoded & v2 & Ee & E).
  apply bind_Ok_inv in E as (out & v3 & Ec & E).
  inversion E; subst self1 v3; clear E.
  pose proof (Input_uids _ _ _ _ Ei) as Ui.
  pose proof (uid_of_insert _ _ _ "dense" _ Ui) as Ud.
  pose proof (uid_of_insert _ _ _ "dropout" _ Ui) as Ur.
  simpl in Ud, Ur.
  apply Input_created in Ei as (l & -> & Gi & Ci).
  pose proof (build_encoder_uids _ _ _ _ _ Ee) as Ue.
  apply build_encoder_created in Ee as (en & Le & Ge & Ce).
  apply build_classifier_created in Ec as (cn & Lc & Gc & Cc).
  unfold uid_of in Gc. rewrite Ue in Gc. fold (uid_of v1 "dense") in Gc.
  fold (uid_of v1 "dropout") in Gc. rewrite Ud, Ur in Gc.
  simpl in Le. rewrite Le in Lc.
  exists (Tensor l [] [None; None; None; None; Some 1]), out.
  split; [reflexivity|]. rewrite Lc. split; [|split].
  - simpl. apply list_elem_of_here.
  - rewrite fmap_app, fmap_cons, Ge, Gc, Gi. reflexivity.
  - change ((l :: en) ++ cn) with ([l] ++ en ++ cn).
    eapply created_app; [exact Ci|]. eapply created_app; eassumption.
Qed.

Lemma lungnet_model_accepted self w self1 w1 :
  LungNet_build_layers self w = (Ok self1, w1) ->
  exists mdl,
    new_Model (_input_layer (ln_naked self1)) (_output_layer (ln_naked self1)) w1
    = (Ok mdl, w1)
    /\ sig <$> layers mdl
       = lungnet_sigs self (uid_of w "input") (uid_of w "dense") (uid_of w "dropout")
    /\ compiled mdl = None.
Proof.
  intros E. apply lungnet_build_layers_created in E
    as (inp & out & -> & Hi & Gu & [Cu _]).
  eexists. split; [|split].
  - simpl. apply (new_Model_ok inp out (tensor_layers out)).
    + exact Hi.
    + reflexivity.
    + rewrite (names_of_sigs _ _ Gu). apply lungnet_sigs_names.
  - simpl. rewrite dedup_NoDup_id; [exact Gu|]. eapply NoDup_seq_lids; eassumption.
  - reflexivity.
Qed.

(** X6. Whenever [LungNet._build_layers] returns, [build_model()] returns
    and the layers of the model are, in this order: the input layer, the
    encoder units, the pooling layer [spp3d], for each entry [n] of
    [n_dense] a [Dense(n, relu)] followed by a [Dropout] exactly when
    [dropout_rate] is not zero, and a final [Dense(1, sigmoid)].  The dense
    and dropout layers carry the automatic names [dense_<i>] and
    [dropout_<i>], numbered on from the layers named before in the
    session; all layer names differ. *)
Theorem lungnet_model_layers (self self1 : LungNet) (w w1 : world) :
  LungNet_build_layers self w = (Ok self1, w1) ->
  exists self' mdl,
    build_model self None w = (Ok self', w1)
    /\ _model (ln_naked self') = Some mdl
    /\ sig <$> layers mdl
       = lungnet_sigs self (uid_of w "input") (uid_of w "dense") (uid_of w "dropout")
    /\ NoDup (lname <$> layers mdl).
Proof.
  intros E. destruct (lungnet_model_accepted _ _ _ _ E) as (mdl & Em & Hp & Hc).
  eexists _, _. split; [|split; [|split]].
  - unfold build_model.
    change (_build_layers self) with (LungNet_build_layers self).
    rewrite (bind_Ok _ _ _ _ _ E).
    change (base self1) with (ln_naked self1).
    rewrite (bind_Ok _ _ _ _ _ Em). reflexivity.
  - reflexivity.
  - exact Hp.
  - simpl. rewrite (names_of_sigs _ _ Hp). apply lungnet_sigs_names.
Qed.

(** ** The width of the autoencoder output, padding ['same'] *)

Lemma encoder_block_same_any k d :
  encoder_block_dim "same" k (Some d) = Some ((d + 1) / 2).
Proof.
  unfold encoder_block_dim. rewrite conv_same_stride1.
  unfold conv_output_length. rewrite bool_decide_eq_true_2 by reflexivity.
  f_equal. f_equal. lia.
Qed.

Lemma encoder_dims_same_any n k d :
  Nat.iter n (encoder_block_dim "same" k) (Some d)
  = Some ((d + 2 ^ Z.of_nat n - 1) / 2 ^ Z.of_nat n).
Proof.
  revert d. induction n as [|n IH]; intros d.
  - simpl. f_equal. rewrite Z.div_1_r. lia.
  - rewrite Nat.iter_succ_r, encoder_block_same_any, IH. f_equal.
    rewrite Nat2Z.inj_succ, Z.pow_succ_r by lia.
    set (p := 2 ^ Z.of_nat n). assert (Hp : 0 < p) by (apply Z.pow_pos_nonneg; lia).
    replace ((d + 1) / 2 + p - 1) with ((d + 1 + (p - 1) * 2) / 2)
      by (rewrite Z.div_add by lia; lia).
    rewrite Z.div_div by lia. f_equal. lia.
Qed.

Lemma round_up_spec n d :
  d <= round_up n d < d + 2 ^ Z.of_nat n
  /\ (round_up n d = d <-> (2 ^ Z.of_nat n | d)).
Proof.
  unfold round_up. set (p := 2 ^ Z.of_nat n).
  assert (Hp : 0 < p) by (apply Z.pow_pos_nonneg; lia).
  pose proof (Z.div_mod (d + p - 1) p ltac:(lia)) as Hdm.
  pose proof (Z.mod_pos_bound (d + p - 1) p Hp) as Hb.
  split; [lia|]. split.
  - intros E. exists ((d + p - 1) / p). lia.
  - intros [q ->]. replace (q * p + p - 1) with ((p - 1) + q * p) by ring.
    rewrite Z.div_add by lia. rewrite Z.div_small by lia. lia.
Qed.

Lemma product_of_larger (a b c z y x : Z) :
  0 < z -> 0 < y -> 0 < x -> z <= a -> y <= b -> x <= c ->
  a * b * c = z * y * x -> a = z /\ b = y /\ c = x.
Proof.
  intros Hz Hy Hx Ha Hb Hc E.
  assert (H1 : z * y * x <= a * y * x) by nia.
  assert (H2 : a * y * x <= a * b * x) by nia.
  assert (H3 : a * b * x <= a * b * c) by nia.
  assert (E1 : z * y * x = a * y * x) by lia.
  assert (E2 : a * y * x = a * b * x) by lia.
  assert (E3 : a * b * x = a * b * c) by lia.
  repeat split; nia.
Qed.

(** X8. With padding ['same'] and positive [m], [z], [y], [x],
    [build_model()] returns for every number [n] of encoder blocks, and the
    output has [2*m + Z*Y*X*m] columns where [Z], [Y], [X] are [z], [y],
    [x] rounded up to multiples of [2^n].  The network therefore produces
    the [z*y*x] voxels the loss was built for exactly when [2^n] divides
    [z], [y] and [x]. *)
Theorem cae_output_width_same (m z y x : Z) (fs : list Z) (ks : Z * Z * Z)
    (bn : bool) (opt : optimizer_arg) (es : Z) (mp wnf : string) (hf : Z) (w : world) :
  let self := GaussianMixtureCAE_init m (z, y, x) fs ks "same" bn opt es mp wnf hf in
  let n := length fs in
  let voxels := round_up n z * round_up n y * round_up n x in
  0 < m -> 0 < z -> 0 < y -> 0 < x ->
  exists self' w' mdl,
    build_model self None w = (Ok self', w')
    /\ _model (gm_naked self') = Some mdl
    /\ int_shape (m_output mdl) = [None; Some (2 * m + voxels * m)]
    /\ (voxels = z * y * x
        <-> (2 ^ Z.of_nat n | z) /\ (2 ^ Z.of_nat n | y) /\ (2 ^ Z.of_nat n | x)).
Proof.
  intros self n voxels Hm Hz Hy Hx.
  destruct (round_up_spec n z) as [Bz Dz], (round_up_spec n y) as [By Dy],
    (round_up_spec n x) as [Bx Dx].
  set (enc := gm_encoder self).
  destruct (Input_ok [Some z; Some y; Some x; Some 1] w)
    as (l & w1 & Ei & _ & _ & Vi).
  set (inp := Tensor l [] [None; Some z; Some y; Some x; Some 1]) in *.
  destruct (build_encoder_ok enc inp w1 None (Some z) (Some y) (Some x) 1
              (same_padding_ok enc eq_refl) eq_refl (fun _ _ => eq_refl))
    as (encoded & w2 & Ee & Se & _ & Ve).
  change (padding enc) with "same" in Se.
  change (nb_filters_per_layer enc) with fs in Se. fold n in Se.
  rewrite !encoder_dims_same_any in Se.
  destruct (build_decoder_ok self encoded w2 None _ _ _ _
              (same_padding_ok enc eq_refl) Se (fun _ _ => eq_refl))
    as (decoded & w3 & Ed & Sd & _ & Vd).
  change (padding (gm_encoder self)) with "same" in Sd.
  change (nb_filters_per_layer (gm_encoder self)) with fs in Sd. fold n in Sd.
  rewrite !decoder_dims_same in Sd.
  fold (round_up n z) in Sd. fold (round_up n y) in Sd. fold (round_up n x) in Sd.
  assert (Hp : 0 < 2 ^ Z.of_nat n) by (apply Z.pow_pos_nonneg; lia).
  destruct (build_gmd_layers_ok self encoded decoded w3 None _ _ _ _ _ _ _ _ Se Sd)
    as (out & w' & Eg & Hg & Vg); try (unfold round_up in *; nia); try discriminate.
  { change (n_gaussians self) with m. lia. }
  assert (Eb : GaussianMixtureCAE_build_layers self w
               = (Ok (gm_with_naked self
                        (set_output_layer (set_input_layer (gm_naked self) (Some inp))
                           (Some out))), w')).
  { unfold GaussianMixtureCAE_build_layers.
    change (input_shape self) with (z, y, x). cbv beta iota.
    rewrite (bind_Ok _ _ _ _ _ Ei).
    change (gm_encoder (gm_with_naked self _)) with (gm_encoder self).
    rewrite (bind_Ok _ _ _ _ _ Ee).
    erewrite (bind_Ok (_build_decoder_layers _ _)); [| exact Ed].
    erewrite (bind_Ok (_build_gmd_layers _ _ _)); [| exact Eg].
    reflexivity. }
  destruct (cae_model_accepted _ _ _ _ Eb) as (mdl & Em & _ & _).
  pose proof Em as Em'. apply new_Model_inv in Em' as (i & o & _ & Ho & _ & Hmdl & _).
  simpl in Ho. injection Ho as <-.
  eexists _, w', _. split; [|split; [|split]].
  - unfold build_model.
    change (_build_layers self) with (GaussianMixtureCAE_build_layers self).
    rewrite (bind_Ok _ _ _ _ _ Eb).
    change (base ?s) with (gm_naked s).
    rewrite (bind_Ok _ _ _ _ _ Em). reflexivity.
  - reflexivity.
  - simpl. rewrite Hmdl. simpl.
    rewrite (gmd_head_shape _ _ _ _ _ _ Hg). reflexivity.
  - split.
    + intros E. apply product_of_larger in E as (E1 & E2 & E3); try lia.
      repeat split; [apply Dz | apply Dy | apply Dx]; assumption.
    + intros (H1 & H2 & H3). unfold voxels.
      apply Dz in H1. apply Dy in H2. apply Dx in H3. now rewrite H1, H2, H3.
Qed.

(** ** The width of the output head, whatever it is built on *)

Lemma conv_same_stride1_dim (d : dim) k : conv_output_length d k "same" 1 = d.
Proof. destruct d as [d|]; [apply conv_same_stride1|reflexivity]. Qed.

Lemma conv3d_same_stride1_inv f ks s s' :
  compute_output_shape (Conv3D f ks (1, 1, 1) "same") [s] = Ok s' ->
  exists b d1 d2 d3 c, s = [b; d1; d2; d3; Some c] /\ s' = [b; d1; d2; d3; Some f].
Proof.
  destruct ks as [[k1 k2] k3]. unfold compute_output_shape, conv3d_shape.
  destruct s as [|b [|d1 [|d2 [|d3 [|[c|] [|? ?]]]]]]; try discriminate.
  simpl. rewrite !conv_same_stride1_dim. intros [= <-]. now exists b, d1, d2, d3, c.
Qed.

Lemma truthy_inv d : truthy d = true -> exists a, d = Some a /\ a <> 0.
Proof.
  destruct d as [a|]; [|discriminate]. simpl. intros Ha. exists a. split; [reflexivity|].
  intros ->. discriminate Ha.
Qed.

Lemma flatten_inv b d1 d2 d3 d4 s' :
  compute_output_shape Flatten [[b; d1; d2; d3; d4]] = Ok s' ->
  exists a1 a2 a3 a4,
    d1 = Some a1 /\ d2 = Some a2 /\ d3 = Some a3 /\ d4 = Some a4
    /\ a1 <> 0 /\ a2 <> 0 /\ a3 <> 0 /\ a4 <> 0
    /\ s' = [b; Some (a1 * a2 * a3 * a4)].
Proof.
  intros E.
  destruct (truthy d1) eqn:T1; [|simpl in E; rewrite T1 in E; discriminate E].
  destruct (truthy d2) eqn:T2;
    [|simpl in E; rewrite T1, T2 in E; discriminate E].
  destruct (truthy d3) eqn:T3;
    [|simpl in E; rewrite T1, T2, T3 in E; discriminate E].
  destruct (truthy d4) eqn:T4;
    [|simpl in E; rewrite T1, T2, T3, T4 in E; discriminate E].
  apply truthy_inv in T1 as (a1 & -> & H1), T2 as (a2 & -> & H2),
    T3 as (a3 & -> & H3), T4 as (a4 & -> & H4).
  rewrite flatten_shape in E by assumption. injection E as <-.
  exists a1, a2, a3, a4. now repeat split.
Qed.

Lemma dense_inv units act b d s' :
  compute_output_shape (Dense units act) [[b; Some d]] = Ok s' ->
  d <> 0 /\ s' = [b; Some units].
Proof.
  intros E. destruct (decide (d = 0)) as [->|Hd].
  - discriminate E.
  - rewrite dense_shape in E by assumption. injection E as <-. now split.
Qed.

Lemma concat_last_axis_inv b1 m1 b2 m2 b3 m3 s :
  concat_shape (-1) [[b1; Some m1]; [b2; Some m2]; [b3; Some m3]] = Ok s ->
  b2 = b1 /\ b3 = b1 /\ s = [b1; Some (m1 + m2 + m3)].
Proof.
  unfold concat_shape. simpl length.
  change (py_pos 2 (-1)) with (Some 1%nat). cbv beta iota.
  simpl forallb.
  case_bool_decide as H2; [|discriminate]. case_bool_decide as H3; [|discriminate].
  destruct H2 as [_ H2], H3 as [_ H3]. simpl in H2, H3.
  injection H2 as ->. injection H3 as ->.
  simpl. intros [= <-]. now repeat split.
Qed.

Ltac shape_of H :=
  match type of H with
  | compute_output_shape _ (int_shape <$> [Tensor ?l ?i ?s]) = _ =>
      change (int_shape <$> [Tensor l i s]) with [s] in H
  | compute_output_shape _ (int_shape <$> [?t]) = _ =>
      change (int_shape <$> [t]) with [int_shape t] in H
  end.

(** X9. Whenever [_build_gmd_layers] returns, the tensor [decoded] it was
    given has a fully known, nowhere zero spatial shape [(D1, D2, D3)], the
    number [m] of Gaussians is not zero, and the output has
    [2*m + D1*D2*D3*m] columns: [m] log-priors, [m] variances and one mean
    per Gaussian and voxel of [decoded]. *)
Theorem gmd_head_width (self : GaussianMixtureCAE) (encoded decoded out : tensor)
    (w w' : world) :
  _build_gmd_layers self encoded decoded w = (Ok out, w') ->
  exists b D1 D2 D3 c,
    int_shape decoded = [b; Some D1; Some D2; Some D3; Some c]
    /\ D1 <> 0 /\ D2 <> 0 /\ D3 <> 0 /\ n_gaussians self <> 0
    /\ int_shape out
       = [b; Some (2 * n_gaussians self + D1 * D2 * D3 * n_gaussians self)].
Proof.
  intros E. unfold _build_gmd_layers in E.
  apply bind_Ok_inv in E as (t1 & w1 & E1 & E).
  apply inversion_apply_new in E1 as (s1 & S1 & -> & ->); [|discriminate].
  apply bind_Ok_inv in E as (t2 & w2 & E2 & E).
  apply inversion_apply_new in E2 as (s2 & S2 & -> & ->); [|discriminate].
  apply bind_Ok_inv in E as (t3 & w3 & E3 & E).
  apply inversion_apply_new in E3 as (s3 & S3 & -> & ->); [|discriminate].
  apply bind_Ok_inv in E as (t4 & w4 & E4 & E).
  apply inversion_apply_new in E4 as (s4 & S4 & -> & ->); [|discriminate].
  apply bind_Ok_inv in E as (t5 & w5 & E5 & E).
  apply inversion_apply_new in E5 as (s5 & S5 & -> & ->); [|discriminate].
  apply bind_Ok_inv in E as (t6 & w6 & E6 & E).
  apply inversion_apply_new in E6 as (s6 & S6 & -> & ->); [|discriminate].
  apply bind_Ok_inv in E as (t7 & w7 & E7 & E).
  apply inversion_apply_new in E7 as (s7 & S7 & -> & ->); [|discriminate].
  apply bind_Ok_inv in E as (t8 & w8 & E8 & E).
  apply inversion_apply_new in E8 as (s8 & S8 & -> & ->); [|discriminate].
  apply bind_Ok_inv in E as (t9 & w9 & E9 & E).
  apply inversion_apply_new in E9 as (s9 & S9 & -> & ->); [|discriminate].
  apply bind_Ok_inv in E as (t10 & w10 & E10 & E).
  apply inversion_apply_new in E10 as (s10 & S10 & -> & ->); [|discriminate].
  apply bind_Ok_inv in E as (t11 & w11 & E11 & E).
  apply inversion_apply_new in E11 as (s11 & S11 & -> & ->); [|discriminate].
  apply inversion_apply_new in E as (s12 & S12 & -> & _); [|discriminate].
  shape_of S1. shape_of S2. shape_of S3. shape_of S4. shape_of S5. shape_of S6.
  shape_of S7. shape_of S8. shape_of S9. shape_of S10. shape_of S11.
  change (int_shape <$> [Tensor ?l1 ?i1 s4; Tensor ?l2 ?i2 s11; Tensor ?l3 ?i3 s6])
    with [s4; s11; s6] in S12.
  (* log-priors *)
  apply conv3d_same_stride1_inv in S1 as (b & e1 & e2 & e3 & ce & He & ->).
  apply flatten_inv in S2 as (a1 & a2 & a3 & a4 & -> & -> & -> & _ & _ & _ & _ & _ & ->).
  apply dense_inv in S3 as [_ ->]. apply dense_inv in S4 as [_ ->].
  (* means *)
  apply conv3d_same_stride1_inv in S5 as (b' & d1 & d2 & d3 & cd & Hd & ->).
  apply flatten_inv in S6 as (D1 & D2 & D3 & m' & -> & -> & -> & Hm & N1 & N2 & N3 & Nm & ->).
  injection Hm as <-.
  (* variances *)
  rewrite He in S7.
  apply conv3d_same_stride1_inv in S7 as (b7 & ? & ? & ? & ? & H7 & ->).
  injection H7 as <- <- <- <- _.
  apply flatten_inv in S8 as (? & ? & ? & ? & _ & _ & _ & _ & _ & _ & _ & _ & ->).
  apply dense_inv in S9 as [_ ->]. apply dense_inv in S10 as [_ ->].
  simpl in S11. injection S11 as <-.
  simpl in S12. apply concat_last_axis_inv in S12 as (_ & -> & ->).
  exists b, D1, D2, D3, cd. repeat split; try assumption.
  simpl. do 2 f_equal. f_equal. ring.
Qed.

(** ** The encoder is shared *)




(** ** [predict] on a single volume *)

Section RowMajor.
Local Open Scope nat_scope.

Lemma size_cons d sh : size (d :: sh) = d * size sh.
Proof. reflexivity. Qed.

Lemma unravel_length sh off : length (unravel sh off) = length sh.
Proof. revert off. induction sh as [|d sh IH]; intros off; simpl; [|rewrite IH]; reflexivity. Qed.

(** The coordinates of an offset lie inside the shape. *)
Lemma unravel_bounds sh off :
  off < size sh -> Forall2 (fun i d => i < d) (unravel sh off) sh.
Proof.
  revert off. induction sh as [|d sh IH]; intros off Hoff; [constructor|].
  rewrite size_cons in Hoff.
  assert (Hs : size sh <> 0) by (intros E; rewrite E in Hoff; lia).
  simpl. constructor.
  - apply Nat.Div0.div_lt_upper_bound. lia.
  - apply IH. now apply Nat.mod_upper_bound.
Qed.

(** Offsets and coordinates: a round trip. *)
Lemma ravel_unravel_from sh : forall acc off,
  off < size sh ->
  foldl (fun acc (di : nat * nat) => acc * di.1 + di.2) acc (zip sh (unravel sh off))
  = acc * size sh + off.
Proof.
  induction sh as [|d sh IH]; intros acc off Hoff.
  - simpl in *. lia.
  - rewrite size_cons in *.
    assert (Hs : size sh <> 0) by (intros E; rewrite E in Hoff; lia).
    simpl. rewrite IH by (now apply Nat.mod_upper_bound).
    pose proof (Nat.div_mod_eq off (size sh)). nia.
Qed.

Lemma ravel_unravel sh off : off < size sh -> ravel sh (unravel sh off) = off.
Proof. intros H. unfold ravel. rewrite ravel_unravel_from by assumption. lia. Qed.

Lemma ravel_snoc sh idx d i :
  length idx = length sh -> ravel (sh ++ [d]) (idx ++ [i]) = ravel sh idx * d + i.
Proof.
  intros Hl. unfold ravel. rewrite zip_with_app by (now symmetry).
  rewrite foldl_app. reflexivity.
Qed.

(** An operand that has the shape of the result is read where the result
    is written. *)
Lemma broadcast_index_same sh idx :
  Forall2 (fun i d => i < d) idx sh -> broadcast_index sh idx = idx.
Proof.
  intros H. unfold broadcast_index.
  rewrite (Forall2_length _ _ _ H), Nat.sub_diag, drop_0.
  induction H as [|i d idx sh Hi H IH]; [reflexivity|].
  simpl. rewrite IH. destruct (decide (d = 1)); [f_equal; lia|reflexivity].
Qed.

Lemma nd_get_unravel {A} (a : ndarray A) off :
  off < size (nd_shape a) ->
  nd_get a (broadcast_index (nd_shape a) (unravel (nd_shape a) off)) = nd_data a !! off.
Proof.
  intros H. unfold nd_get.
  rewrite broadcast_index_same by (now apply unravel_bounds).
  now rewrite ravel_unravel.
Qed.

Lemma mapM_seq {B} (g : nat -> option B) (l : list B) :
  (forall i, i < length l -> g i = l !! i) ->
  mapM g (seq 0 (length l)) = Some l.
Proof.
  intros H. apply mapM_Some_2. apply Forall2_same_length_lookup_2.
  - now rewrite length_seq.
  - intros i x y Hx Hy. apply lookup_seq in Hx as [-> Hi]. simpl.
    rewrite H by assumption. exact Hy.
Qed.

End RowMajor.

Section ArrayOps.
Local Open Scope nat_scope.
Context {F : Type}.

Lemma mapM_seq_ex {B} (g : nat -> option B) n :
  (forall i, i < n -> is_Some (g i)) ->
  exists l, mapM g (seq 0 n) = Some l
            /\ length l = n /\ forall i, i < n -> l !! i = g i.
Proof.
  intros H.
  destruct (mapM g (seq 0 n)) as [l|] eqn:E.
  - exists l. split; [reflexivity|].
    apply mapM_Some_1 in E.
    pose proof (Forall2_length _ _ _ E) as Hl. rewrite length_seq in Hl.
    split; [now symmetry|]. intros i Hi.
    destruct (lookup_lt_is_Some_2 l i ltac:(lia)) as [y Hy].
    rewrite Hy. symmetry.
    eapply (Forall2_lookup_lr _ _ _ i i y) in E; [exact E| |exact Hy].
    apply lookup_seq. split; [reflexivity|assumption].
  - exfalso. apply mapM_None in E. apply Exists_exists in E as (i & Hi & Hn).
    apply elem_of_seq in Hi. destruct (H i ltac:(lia)) as [y Hy]. congruence.
Qed.

Lemma np_map2_same_shape (f : F -> F -> F) (a b : ndarray F) :
  nd_shape b = nd_shape a ->
  length (nd_data a) = size (nd_shape a) ->
  length (nd_data b) = size (nd_shape a) ->
  np_map2 f a b
  = Ok {| nd_dtype := nd_dtype a; nd_shape := nd_shape a;
          nd_data := zip_with f (nd_data a) (nd_data b) |}.
Proof.
  intros Hs Ha Hb. unfold np_map2. rewrite Hs, broadcast_shapes_refl.
  assert (Hl : length (zip_with f (nd_data a) (nd_data b)) = size (nd_shape a))
    by (rewrite length_zip_with; lia).
  rewrite <- Hl at 1. rewrite mapM_seq; [reflexivity|].
  intros i Hi. rewrite Hl in Hi.
  rewrite nd_get_unravel by assumption.
  rewrite <- Hs, nd_get_unravel by (now rewrite Hs).
  rewrite lookup_zip_with.
  destruct (nd_data a !! i); [|reflexivity]. simpl.
  destruct (nd_data b !! i); reflexivity.
Qed.

Lemma slice_bound_in (n : nat) (i : Z) :
  (0 <= i <= Z.of_nat n)%Z -> slice_bound n i = Z.to_nat i.
Proof.
  intros Hi. unfold slice_bound. destruct (decide (i < 0)%Z); [lia|]. lia.
Qed.

(** [np.split(pred, [m, 2*m], axis=1)] of one row. *)
Lemma np_split_row (pred : ndarray F) (lp ss mu : list F) (m : Z) :
  nd_shape pred = [1; length lp + length ss + length mu] ->
  nd_data pred = lp ++ ss ++ mu ->
  Z.of_nat (length lp) = m -> length ss = length lp ->
  np_split_axis1 pred [m; (2 * m)%Z]
  = Ok [ {| nd_dtype := nd_dtype pred; nd_shape := [1; length lp]; nd_data := lp |};
         {| nd_dtype := nd_dtype pred; nd_shape := [1; length ss]; nd_data := ss |};
         {| nd_dtype := nd_dtype pred; nd_shape := [1; length mu]; nd_data := mu |} ].
Proof.
  intros Hs Hd Hm Hss. unfold np_split_axis1. rewrite Hs, Hd.
  remember (length lp + length ss + length mu) as W eqn:HWeq.
  assert (Hrows : rows 1 W (lp ++ ss ++ mu) = [lp ++ ss ++ mu]).
  { simpl. rewrite take_ge; [reflexivity|]. rewrite !length_app. lia. }
  rewrite Hrows.
  assert (HW : length (lp ++ ss ++ mu) = W) by (rewrite !length_app; lia).
  assert (B0 : slice_bound W 0 = 0) by (rewrite slice_bound_in; lia).
  assert (B1 : slice_bound W m = length lp) by (rewrite slice_bound_in; lia).
  assert (B2 : slice_bound W (2 * m) = 2 * length lp) by (rewrite slice_bound_in; lia).
  assert (B3 : slice_bound W (Z.of_nat W) = W) by (rewrite slice_bound_in; lia).
  cbn [app tail zip_with fmap list_fmap concat]. unfold py_slice.
  rewrite HW, B0, B1, B2, B3, !app_nil_r.
  replace (length lp - 0) with (length lp) by lia.
  replace (2 * length lp - length lp) with (length ss) by lia.
  replace (W - 2 * length lp) with (length mu) by lia.
  rewrite drop_0, take_app_length.
  rewrite drop_app_length, take_app_length.
  replace (2 * length lp) with (length (lp ++ ss)) by (rewrite length_app; lia).
  rewrite app_assoc, drop_app_length, take_ge by lia. reflexivity.
Qed.

Lemma np_reshape_row (a : ndarray F) (z y x : nat) (m : Z) :
  (0 < m)%Z -> z * y * x <> 0 ->
  nd_shape a = [1; z * y * x * Z.to_nat m] ->
  np_reshape_batch a z y x m
  = Ok {| nd_dtype := nd_dtype a; nd_shape := [1; z; y; x; Z.to_nat m];
          nd_data := nd_data a |}.
Proof.
  intros Hm Hv Hs. unfold np_reshape_batch.
  destruct (decide (m < 0)%Z); [lia|].
  set (known := z * y * x * Z.to_nat m).
  assert (Hk : known <> 0) by (unfold known; nia).
  destruct (decide (known = 0)); [contradiction|].
  rewrite Hs. fold known.
  assert (Hsz : size [1; known] = known) by (simpl; lia).
  rewrite Hsz, Nat.Div0.mod_same.
  destruct (decide (0 = 0)); [|contradiction].
  now rewrite Nat.div_same.
Qed.

Lemma argmax_fold_bound (gt : F -> F -> bool) rest : forall bi b i,
  bi < i ->
  (foldl (fun '(best_i, best, i) v =>
            if gt v best then (i, v, S i) else (best_i, best, S i))
         (bi, b, i) rest).1.1 < i + length rest.
Proof.
  induction rest as [|v rest IH]; intros bi b i Hbi; [simpl; lia|].
  simpl. destruct (gt v b).
  - specialize (IH i v (S i) ltac:(lia)). lia.
  - specialize (IH bi b (S i) ltac:(lia)). lia.
Qed.

(** Of a non-empty list [argmax] returns a position in the list. *)
Lemma argmax_list_bound (gt : F -> F -> bool) l :
  l <> [] -> exists k, argmax_list gt l = Some k /\ k < length l.
Proof.
  destruct l as [|u rest]; [congruence|]. intros _.
  eexists. split; [reflexivity|].
  pose proof (argmax_fold_bound gt rest 0 u 1 ltac:(lia)). simpl length. lia.
Qed.

Lemma np_argmax_row (gt : F -> F -> bool) (a : ndarray F) n k :
  nd_shape a = [1; n] -> length (nd_data a) = n ->
  argmax_list gt (nd_data a) = Some k ->
  np_argmax_axis1 gt a = Ok {| nd_dtype := "int64"; nd_shape := [1]; nd_data := [k] |}.
Proof.
  intros Hs Hl Hk. unfold np_argmax_axis1. rewrite Hs. simpl rows.
  rewrite take_ge by lia. simpl. now rewrite Hk.
Qed.

End ArrayOps.

Section Indexing.
Local Open Scope nat_scope.
Context {F : Type}.

Lemma broadcast_scalar_index d0 d1 d2 d3 :
  broadcast_shapes [d0; d1; d2; d3] [1] = Some [d0; d1; d2; d3].
Proof. unfold broadcast_shapes. simpl. repeat case_decide; reflexivity || congruence. Qed.

Lemma index_array_get dims j off :
  off < size dims ->
  nd_get {| nd_dtype := "int64"; nd_shape := dims;
            nd_data := (fun off => nth j (unravel dims off) 0) <$> seq 0 (size dims) |}
         (broadcast_index dims (unravel dims off))
  = Some (nth j (unravel dims off) 0).
Proof.
  intros H.
  rewrite (nd_get_unravel {| nd_dtype := "int64"; nd_shape := dims; nd_data := _ |} off H).
  simpl. rewrite list_lookup_fmap, lookup_seq_lt by assumption. reflexivity.
Qed.

(** [a[sample, z, y, x, which]] when [which] holds one position [k]: the
    element number [k] of every innermost row of [a]. *)
Lemma np_take_row (a : ndarray F) d0 d1 d2 d3 m k :
  nd_shape a = [d0; d1; d2; d3; m] -> k < m ->
  length (nd_data a) = size [d0; d1; d2; d3] * m ->
  exists l,
    np_take a (np_indices [d0; d1; d2; d3]
               ++ [{| nd_dtype := "int64"; nd_shape := [1]; nd_data := [k] |}])
    = Ok {| nd_dtype := nd_dtype a; nd_shape := [d0; d1; d2; d3]; nd_data := l |}
    /\ length l = size [d0; d1; d2; d3]
    /\ forall off, off < size [d0; d1; d2; d3] -> l !! off = nd_data a !! (off * m + k).
Proof.
  intros Hs Hk Hl. set (dims := [d0; d1; d2; d3]) in *.
  set (which := {| nd_dtype := "int64"; nd_shape := [1]; nd_data := [k] |}).
  set (g := fun off =>
         let idx := unravel dims off in
         match mapM (fun ix : ndarray nat => nd_get ix (broadcast_index (nd_shape ix) idx))
                    (np_indices dims ++ [which]) with
         | Some coords =>
             if forallb (fun cd : nat * nat => cd.1 <? cd.2) (zip coords (nd_shape a))
             then nd_get a coords
             else None
         | None => None
         end).
  assert (Hg : forall off, off < size dims -> g off = nd_data a !! (off * m + k)).
  { intros off Hoff. unfold g. cbv zeta.
    pose proof (unravel_bounds dims off Hoff) as Hb.
    pose proof (ravel_unravel dims off Hoff) as Hr.
    assert (Hi : forall j,
               nd_get {| nd_dtype := "int64"; nd_shape := dims;
                         nd_data := (fun off => nth j (unravel dims off) 0)
                                    <$> seq 0 (size dims) |}
                      (broadcast_index dims (unravel dims off))
               = Some (nth j (unravel dims off) 0))
      by (intros j; now apply index_array_get).
    assert (Hw : nd_get which (broadcast_index [1] (unravel dims off)) = Some k).
    { pose proof (unravel_length dims off) as Hlen.
      destruct (unravel dims off) as [|c0 [|c1 [|c2 [|c3 [|? ?]]]]]; try discriminate.
      reflexivity. }
    unfold np_indices, which in *.
    change (seq 0 (length dims)) with [0; 1; 2; 3].
    cbn [fmap list_fmap app mapM nd_shape].
    rewrite !Hi, Hw. cbn [mbind option_bind mret option_ret].
    destruct (unravel dims off) as [|c0 [|c1 [|c2 [|c3 [|? ?]]]]] eqn:Eu;
      try (apply Forall2_length in Hb; discriminate Hb).
    cbn [nth].
    apply Forall2_cons in Hb as [H0 Hb]. apply Forall2_cons in Hb as [H1 Hb].
    apply Forall2_cons in Hb as [H2 Hb]. apply Forall2_cons in Hb as [H3 _].
    rewrite Hs. cbn [zip zip_with forallb fst snd].
    rewrite (proj2 (Nat.ltb_lt c0 d0) H0), (proj2 (Nat.ltb_lt c1 d1) H1),
      (proj2 (Nat.ltb_lt c2 d2) H2), (proj2 (Nat.ltb_lt c3 d3) H3),
      (proj2 (Nat.ltb_lt k m) Hk).
    cbn [andb]. unfold nd_get. rewrite Hs.
    change [d0; d1; d2; d3; m] with (dims ++ [m]).
    change [c0; c1; c2; c3; k] with ([c0; c1; c2; c3] ++ [k]).
    rewrite ravel_snoc by reflexivity. now rewrite Hr. }
  destruct (mapM_seq_ex g (size dims)) as (l & El & Ll & Hlook).
  { intros off Hoff. rewrite Hg by assumption. apply lookup_lt_is_Some_2. nia. }
  exists l. split; [|split; [exact Ll|]].
  - unfold np_take.
    assert (Hlen : length (np_indices dims ++ [which]) = length (nd_shape a))
      by (rewrite Hs; reflexivity).
    destruct (decide _) as [_|Hn]; [|contradiction].
    assert (Hsh : foldl (fun (acc : option (list nat)) (ix : ndarray nat) =>
                           match acc with
                           | Some sh => broadcast_shapes sh (nd_shape ix)
                           | None => None
                           end) (Some []) (np_indices dims ++ [which]) = Some dims).
    { unfold np_indices, which. change (seq 0 (length dims)) with [0; 1; 2; 3].
      cbn [fmap list_fmap app foldl nd_shape].
      rewrite broadcast_shapes_nil, !broadcast_shapes_refl.
      apply broadcast_scalar_index. }
    rewrite Hsh. fold g. now rewrite El.
  - intros off Hoff. rewrite Hlook by assumption. now apply Hg.
Qed.

End Indexing.

Section PredictOne.
Context {F : Type}.
Variables (f_exp f_sqrt : F -> F) (f_div : F -> F -> F) (f_gt : F -> F -> bool).
Variable forward : Model -> ndarray F -> result (ndarray F).

Lemma keras_predict_ok m x p w :
  forward m x = Ok p ->
  keras_predict forward m x w = (Ok p, logged w [EvPredict m (nd_shape x)]).
Proof.
  intros E. unfold keras_predict, bind. rewrite emit_logged, E. reflexivity.
Qed.

Lemma lift_bind_Ok {A B} (r : result A) (a : A) (k : A -> Py B) w :
  r = Ok a -> bind (lift r) k w = k a w.
Proof. now intros ->. Qed.

(** X11. On a single volume [GaussianMixtureCAE.predict] returns the
    reconstruction its docstring describes.  Let the network answer an
    accepted input of shape [(1, z, y, x, 1)] with one row made of [m]
    log-priors [lp], [m] variances [ss] and [z*y*x*m] means [mu], for
    [m > 0] Gaussians and at least one voxel.  Then [predict] invokes the
    network once and returns an array of the shape of the input whose voxel
    number [v] (row-major) is [mu[v*m + k]], the mean that Gaussian [k]
    gives the voxel, where [k] is the first position at which
    [exp(lp) / sqrt(ss)] is largest. *)
Theorem predict_single_volume (self : GaussianMixtureCAE) (mdl : Model)
    (array pred : ndarray F) (z y x : nat) (lp ss mu : list F) (w : world) :
  let m := Z.to_nat (n_gaussians self) in
  _model (gm_naked self) = Some mdl ->
  nd_dtype array = "float32" ->
  nd_shape array = [1; z; y; x; 1]%nat ->
  0 < n_gaussians self ->
  (z * y * x <> 0)%nat ->
  forward mdl array = Ok pred ->
  nd_shape pred = [1; 2 * m + z * y * x * m]%nat ->
  nd_data pred = lp ++ ss ++ mu ->
  length lp = m -> length ss = m -> length mu = (z * y * x * m)%nat ->
  exists k r,
    argmax_list f_gt (zip_with f_div (f_exp <$> lp) (f_sqrt <$> ss)) = Some k
    /\ (k < m)%nat
    /\ GaussianMixtureCAE_predict f_exp f_sqrt f_div f_gt forward self array w
       = (Ok r, logged w [EvPredict mdl (nd_shape array)])
    /\ nd_shape r = nd_shape array
    /\ length (nd_data r) = (z * y * x)%nat
    /\ forall v, (v < z * y * x)%nat -> nd_data r !! v = mu !! (v * m + k)%nat.
Proof.
  intros m Hmdl Hdt Hsh Hm Hv Hfw Hps Hpd Hlp Hss Hmu.
  assert (Hm' : (0 < m)%nat) by (unfold m; lia).
  (* the most probable Gaussian *)
  set (ratio := zip_with f_div (f_exp <$> lp) (f_sqrt <$> ss)).
  assert (Hlr : length ratio = m)
    by (unfold ratio; rewrite length_zip_with, !length_fmap; lia).
  destruct (argmax_list_bound f_gt ratio) as (k & Ek & Hk).
  { intros E. rewrite E in Hlr. simpl in Hlr. lia. }
  rewrite Hlr in Hk.
  (* the pieces of the prediction *)
  assert (Esplit : np_split_axis1 pred [n_gaussians self; 2 * n_gaussians self]
                   = Ok [ {| nd_dtype := nd_dtype pred; nd_shape := [1; m]%nat;
                             nd_data := lp |};
                          {| nd_dtype := nd_dtype pred; nd_shape := [1; m]%nat;
                             nd_data := ss |};
                          {| nd_dtype := nd_dtype pred;
                             nd_shape := [1; z * y * x * m]%nat; nd_data := mu |} ]).
  { rewrite <- Hlp at 1. rewrite <- Hss at 1. rewrite <- Hmu.
    apply np_split_row; try assumption; [|unfold m in Hlp; lia|lia].
    rewrite Hps. do 2 f_equal. lia. }
  assert (Ereshape :
            np_reshape_batch {| nd_dtype := nd_dtype pred;
                                nd_shape := [1; z * y * x * m]%nat; nd_data := mu |}
                             z y x (n_gaussians self)
            = Ok {| nd_dtype := nd_dtype pred; nd_shape := [1; z; y; x; m]%nat;
                    nd_data := mu |})
    by (exact (np_reshape_row
                 {| nd_dtype := nd_dtype pred; nd_shape := [1; z * y * x * m]%nat;
                    nd_data := mu |} z y x (n_gaussians self) Hm Hv eq_refl)).
  assert (Eratio :
            np_map2 f_div
              (np_map f_exp {| nd_dtype := nd_dtype pred; nd_shape := [1; m]%nat;
                               nd_data := lp |})
              (np_map f_sqrt {| nd_dtype := nd_dtype pred; nd_shape := [1; m]%nat;
                                nd_data := ss |})
            = Ok {| nd_dtype := nd_dtype pred; nd_shape := [1; m]%nat;
                    nd_data := ratio |}).
  { rewrite np_map2_same_shape; [reflexivity|..];
      first [reflexivity | simpl; rewrite ?length_fmap; lia]. }
  assert (Ewhich :
            np_argmax_axis1 f_gt {| nd_dtype := nd_dtype pred; nd_shape := [1; m]%nat;
                                    nd_data := ratio |}
            = Ok {| nd_dtype := "int64"; nd_shape := [1]%nat; nd_data := [k] |})
    by (now apply (np_argmax_row f_gt _ m k)).
  destruct (np_take_row {| nd_dtype := nd_dtype pred; nd_shape := [1; z; y; x; m]%nat;
                           nd_data := mu |} 1 z y x m k eq_refl Hk)
    as (l & Etake & Ll & Hl).
  { simpl. lia. }
  exists k, (np_expand_dims {| nd_dtype := nd_dtype pred; nd_shape := [1; z; y; x]%nat;
                               nd_data := l |} 4).
  split; [exact Ek|]. split; [exact Hk|]. split; [|split; [|split]].
  - unfold GaussianMixtureCAE_predict.
    assert (Hok : ~ rejected_input array).
    { unfold rejected_input. rewrite Hdt, Hsh. simpl.
      intros [E|[E|E]]; congruence. }
    rewrite (bind_Ok _ _ _ _ _ (check_input_array_accepts array w Hok)).
    rewrite Hmdl, (bind_Ok _ _ _ _ _ (keras_predict_ok mdl array pred w Hfw)).
    rewrite Hsh. cbv beta iota.
    rewrite (lift_bind_Ok _ _ _ _ Esplit). cbv beta iota.
    rewrite (lift_bind_Ok _ _ _ _ Ereshape).
    rewrite (lift_bind_Ok _ _ _ _ Eratio).
    rewrite (lift_bind_Ok _ _ _ _ Ewhich).
    change (np_indices (removelast [1; z; y; x; 1]%nat))
      with (np_indices [1; z; y; x]%nat).
    unfold np_indices in Etake |- *.
    cbn [length seq fmap list_fmap app] in Etake |- *.
    rewrite (lift_bind_Ok _ _ _ _ Etake). reflexivity.
  - simpl. now rewrite Hsh.
  - simpl. rewrite Ll. simpl. lia.
  - intros v Hvl. simpl. apply Hl. simpl. lia.
Qed.

End PredictOne.

(** ** After [build_model] *)









Section FreezingInversion.
Context {Self : Type} `{NakedModelLaws Self}.




End FreezingInversion.


(** ** Freezing by name *)

Lemma dense_1_in_lungnet_sigs self k d r :
  "dense_1" ∈ (lungnet_sigs self k d r).*1 <-> d = 0%nat.
Proof.
  unfold lungnet_sigs. rewrite fmap_cons, fmap_app, fmap_cons, fmap_app. simpl fst.
  change "dense_1" with ("dense_" +:+ pretty 1%nat).
  split.
  - intros [E|[Hin|[E|[Hin|Hin]%elem_of_app]%elem_of_cons]%elem_of_app]%elem_of_cons.
    + discriminate E.
    + apply encoder_name_first_char in Hin. discriminate Hin.
    + discriminate E.
    + apply dense_stack_names in Hin as [(j & E & Hj)|(j & E & Hj)];
        [apply auto_name_inj in E; lia | discriminate E].
    + apply elem_of_cons in Hin as [E|Hin]; [|now apply elem_of_nil in Hin].
      apply auto_name_inj in E. lia.
  - intros ->. apply elem_of_cons. right. apply elem_of_app. right.
    apply elem_of_cons. right.
    destruct (n_dense self) as [|n nd]; simpl; [apply list_elem_of_here|].
    apply list_elem_of_here.
Qed.

Lemma build_classifier_dense_count self encoded w out w' :
  _build_classifier_layers self encoded w = (Ok out, w') ->
  uid_of w' "dense" = S (uid_of w "dense" + length (n_dense self)).
Proof.
  unfold _build_classifier_layers. intros E.
  apply bind_Ok_inv in E as (h & w1 & E1 & E).
  apply apply_new_unary_inv in E1 as (l1 & _ & _ & _ & ->); [|discriminate].
  apply bind_Ok_inv in E as (h' & w2 & E2 & E).
  apply dense_stack_created in E2 as (news & _ & _ & _ & Ud).
  apply apply_new_auto_inv in E as (l3 & _ & _ & _ & U3).
  simpl class_prefix in U3.
  pose proof (uid_of_insert _ _ _ "dense" _ U3) as Ud3. simpl in Ud3.
  rewrite Ud3, Ud. reflexivity.
Qed.

(** X14. [LungNet] leaves the naming of its dense layers to Keras, so
    whether [freeze=['dense_1']] works depends on the session: whenever the
    layers of the network can be built, [build_model(freeze=['dense_1'])]
    returns if no dense layer has been named in the session before, and
    raises [ValueError] otherwise.  Building the layers names at least one
    dense layer, so in a session in which a [LungNet] was built before,
    the name [dense_1] is taken. *)
Theorem freeze_dense_depends_on_session (net net1 : LungNet) (w w1 : world) :
  LungNet_build_layers net w = (Ok net1, w1) ->
  (uid_of w "dense" = 0%nat ->
   exists net' w', build_model net (Some ["dense_1"]) w = (Ok net', w'))
  /\ (uid_of w "dense" <> 0%nat ->
      exists w', build_model net (Some ["dense_1"]) w = (Raise ValueError, w'))
  /\ uid_of w1 "dense" <> 0%nat.
Proof.
  intros Eb.
  destruct (lungnet_model_accepted _ _ _ _ Eb) as (m & Em & Gm & _).
  assert (Hnames : "dense_1" ∈ lname <$> layers m <-> uid_of w "dense" = 0%nat).
  { rewrite (names_of_sigs _ _ Gm). apply dense_1_in_lungnet_sigs. }
  set (self2 := with_base net1 (set_model (base net1) (Some m))).
  assert (Hm2 : _model (base self2) = Some m) by reflexivity.
  assert (Hstart : build_model net (Some ["dense_1"]) w
                   = bind (for_each ["dense_1"] freeze_layer self2) _compile_model w1).
  { unfold build_model.
    change (_build_layers net) with (LungNet_build_layers net).
    rewrite (bind_Ok _ _ _ _ _ Eb).
    change (base net1) with (ln_naked net1).
    rewrite (bind_Ok _ _ _ _ _ Em). reflexivity. }
  rewrite Hstart. clear Hstart.
  split; [|split].
  - intros Hd.
    assert (Hok : model_ok m).
    { eapply new_Model_model_ok; [exact Em|].
      intros o Ho. eapply (build_layers_named net net1); eauto. }
    destruct (freeze_loop ["dense_1"] self2 m w1 Hm2 Hok) as (self3 & w3 & El & Hb & _).
    { intros nm [->|Hin]%elem_of_cons; [now apply Hnames | now apply elem_of_nil in Hin]. }
    rewrite (bind_Ok _ _ _ _ _ El).
    assert (Hm3 : _model (base self3) = Some (frozen m ["dense_1"])) by now rewrite Hb.
    destruct (compile_model_spec self3 _ Hm3) as (a & Ec).
    eexists _, _. apply Ec.
  - intros Hd. exists w1. apply bind_Raise. simpl for_each. apply bind_Raise.
    unfold freeze_layer. rewrite Hm2.
    rewrite get_layer_missing; [reflexivity|]. intros Hin. now apply Hnames in Hin.
  - unfold LungNet_build_layers in Eb.
    apply bind_Ok_inv in Eb as (inp & v1 & Ei & Eb).
    apply bind_Ok_inv in Eb as (encoded & v2 & Ee & Eb).
    apply bind_Ok_inv in Eb as (out & v3 & Ec & Eb).
    inversion Eb; subst; clear Eb.
    apply build_classifier_dense_count in Ec. rewrite Ec. lia.
Qed.


(** ** [predict] on a batch as wide as it is long *)

Section Batches.
Local Open Scope nat_scope.
Context {F : Type}.

Lemma rows_concat (rs : list (list F)) w :
  Forall (fun r => length r = w) rs -> rows (length rs) w (concat rs) = rs.
Proof.
  induction 1 as [|r rs Hr _ IH]; [reflexivity|].
  simpl. rewrite take_app_length', drop_app_length' by (now symmetry).
  now rewrite IH.
Qed.

Lemma length_concat_uniform {A} (rs : list (list A)) w :
  Forall (fun r => length r = w) rs -> length (concat rs) = length rs * w.
Proof.
  induction 1 as [|r rs Hr _ IH]; [reflexivity|].
  simpl. rewrite length_app, IH, Hr. reflexivity.
Qed.

Lemma ravel_cons_from sh : forall idx acc,
  length idx = length sh ->
  foldl (fun acc (di : nat * nat) => acc * di.1 + di.2) acc (zip sh idx)
  = acc * size sh + ravel sh idx.
Proof.
  induction sh as [|d sh IH]; intros [|i idx] acc Hl; try discriminate Hl.
  - unfold ravel. simpl. lia.
  - unfold ravel. simpl. rewrite !IH by (simpl in Hl; lia). ring.
Qed.

Lemma ravel_cons d sh i idx :
  length idx = length sh -> ravel (d :: sh) (i :: idx) = i * size sh + ravel sh idx.
Proof.
  intros Hl. unfold ravel at 1. simpl. now rewrite ravel_cons_from.
Qed.

Lemma ravel_bound sh idx :
  Forall2 (fun i d => i < d) idx sh -> ravel sh idx < size sh.
Proof.
  induction 1 as [|i d idx sh Hi H IH]; [unfold ravel; simpl; lia|].
  rewrite ravel_cons by (now apply Forall2_length in H). rewrite size_cons. nia.
Qed.

(** Coordinates and offsets: the round trip the other way. *)
Lemma unravel_ravel sh idx :
  Forall2 (fun i d => i < d) idx sh -> unravel sh (ravel sh idx) = idx.
Proof.
  induction 1 as [|i d idx sh Hi H IH]; [reflexivity|].
  rewrite ravel_cons by (now apply Forall2_length in H).
  pose proof (ravel_bound _ _ H) as Hb. simpl.
  rewrite <- (Nat.div_unique (i * size sh + ravel sh idx) (size sh) i (ravel sh idx))
    by lia.
  rewrite <- (Nat.mod_unique (i * size sh + ravel sh idx) (size sh) i (ravel sh idx))
    by lia.
  now rewrite IH.
Qed.

End Batches.

Section BatchOps.
Local Open Scope nat_scope.
Context {F : Type}.
Implicit Types samples : list (list F * list F * list F).

Lemma sample_row_length m c samples :
  Forall (sample_ok m c) samples ->
  Forall (fun r : list F => length r = m + m + c) (sample_row <$> samples).
Proof.
  intros H. apply Forall_fmap. eapply Forall_impl; [exact H|].
  intros [[lp ss] mu] (H1 & H2 & H3). simpl in *. unfold sample_row. simpl.
  rewrite !length_app. lia.
Qed.

Lemma np_split_rows (pred : ndarray F) samples (m c : nat) :
  Forall (sample_ok m c) samples ->
  nd_shape pred = [length samples; m + m + c] ->
  nd_data pred = concat (sample_row <$> samples) ->
  np_split_axis1 pred [Z.of_nat m; (2 * Z.of_nat m)%Z]
  = Ok [ {| nd_dtype := nd_dtype pred; nd_shape := [length samples; m];
            nd_data := concat ((fun smp => smp.1.1) <$> samples) |};
         {| nd_dtype := nd_dtype pred; nd_shape := [length samples; m];
            nd_data := concat ((fun smp => smp.1.2) <$> samples) |};
         {| nd_dtype := nd_dtype pred; nd_shape := [length samples; c];
            nd_data := concat ((fun smp => smp.2) <$> samples) |} ].
Proof.
  intros Hok Hs Hd. unfold np_split_axis1. rewrite Hs, Hd.
  remember (m + m + c) as W eqn:HW.
  assert (Hrows : rows (length samples) W (concat (sample_row <$> samples))
                  = sample_row <$> samples).
  { rewrite <- (length_fmap sample_row samples). apply rows_concat.
    subst W. now apply sample_row_length. }
  rewrite Hrows.
  assert (B0 : slice_bound W 0 = 0) by (rewrite slice_bound_in; lia).
  assert (B1 : slice_bound W (Z.of_nat m) = m) by (rewrite slice_bound_in; lia).
  assert (B2 : slice_bound W (2 * Z.of_nat m) = 2 * m) by (rewrite slice_bound_in; lia).
  assert (B3 : slice_bound W (Z.of_nat W) = W) by (rewrite slice_bound_in; lia).
  cbn [app tail zip_with]. rewrite B0, B1, B2, B3.
  assert (Hsl : forall (st en : Z) (part : list F * list F * list F -> list F),
             (forall smp, sample_ok m c smp ->
                          py_slice st en (sample_row smp) = part smp) ->
             py_slice st en <$> (sample_row <$> samples) = part <$> samples).
  { intros st en part Hp. rewrite <- list_fmap_compose.
    apply Forall_fmap_ext_1. eapply Forall_impl; [exact Hok|].
    intros smp Hsmp. now apply Hp. }
  rewrite (Hsl 0%Z (Z.of_nat m) (fun smp => smp.1.1)),
          (Hsl (Z.of_nat m) (2 * Z.of_nat m)%Z (fun smp => smp.1.2)),
          (Hsl (2 * Z.of_nat m)%Z (Z.of_nat W) (fun smp => smp.2)).
  - replace (m - 0) with m by lia. replace (2 * m - m) with m by lia.
    replace (W - 2 * m) with c by lia. reflexivity.
  - intros [[lp ss] mu] (H1 & H2 & H3). cbn [fst snd] in H1, H2, H3.
    unfold py_slice, sample_row. cbn [fst snd].
    replace (length (lp ++ ss ++ mu)) with W by (rewrite !length_app; lia).
    rewrite B2, B3.
    rewrite app_assoc, drop_app_length' by (rewrite length_app; lia).
    rewrite take_ge by lia. reflexivity.
  - intros [[lp ss] mu] (H1 & H2 & H3). cbn [fst snd] in H1, H2, H3.
    unfold py_slice, sample_row. cbn [fst snd].
    replace (length (lp ++ ss ++ mu)) with W by (rewrite !length_app; lia).
    rewrite B1, B2.
    rewrite drop_app_length' by (now symmetry).
    rewrite take_app_length' by lia. reflexivity.
  - intros [[lp ss] mu] (H1 & H2 & H3). cbn [fst snd] in H1, H2, H3.
    unfold py_slice, sample_row. cbn [fst snd].
    replace (length (lp ++ ss ++ mu)) with W by (rewrite !length_app; lia).
    rewrite B0, B1.
    rewrite drop_0, take_app_length' by lia. reflexivity.
Qed.

Lemma ratio_concat (f_exp f_sqrt : F -> F) (f_div : F -> F -> F) m c samples :
  Forall (sample_ok m c) samples ->
  zip_with f_div (f_exp <$> concat ((fun smp => smp.1.1) <$> samples))
                 (f_sqrt <$> concat ((fun smp => smp.1.2) <$> samples))
  = concat (sample_ratio f_exp f_sqrt f_div <$> samples).
Proof.
  induction 1 as [|[[lp ss] mu] samples (H1 & H2 & _) _ IH]; [reflexivity|].
  cbn [fst snd] in H1, H2. rewrite !fmap_cons. cbn [concat fst snd].
  rewrite !fmap_app, zip_with_app by (rewrite !length_fmap; lia).
  now rewrite IH.
Qed.

Lemma np_argmax_rows (gt : F -> F -> bool) (a : ndarray F) (rs : list (list F))
    (m : nat) (ks : list nat) :
  nd_shape a = [length rs; m] -> nd_data a = concat rs ->
  Forall (fun r => length r = m) rs ->
  Forall2 (fun r k => argmax_list gt r = Some k) rs ks ->
  np_argmax_axis1 gt a
  = Ok {| nd_dtype := "int64"; nd_shape := [length rs]; nd_data := ks |}.
Proof.
  intros Hs Hd Hl Hk. unfold np_argmax_axis1. rewrite Hs, Hd, rows_concat by assumption.
  now rewrite (mapM_Some_2 _ _ _ Hk).
Qed.

End BatchOps.

Section BatchIndexing.
Local Open Scope nat_scope.
Context {F : Type}.

Lemma np_reshape_rows (a : ndarray F) (s z y x : nat) (m : Z) :
  (0 < m)%Z -> z * y * x <> 0 ->
  nd_shape a = [s; z * y * x * Z.to_nat m] ->
  np_reshape_batch a z y x m
  = Ok {| nd_dtype := nd_dtype a; nd_shape := [s; z; y; x; Z.to_nat m];
          nd_data := nd_data a |}.
Proof.
  intros Hm Hv Hs. unfold np_reshape_batch.
  destruct (decide (m < 0)%Z); [lia|].
  set (known := z * y * x * Z.to_nat m).
  assert (Hk : known <> 0) by (unfold known; nia).
  destruct (decide (known = 0)); [contradiction|].
  rewrite Hs. fold known.
  assert (Hsz : size [s; known] = s * known) by (simpl; lia).
  rewrite Hsz, Nat.Div0.mod_mul.
  destruct (decide (0 = 0)); [|contradiction].
  now rewrite Nat.div_mul.
Qed.

Lemma argmax_all (gt : F -> F -> bool) (rs : list (list F)) m :
  0 < m -> Forall (fun r => length r = m) rs ->
  exists ks, Forall2 (fun r k => argmax_list gt r = Some k) rs ks
             /\ Forall (fun k => k < m) ks.
Proof.
  intros Hm. induction 1 as [|r rs Hr _ (ks & IH1 & IH2)].
  - exists []. split; constructor.
  - destruct (argmax_list_bound gt r) as (k & Ek & Hk).
    { intros ->. simpl in Hr. lia. }
    exists (k :: ks). split; constructor; try assumption. lia.
Qed.

Lemma broadcast_batch_index s d1 d2 :
  broadcast_shapes [s; d1; d2; s] [s] = Some [s; d1; d2; s].
Proof. unfold broadcast_shapes. simpl. now destruct (decide (s = s)). Qed.

(** [a[sample, z, y, x, which]] on a batch whose [x] size is the number of
    samples: [which] is read at the [x] coordinate. *)
Lemma np_take_batch (a : ndarray F) s d1 d2 m (ks : list nat) :
  nd_shape a = [s; d1; d2; s; m] ->
  length ks = s -> Forall (fun k => k < m) ks ->
  length (nd_data a) = size [s; d1; d2; s] * m ->
  exists l,
    np_take a (np_indices [s; d1; d2; s]
               ++ [{| nd_dtype := "int64"; nd_shape := [s]; nd_data := ks |}])
    = Ok {| nd_dtype := nd_dtype a; nd_shape := [s; d1; d2; s]; nd_data := l |}
    /\ length l = size [s; d1; d2; s]
    /\ forall c0 c1 c2 c3 K,
         c0 < s -> c1 < d1 -> c2 < d2 -> c3 < s -> ks !! c3 = Some K ->
         l !! ravel [s; d1; d2; s] [c0; c1; c2; c3]
         = nd_data a !! ravel [s; d1; d2; s; m] [c0; c1; c2; c3; K].
Proof.
  intros Hs Hlk Hks Hl. set (dims := [s; d1; d2; s]) in *.
  set (g := fun off =>
         let idx := unravel dims off in
         match mapM (fun ix : ndarray nat => nd_get ix (broadcast_index (nd_shape ix) idx))
                    (np_indices dims
                     ++ [{| nd_dtype := "int64"; nd_shape := [s]; nd_data := ks |}]) with
         | Some coords =>
             if forallb (fun cd : nat * nat => cd.1 <? cd.2) (zip coords (nd_shape a))
             then nd_get a coords
             else None
         | None => None
         end).
  assert (Hg : forall c0 c1 c2 c3 K,
             c0 < s -> c1 < d1 -> c2 < d2 -> c3 < s -> ks !! c3 = Some K ->
             g (ravel dims [c0; c1; c2; c3])
             = nd_data a !! ravel (dims ++ [m]) ([c0; c1; c2; c3] ++ [K])).
  { intros c0 c1 c2 c3 K H0 H1 H2 H3 HK.
    assert (Hb : Forall2 (fun i d => i < d) [c0; c1; c2; c3] dims)
      by (repeat constructor; assumption).
    pose proof (ravel_bound _ _ Hb) as Hoff.
    pose proof (unravel_ravel _ _ Hb) as Hu.
    set (off := ravel dims [c0; c1; c2; c3]) in *.
    assert (HKm : K < m).
    { rewrite Forall_forall in Hks. apply Hks. eapply list_elem_of_lookup_2; eauto. }
    unfold g. cbv zeta.
    assert (Hi : forall j,
               nd_get {| nd_dtype := "int64"; nd_shape := dims;
                         nd_data := (fun off => nth j (unravel dims off) 0)
                                    <$> seq 0 (size dims) |}
                      (broadcast_index dims (unravel dims off))
               = Some (nth j (unravel dims off) 0))
      by (intros j; now apply index_array_get).
    assert (Hw : nd_get {| nd_dtype := "int64"; nd_shape := [s]; nd_data := ks |}
                        (broadcast_index [s] (unravel dims off)) = Some K).
    { rewrite Hu. unfold broadcast_index, nd_get, ravel. simpl.
      destruct (decide (s = 1)) as [->|_]; simpl.
      - replace c3 with 0 in HK by lia. exact HK.
      - exact HK. }
    unfold np_indices.
    change (seq 0 (length dims)) with [0; 1; 2; 3].
    cbn [fmap list_fmap app mapM nd_shape].
    rewrite !Hi, Hw. cbn [mbind option_bind mret option_ret].
    rewrite Hu. cbn [nth].
    rewrite Hs. cbn [zip zip_with forallb fst snd].
    rewrite (proj2 (Nat.ltb_lt c0 s) H0), (proj2 (Nat.ltb_lt c1 d1) H1),
      (proj2 (Nat.ltb_lt c2 d2) H2), (proj2 (Nat.ltb_lt c3 s) H3),
      (proj2 (Nat.ltb_lt K m) HKm).
    cbn [andb]. unfold nd_get. rewrite Hs. reflexivity. }
  destruct (mapM_seq_ex g (size dims)) as (l & El & Ll & Hlook).
  { intros off Hoff.
    pose proof (unravel_bounds dims off Hoff) as Hb.
    pose proof (ravel_unravel dims off Hoff) as Hr.
    destruct (unravel dims off) as [|c0 [|c1 [|c2 [|c3 [|? ?]]]]] eqn:Eu;
      try (apply Forall2_length in Hb; discriminate Hb).
    apply Forall2_cons in Hb as [H0 Hb]. apply Forall2_cons in Hb as [H1 Hb].
    apply Forall2_cons in Hb as [H2 Hb]. apply Forall2_cons in Hb as [H3 _].
    destruct (lookup_lt_is_Some_2 ks c3 ltac:(lia)) as [K HK].
    rewrite <- Hr, (Hg c0 c1 c2 c3 K) by assumption.
    apply lookup_lt_is_Some_2.
    rewrite ravel_snoc by reflexivity. fold dims in Hr. rewrite Hr.
    rewrite Forall_forall in Hks.
    pose proof (Hks K (list_elem_of_lookup_2 _ _ _ HK)). nia. }
  exists l. split; [|split; [exact Ll|]].
  - unfold np_take.
    destruct (decide _) as [_|Hn]; [|exfalso; apply Hn; rewrite Hs; reflexivity].
    assert (Hsh : foldl (fun (acc : option (list nat)) (ix : ndarray nat) =>
                           match acc with
                           | Some sh => broadcast_shapes sh (nd_shape ix)
                           | None => None
                           end) (Some [])
                    (np_indices dims
                     ++ [{| nd_dtype := "int64"; nd_shape := [s]; nd_data := ks |}])
                  = Some dims).
    { unfold np_indices. change (seq 0 (length dims)) with [0; 1; 2; 3].
      cbn [fmap list_fmap app foldl nd_shape].
      rewrite broadcast_shapes_nil, !broadcast_shapes_refl.
      apply broadcast_batch_index. }
    rewrite Hsh. fold g. now rewrite El.
  - intros c0 c1 c2 c3 K H0 H1 H2 H3 HK.
    assert (Hb : Forall2 (fun i d => i < d) [c0; c1; c2; c3] dims)
      by (repeat constructor; assumption).
    rewrite Hlook by (now apply ravel_bound).
    now apply Hg.
Qed.

End BatchIndexing.

Section PredictBatch.
Context {F : Type}.
Variables (f_exp f_sqrt : F -> F) (f_div : F -> F -> F) (f_gt : F -> F -> bool).
Variable forward : Model -> ndarray F -> result (ndarray F).

(** X16. On a batch whose [x] size equals the number [s] of samples
    [GaussianMixtureCAE.predict] returns without an error, and chooses the
    Gaussian by the [x] coordinate of a voxel instead of by its sample.
    Let the network answer an accepted input of shape [(s, z, y, s, 1)]
    with one row per sample, each made of [m] log-priors, [m] variances
    and [z*y*s*m] means, and let [which[k]] be the Gaussian that sample [k]
    prefers.  Then the result has the shape of the input and its element
    [[n, i, j, k, 0]] is [mu[n, i, j, k, which[k]]], where the docstring
    promises [mu[n, i, j, k, which[n]]]; the two agree for a single
    sample. *)
Theorem predict_batch_indexes_by_x (self : GaussianMixtureCAE) (mdl : Model)
    (array pred : ndarray F) (s z y : nat)
    (samples : list (list F * list F * list F)) (w : world) :
  let m := Z.to_nat (n_gaussians self) in
  let c := (z * y * s * m)%nat in
  let mu := {| nd_dtype := nd_dtype pred; nd_shape := [s; z; y; s; m];
               nd_data := concat ((fun smp => smp.2) <$> samples) |} in
  _model (gm_naked self) = Some mdl ->
  nd_dtype array = "float32" ->
  nd_shape array = [s; z; y; s; 1]%nat ->
  0 < n_gaussians self ->
  (z * y * s <> 0)%nat ->
  forward mdl array = Ok pred ->
  length samples = s ->
  Forall (sample_ok m c) samples ->
  nd_shape pred = [s; 2 * m + c]%nat ->
  nd_data pred = concat (sample_row <$> samples) ->
  exists which r,
    Forall2 (fun smp k => argmax_list f_gt (sample_ratio f_exp f_sqrt f_div smp) = Some k)
            samples which
    /\ GaussianMixtureCAE_predict f_exp f_sqrt f_div f_gt forward self array w
       = (Ok r, logged w [EvPredict mdl (nd_shape array)])
    /\ nd_shape r = nd_shape array
    /\ forall n i j k K,
         (n < s)%nat -> (i < z)%nat -> (j < y)%nat -> (k < s)%nat ->
         which !! k = Some K ->
         nd_get r [n; i; j; k; 0%nat] = nd_get mu [n; i; j; k; K].
Proof.
  intros m c mu Hmdl Hdt Hsh Hm Hv Hfw Hls Hok Hps Hpd.
  assert (Hm' : (0 < m)%nat) by (unfold m; lia).
  assert (Hlp : Forall (fun r : list F => length r = m)
                  ((fun smp : list F * list F * list F => smp.1.1) <$> samples)).
  { apply Forall_fmap. eapply Forall_impl; [exact Hok|]. now intros smp (H1 & _). }
  assert (Hss : Forall (fun r : list F => length r = m)
                  ((fun smp : list F * list F * list F => smp.1.2) <$> samples)).
  { apply Forall_fmap. eapply Forall_impl; [exact Hok|]. now intros smp (_ & H2 & _). }
  assert (Hmu : Forall (fun r : list F => length r = c)
                  ((fun smp : list F * list F * list F => smp.2) <$> samples)).
  { apply Forall_fmap. eapply Forall_impl; [exact Hok|]. now intros smp (_ & _ & H3). }
  assert (Hrt : Forall (fun r : list F => length r = m)
                  (sample_ratio f_exp f_sqrt f_div <$> samples)).
  { apply Forall_fmap. eapply Forall_impl; [exact Hok|].
    intros smp (H1 & H2 & _). unfold compose, sample_ratio.
    rewrite length_zip_with, !length_fmap. lia. }
  destruct (argmax_all f_gt _ m Hm' Hrt) as (which & Hwhich & Hbound).
  pose proof (Forall2_length _ _ _ Hwhich) as Hlw. rewrite length_fmap, Hls in Hlw.
  symmetry in Hlw.
  (* the pieces of the prediction *)
  assert (Esplit : np_split_axis1 pred [n_gaussians self; 2 * n_gaussians self]
                   = Ok [ {| nd_dtype := nd_dtype pred; nd_shape := [s; m]%nat;
                             nd_data := concat ((fun smp => smp.1.1) <$> samples) |};
                          {| nd_dtype := nd_dtype pred; nd_shape := [s; m]%nat;
                             nd_data := concat ((fun smp => smp.1.2) <$> samples) |};
                          {| nd_dtype := nd_dtype pred; nd_shape := [s; c]%nat;
                             nd_data := concat ((fun smp => smp.2) <$> samples) |} ]).
  { replace (n_gaussians self) with (Z.of_nat m) by (unfold m; lia).
    rewrite <- Hls. apply (np_split_rows pred samples m c Hok); [|exact Hpd].
    rewrite Hps, Hls. do 2 f_equal. lia. }
  assert (Ereshape :
            np_reshape_batch {| nd_dtype := nd_dtype pred; nd_shape := [s; c]%nat;
                                nd_data := concat ((fun smp => smp.2) <$> samples) |}
                             z y s (n_gaussians self)
            = Ok mu)
    by (exact (np_reshape_rows
                 {| nd_dtype := nd_dtype pred; nd_shape := [s; c]%nat;
                    nd_data := concat ((fun smp => smp.2) <$> samples) |}
                 s z y s (n_gaussians self) Hm Hv eq_refl)).
  assert (Eratio :
            np_map2 f_div
              (np_map f_exp {| nd_dtype := nd_dtype pred; nd_shape := [s; m]%nat;
                               nd_data := concat ((fun smp => smp.1.1) <$> samples) |})
              (np_map f_sqrt {| nd_dtype := nd_dtype pred; nd_shape := [s; m]%nat;
                                nd_data := concat ((fun smp => smp.1.2) <$> samples) |})
            = Ok {| nd_dtype := nd_dtype pred; nd_shape := [s; m]%nat;
                    nd_data := concat (sample_ratio f_exp f_sqrt f_div <$> samples) |}).
  { rewrite np_map2_same_shape.
    - simpl. now rewrite (ratio_concat f_exp f_sqrt f_div m c samples Hok).
    - reflexivity.
    - simpl. rewrite length_fmap, (length_concat_uniform _ m Hlp), length_fmap. lia.
    - simpl. rewrite length_fmap, (length_concat_uniform _ m Hss), length_fmap. lia. }
  assert (Ewhich :
            np_argmax_axis1 f_gt
              {| nd_dtype := nd_dtype pred; nd_shape := [s; m]%nat;
                 nd_data := concat (sample_ratio f_exp f_sqrt f_div <$> samples) |}
            = Ok {| nd_dtype := "int64"; nd_shape := [s]; nd_data := which |}).
  { rewrite (np_argmax_rows f_gt _ (sample_ratio f_exp f_sqrt f_div <$> samples) m which);
      try assumption; try reflexivity.
    - now rewrite length_fmap, Hls.
    - simpl. now rewrite length_fmap, Hls. }
  destruct (np_take_batch mu s z y m which eq_refl Hlw Hbound) as (l & Etake & Ll & Hl).
  { simpl. rewrite (length_concat_uniform _ c Hmu), length_fmap, Hls. unfold c. lia. }
  exists which,
    (np_expand_dims {| nd_dtype := nd_dtype pred; nd_shape := [s; z; y; s];
                       nd_data := l |} 4).
  split; [|split; [|split]].
  - now apply Forall2_fmap_l in Hwhich.
  - unfold GaussianMixtureCAE_predict.
    assert (Hacc : ~ rejected_input array).
    { unfold rejected_input. rewrite Hdt, Hsh. simpl.
      intros [E|[E|E]]; congruence. }
    rewrite (bind_Ok _ _ _ _ _ (check_input_array_accepts array w Hacc)).
    rewrite Hmdl, (bind_Ok _ _ _ _ _ (keras_predict_ok forward mdl array pred w Hfw)).
    rewrite Hsh. cbv beta iota.
    rewrite (lift_bind_Ok _ _ _ _ Esplit). cbv beta iota.
    rewrite (lift_bind_Ok _ _ _ _ Ereshape).
    rewrite (lift_bind_Ok _ _ _ _ Eratio).
    rewrite (lift_bind_Ok _ _ _ _ Ewhich).
    change (np_indices (removelast [s; z; y; s; 1]%nat))
      with (np_indices [s; z; y; s]%nat).
    unfold np_indices in Etake |- *.
    cbn [length seq fmap list_fmap app] in Etake |- *.
    rewrite (lift_bind_Ok _ _ _ _ Etake). reflexivity.
  - simpl. now rewrite Hsh.
  - intros n i j k K Hn Hi Hj Hk HK.
    pose proof (Hl n i j k K Hn Hi Hj Hk HK) as Hv'.
    unfold nd_get. unfold mu in Hv' |- *.
    cbn [nd_shape nd_data np_expand_dims take drop app] in Hv' |- *.
    rewrite <- Hv'.
    change [s; z; y; s; 1%nat] with ([s; z; y; s] ++ [1%nat]).
    change [n; i; j; k; 0%nat] with ([n; i; j; k] ++ [0%nat]).
    rewrite ravel_snoc by reflexivity. f_equal. lia.
Qed.

End PredictBatch.

(** ** [predict] on a batch of volumes one voxel wide *)

Section ThinIndexing.
Local Open Scope nat_scope.
Context {F : Type}.

Lemma broadcast_thin_index s d1 d2 :
  broadcast_shapes [s; d1; d2; 1] [s] = Some [s; d1; d2; s].
Proof.
  unfold broadcast_shapes. simpl.
  destruct (decide (1 = s)) as [<-|_]; [reflexivity|].
  now destruct (decide (1 = 1)).
Qed.

Lemma broadcast_index_thin s d1 d2 c0 c1 c2 c3 :
  c0 < s -> c1 < d1 -> c2 < d2 ->
  broadcast_index [s; d1; d2; 1] [c0; c1; c2; c3] = [c0; c1; c2; 0].
Proof.
  intros H0 H1 H2. unfold broadcast_index. simpl.
  destruct (decide (s = 1)), (decide (d1 = 1)), (decide (d2 = 1)),
    (decide (1 = 1)); try contradiction; repeat f_equal; lia.
Qed.

(** [a[sample, z, y, x, which]] on a batch of volumes whose [x] size is 1:
    the result is as wide as the batch is long. *)
Lemma np_take_thin (a : ndarray F) s d1 d2 m (ks : list nat) :
  nd_shape a = [s; d1; d2; 1; m] ->
  length ks = s -> Forall (fun k => k < m) ks ->
  length (nd_data a) = size [s; d1; d2; 1] * m ->
  exists l,
    np_take a (np_indices [s; d1; d2; 1]
               ++ [{| nd_dtype := "int64"; nd_shape := [s]; nd_data := ks |}])
    = Ok {| nd_dtype := nd_dtype a; nd_shape := [s; d1; d2; s]; nd_data := l |}
    /\ length l = size [s; d1; d2; s]
    /\ forall c0 c1 c2 c3 K,
         c0 < s -> c1 < d1 -> c2 < d2 -> c3 < s -> ks !! c3 = Some K ->
         l !! ravel [s; d1; d2; s] [c0; c1; c2; c3]
         = nd_data a !! ravel [s; d1; d2; 1; m] [c0; c1; c2; 0; K].
Proof.
  intros Hs Hlk Hks Hl.
  set (dims := [s; d1; d2; 1]) in *. set (out := [s; d1; d2; s]).
  set (g := fun off =>
         let idx := unravel out off in
         match mapM (fun ix : ndarray nat => nd_get ix (broadcast_index (nd_shape ix) idx))
                    (np_indices dims
                     ++ [{| nd_dtype := "int64"; nd_shape := [s]; nd_data := ks |}]) with
         | Some coords =>
             if forallb (fun cd : nat * nat => cd.1 <? cd.2) (zip coords (nd_shape a))
             then nd_get a coords
             else None
         | None => None
         end).
  assert (Hg : forall c0 c1 c2 c3 K,
             c0 < s -> c1 < d1 -> c2 < d2 -> c3 < s -> ks !! c3 = Some K ->
             g (ravel out [c0; c1; c2; c3])
             = nd_data a !! ravel (dims ++ [m]) ([c0; c1; c2; 0] ++ [K])).
  { intros c0 c1 c2 c3 K H0 H1 H2 H3 HK.
    assert (Hb : Forall2 (fun i d => i < d) [c0; c1; c2; c3] out)
      by (repeat constructor; assumption).
    assert (Hb' : Forall2 (fun i d => i < d) [c0; c1; c2; 0] dims)
      by (repeat constructor; assumption || lia).
    pose proof (unravel_ravel _ _ Hb) as Hu.
    pose proof (unravel_ravel _ _ Hb') as Hu'.
    pose proof (ravel_bound _ _ Hb') as Hoff'.
    assert (HKm : K < m).
    { rewrite Forall_forall in Hks. apply Hks. eapply list_elem_of_lookup_2; eauto. }
    unfold g. cbv zeta. rewrite Hu.
    assert (Hi : forall j,
               nd_get {| nd_dtype := "int64"; nd_shape := dims;
                         nd_data := (fun off => nth j (unravel dims off) 0)
                                    <$> seq 0 (size dims) |}
                      (broadcast_index dims [c0; c1; c2; c3])
               = Some (nth j [c0; c1; c2; 0] 0)).
    { intros j.
      change (broadcast_index dims [c0; c1; c2; c3])
        with (broadcast_index [s; d1; d2; 1] [c0; c1; c2; c3]).
      rewrite broadcast_index_thin by assumption.
      unfold nd_get. cbn [nd_shape nd_data].
      rewrite list_lookup_fmap, lookup_seq_lt by assumption.
      cbn [fmap option_fmap option_map Nat.add]. now rewrite Hu'. }
    assert (Hw : nd_get {| nd_dtype := "int64"; nd_shape := [s]; nd_data := ks |}
                        (broadcast_index [s] [c0; c1; c2; c3]) = Some K).
    { unfold broadcast_index, nd_get, ravel. simpl.
      destruct (decide (s = 1)) as [->|_]; simpl.
      - replace c3 with 0 in HK by lia. exact HK.
      - exact HK. }
    unfold np_indices.
    change (seq 0 (length dims)) with [0; 1; 2; 3].
    cbn [fmap list_fmap app mapM nd_shape].
    rewrite !Hi, Hw. cbn [mbind option_bind mret option_ret nth].
    rewrite Hs. cbn [zip zip_with forallb fst snd].
    rewrite (proj2 (Nat.ltb_lt c0 s) H0), (proj2 (Nat.ltb_lt c1 d1) H1),
      (proj2 (Nat.ltb_lt c2 d2) H2), (proj2 (Nat.ltb_lt 0 1) ltac:(lia)),
      (proj2 (Nat.ltb_lt K m) HKm).
    cbn [andb]. unfold nd_get. rewrite Hs. reflexivity. }
  destruct (mapM_seq_ex g (size out)) as (l & El & Ll & Hlook).
  { intros off Hoff.
    pose proof (unravel_bounds out off Hoff) as Hb.
    pose proof (ravel_unravel out off Hoff) as Hr.
    destruct (unravel out off) as [|c0 [|c1 [|c2 [|c3 [|? ?]]]]] eqn:Eu;
      try (apply Forall2_length in Hb; discriminate Hb).
    apply Forall2_cons in Hb as [H0 Hb]. apply Forall2_cons in Hb as [H1 Hb].
    apply Forall2_cons in Hb as [H2 Hb]. apply Forall2_cons in Hb as [H3 _].
    destruct (lookup_lt_is_Some_2 ks c3 ltac:(lia)) as [K HK].
    rewrite <- Hr, (Hg c0 c1 c2 c3 K) by assumption.
    apply lookup_lt_is_Some_2.
    rewrite ravel_snoc by reflexivity.
    assert (Hb' : Forall2 (fun i d => i < d) [c0; c1; c2; 0] dims)
      by (repeat constructor; assumption || lia).
    pose proof (ravel_bound _ _ Hb') as Hoff'.
    rewrite Forall_forall in Hks.
    pose proof (Hks K (list_elem_of_lookup_2 _ _ _ HK)). nia. }
  exists l. split; [|split; [exact Ll|]].
  - unfold np_take.
    destruct (decide _) as [_|Hn]; [|exfalso; apply Hn; rewrite Hs; reflexivity].
    assert (Hsh : foldl (fun (acc : option (list nat)) (ix : ndarray nat) =>
                           match acc with
                           | Some sh => broadcast_shapes sh (nd_shape ix)
                           | None => None
                           end) (Some [])
                    (np_indices dims
                     ++ [{| nd_dtype := "int64"; nd_shape := [s]; nd_data := ks |}])
                  = Some out).
    { unfold np_indices. change (seq 0 (length dims)) with [0; 1; 2; 3].
      cbn [fmap list_fmap app foldl nd_shape].
      rewrite broadcast_shapes_nil, !broadcast_shapes_refl.
      apply broadcast_thin_index. }
    rewrite Hsh. fold g. now rewrite El.
  - intros c0 c1 c2 c3 K H0 H1 H2 H3 HK.
    assert (Hb : Forall2 (fun i d => i < d) [c0; c1; c2; c3] out)
      by (repeat constructor; assumption).
    rewrite Hlook by (now apply ravel_bound).
    now apply Hg.
Qed.

End ThinIndexing.

Section PredictThinBatch.
Context {F : Type}.
Variables (f_exp f_sqrt : F -> F) (f_div : F -> F -> F) (f_gt : F -> F -> bool).
Variable forward : Model -> ndarray F -> result (ndarray F).

(** X17. On a batch of volumes whose [x] size is 1
    [GaussianMixtureCAE.predict] returns without an error an array of
    another shape than its input.  Let the network answer an accepted
    input of shape [(s, z, y, 1, 1)] with one row per sample, each made of
    [m] log-priors, [m] variances and [z*y*m] means, and let [which[k]] be
    the Gaussian that sample [k] prefers.  Then the result has the shape
    [(s, z, y, s, 1)], the shape of the input only for a single sample,
    and its element [[n, i, j, k, 0]] is [mu[n, i, j, 0, which[k]]]. *)
Theorem predict_thin_batch_widens (self : GaussianMixtureCAE) (mdl : Model)
    (array pred : ndarray F) (s z y : nat)
    (samples : list (list F * list F * list F)) (w : world) :
  let m := Z.to_nat (n_gaussians self) in
  let c := (z * y * 1 * m)%nat in
  let mu := {| nd_dtype := nd_dtype pred; nd_shape := [s; z; y; 1%nat; m];
               nd_data := concat ((fun smp => smp.2) <$> samples) |} in
  _model (gm_naked self) = Some mdl ->
  nd_dtype array = "float32" ->
  nd_shape array = [s; z; y; 1; 1]%nat ->
  0 < n_gaussians self ->
  (z * y <> 0)%nat ->
  forward mdl array = Ok pred ->
  length samples = s ->
  Forall (sample_ok m c) samples ->
  nd_shape pred = [s; 2 * m + c]%nat ->
  nd_data pred = concat (sample_row <$> samples) ->
  exists which r,
    Forall2 (fun smp k => argmax_list f_gt (sample_ratio f_exp f_sqrt f_div smp) = Some k)
            samples which
    /\ GaussianMixtureCAE_predict f_exp f_sqrt f_div f_gt forward self array w
       = (Ok r, logged w [EvPredict mdl (nd_shape array)])
    /\ nd_shape r = [s; z; y; s; 1]%nat
    /\ (nd_shape r = nd_shape array <-> s = 1%nat)
    /\ forall n i j k K,
         (n < s)%nat -> (i < z)%nat -> (j < y)%nat -> (k < s)%nat ->
         which !! k = Some K ->
         nd_get r [n; i; j; k; 0%nat] = nd_get mu [n; i; j; 0%nat; K].
Proof.
  intros m c mu Hmdl Hdt Hsh Hm Hv Hfw Hls Hok Hps Hpd.
  assert (Hm' : (0 < m)%nat) by (unfold m; lia).
  assert (Hlp : Forall (fun r : list F => length r = m)
                  ((fun smp : list F * list F * list F => smp.1.1) <$> samples)).
  { apply Forall_fmap. eapply Forall_impl; [exact Hok|]. now intros smp (H1 & _). }
  assert (Hss : Forall (fun r : list F => length r = m)
                  ((fun smp : list F * list F * list F => smp.1.2) <$> samples)).
  { apply Forall_fmap. eapply Forall_impl; [exact Hok|]. now intros smp (_ & H2 & _). }
  assert (Hmu : Forall (fun r : list F => length r = c)
                  ((fun smp : list F * list F * list F => smp.2) <$> samples)).
  { apply Forall_fmap. eapply Forall_impl; [exact Hok|]. now intros smp (_ & _ & H3). }
  assert (Hrt : Forall (fun r : list F => length r = m)
                  (sample_ratio f_exp f_sqrt f_div <$> samples)).
  { apply Forall_fmap. eapply Forall_impl; [exact Hok|].
    intros smp (H1 & H2 & _). unfold compose, sample_ratio.
    rewrite length_zip_with, !length_fmap. lia. }
  destruct (argmax_all f_gt _ m Hm' Hrt) as (which & Hwhich & Hbound).
  pose proof (Forall2_length _ _ _ Hwhich) as Hlw. rewrite length_fmap, Hls in Hlw.
  symmetry in Hlw.
  (* the pieces of the prediction *)
  assert (Esplit : np_split_axis1 pred [n_gaussians self; 2 * n_gaussians self]
                   = Ok [ {| nd_dtype := nd_dtype pred; nd_shape := [s; m]%nat;
                             nd_data := concat ((fun smp => smp.1.1) <$> samples) |};
                          {| nd_dtype := nd_dtype pred; nd_shape := [s; m]%nat;
                             nd_data := concat ((fun smp => smp.1.2) <$> samples) |};
                          {| nd_dtype := nd_dtype pred; nd_shape := [s; c]%nat;
                             nd_data := concat ((fun smp => smp.2) <$> samples) |} ]).
  { replace (n_gaussians self) with (Z.of_nat m) by (unfold m; lia).
    rewrite <- Hls. apply (np_split_rows pred samples m c Hok); [|exact Hpd].
    rewrite Hps, Hls. do 2 f_equal. lia. }
  assert (Ereshape :
            np_reshape_batch {| nd_dtype := nd_dtype pred; nd_shape := [s; c]%nat;
                                nd_data := concat ((fun smp => smp.2) <$> samples) |}
                             z y 1 (n_gaussians self)
            = Ok mu)
    by (exact (np_reshape_rows
                 {| nd_dtype := nd_dtype pred; nd_shape := [s; c]%nat;
                    nd_data := concat ((fun smp => smp.2) <$> samples) |}
                 s z y 1 (n_gaussians self) Hm ltac:(lia) eq_refl)).
  assert (Eratio :
            np_map2 f_div
              (np_map f_exp {| nd_dtype := nd_dtype pred; nd_shape := [s; m]%nat;
                               nd_data := concat ((fun smp => smp.1.1) <$> samples) |})
              (np_map f_sqrt {| nd_dtype := nd_dtype pred; nd_shape := [s; m]%nat;
                                nd_data := concat ((fun smp => smp.1.2) <$> samples) |})
            = Ok {| nd_dtype := nd_dtype pred; nd_shape := [s; m]%nat;
                    nd_data := concat (sample_ratio f_exp f_sqrt f_div <$> samples) |}).
  { rewrite np_map2_same_shape.
    - simpl. now rewrite (ratio_concat f_exp f_sqrt f_div m c samples Hok).
    - reflexivity.
    - simpl. rewrite length_fmap, (length_concat_uniform _ m Hlp), length_fmap. lia.
    - simpl. rewrite length_fmap, (length_concat_uniform _ m Hss), length_fmap. lia. }
  assert (Ewhich :
            np_argmax_axis1 f_gt
              {| nd_dtype := nd_dtype pred; nd_shape := [s; m]%nat;
                 nd_data := concat (sample_ratio f_exp f_sqrt f_div <$> samples) |}
            = Ok {| nd_dtype := "int64"; nd_shape := [s]; nd_data := which |}).
  { rewrite (np_argmax_rows f_gt _ (sample_ratio f_exp f_sqrt f_div <$> samples) m which);
      try assumption; try reflexivity.
    - now rewrite length_fmap, Hls.
    - simpl. now rewrite length_fmap, Hls. }
  destruct (np_take_thin mu s z y m which eq_refl Hlw Hbound) as (l & Etake & Ll & Hl).
  { simpl. rewrite (length_concat_uniform _ c Hmu), length_fmap, Hls. unfold c. lia. }
  exists which,
    (np_expand_dims {| nd_dtype := nd_dtype pred; nd_shape := [s; z; y; s];
                       nd_data := l |} 4).
  split; [|split; [|split; [|split]]].
  - now apply Forall2_fmap_l in Hwhich.
  - unfold GaussianMixtureCAE_predict.
    assert (Hacc : ~ rejected_input array).
    { unfold rejected_input. rewrite Hdt, Hsh. simpl.
      intros [E|[E|E]]; congruence. }
    rewrite (bind_Ok _ _ _ _ _ (check_input_array_accepts array w Hacc)).
    rewrite Hmdl, (bind_Ok _ _ _ _ _ (keras_predict_ok forward mdl array pred w Hfw)).
    rewrite Hsh. cbv beta iota.
    rewrite (lift_bind_Ok _ _ _ _ Esplit). cbv beta iota.
    rewrite (lift_bind_Ok _ _ _ _ Ereshape).
    rewrite (lift_bind_Ok _ _ _ _ Eratio).
    rewrite (lift_bind_Ok _ _ _ _ Ewhich).
    change (np_indices (removelast [s; z; y; 1; 1]%nat))
      with (np_indices [s; z; y; 1]%nat).
    unfold np_indices in Etake |- *.
    cbn [length seq fmap list_fmap app] in Etake |- *.
    rewrite (lift_bind_Ok _ _ _ _ Etake). reflexivity.
  - reflexivity.
  - rewrite Hsh. cbn [nd_shape np_expand_dims take drop app]. split.
    + intros [= E]. exact E.
    + now intros ->.
  - intros n i j k K Hn Hi Hj Hk HK.
    pose proof (Hl n i j k K Hn Hi Hj Hk HK) as Hv'.
    unfold nd_get. unfold mu in Hv' |- *.
    cbn [nd_shape nd_data np_expand_dims take drop app] in Hv' |- *.
    rewrite <- Hv'.
    change [s; z; y; s; 1%nat] with ([s; z; y; s] ++ [1%nat]).
    change [n; i; j; k; 0%nat] with ([n; i; j; k] ++ [0%nat]).
    rewrite ravel_snoc by reflexivity. f_equal. lia.
Qed.

End PredictThinBatch.

(** ** The further theorems at concrete inputs *)

(** The default autoencoder with batch normalization. *)
Lemma cae_model_layers_witness :
  let r := GaussianMixtureCAE_build_layers (example_cae true) world0 in
  r = (Ok (value_or (example_cae true) r), r.2)
  /\ exists self' mdl,
       build_model (example_cae true) None world0 = (Ok self', r.2)
       /\ _model (gm_naked self') = Some mdl
       /\ sig <$> layers mdl ≡ₚ cae_sigs (example_cae true) (uid_of world0 "input")
       /\ NoDup (lname <$> layers mdl).
Proof.
  intros r.
  assert (E : r = (Ok (value_or (example_cae true) r), r.2)) by (vm_compute; reflexivity).
  split; [exact E|].
  exact (cae_model_layers (example_cae true) _ world0 _ E).
Defined.

(** The default classifier without batch normalization. *)
Lemma lungnet_model_layers_witness :
  let r := LungNet_build_layers (example_lungnet false) world0 in
  r = (Ok (value_or (example_lungnet false) r), r.2)
  /\ exists self' mdl,
       build_model (example_lungnet false) None world0 = (Ok self', r.2)
       /\ _model (ln_naked self') = Some mdl
       /\ sig <$> layers mdl
          = lungnet_sigs (example_lungnet false) (uid_of world0 "input")
              (uid_of world0 "dense") (uid_of world0 "dropout")
       /\ NoDup (lname <$> layers mdl).
Proof.
  intros r.
  assert (E : r = (Ok (value_or (example_lungnet false) r), r.2))
    by (vm_compute; reflexivity).
  split; [exact E|].
  exact (lungnet_model_layers (example_lungnet false) _ world0 _ E).
Defined.


(** Volumes of 3x3x3 voxels through the three blocks of the default
    autoencoder: 8x8x8 voxels come out. *)
Lemma cae_output_width_same_witness :
  (0 < 2 /\ 0 < 3)
  /\ exists self' w' mdl,
       build_model (GaussianMixtureCAE_default 2 (3, 3, 3)) None world0 = (Ok self', w')
       /\ _model (gm_naked self') = Some mdl
       /\ int_shape (m_output mdl) = [None; Some (2 * 2 + 8 * 8 * 8 * 2)].
Proof.
  split; [lia|].
  destruct (cae_output_width_same 2 3 3 3 default_filters default_kernel false
              (opt_name "adam") 10 "/tmp/" default_weights_name_format 0 world0
              ltac:(lia) ltac:(lia) ltac:(lia) ltac:(lia))
    as (self' & w' & mdl & E & Hm & Hs & _).
  exists self', w', mdl. repeat split; assumption.
Defined.

Lemma gmd_head_width_witness :
  let r := _build_gmd_layers (example_cae false) example_tensor example_tensor world0 in
  r = (Ok (value_or example_tensor r), r.2)
  /\ exists b D1 D2 D3 c,
       int_shape example_tensor = [b; Some D1; Some D2; Some D3; Some c]
       /\ D1 <> 0 /\ D2 <> 0 /\ D3 <> 0 /\ n_gaussians (example_cae false) <> 0
       /\ int_shape (value_or example_tensor r)
          = [b; Some (2 * n_gaussians (example_cae false)
                      + D1 * D2 * D3 * n_gaussians (example_cae false))].
Proof.
  intros r.
  assert (E : r = (Ok (value_or example_tensor r), r.2)) by (vm_compute; reflexivity).
  split; [exact E|].
  exact (gmd_head_width (example_cae false) example_tensor example_tensor
           (value_or example_tensor r) world0 r.2 E).
Defined.


(** One volume of 1x1x2 voxels and two Gaussians, with integers for
    scalars: the second Gaussian wins. *)
Lemma predict_single_volume_witness :
  let pred := {| nd_dtype := "float32"; nd_shape := [1; 8]%nat;
                 nd_data := [0; 1; 1; 1; 10; 11; 20; 21] |} in
  let array := {| nd_dtype := "float32"; nd_shape := [1; 1; 1; 2; 1]%nat;
                  nd_data := [0; 0] |} in
  (_model (gm_naked tiny_cae) = Some (model_of (gm_naked tiny_cae))
   /\ 0 < n_gaussians tiny_cae)
  /\ exists k r,
       argmax_list Z.gtb (zip_with Z.sub (Z.succ <$> [0; 1]) (Z.succ <$> [1; 1])) = Some k
       /\ (k < 2)%nat
       /\ GaussianMixtureCAE_predict Z.succ Z.succ Z.sub Z.gtb (fun _ _ => Ok pred)
            tiny_cae array world0
          = (Ok r, logged world0 [EvPredict (model_of (gm_naked tiny_cae))
                                            (nd_shape array)])
       /\ nd_shape r = nd_shape array
       /\ length (nd_data r) = (1 * 1 * 2)%nat
       /\ forall v, (v < 1 * 1 * 2)%nat
                    -> nd_data r !! v = [10; 11; 20; 21] !! (v * 2 + k)%nat.
Proof.
  intros pred array.
  assert (Hm : _model (gm_naked tiny_cae) = Some (model_of (gm_naked tiny_cae)))
    by (vm_compute; reflexivity).
  assert (Hg : 0 < n_gaussians tiny_cae) by (vm_compute; reflexivity).
  split; [split; assumption|].
  apply (predict_single_volume Z.succ Z.succ Z.sub Z.gtb (fun _ _ => Ok pred) tiny_cae
           (model_of (gm_naked tiny_cae)) array pred 1 1 2
           [0; 1] [1; 1] [10; 11; 20; 21] world0 Hm);
    first [reflexivity | exact Hg | (simpl; lia) | (vm_compute; reflexivity)].
Defined.



(** The default classifier in a fresh session, and in the session in which
    it has been built once. *)
Lemma freeze_dense_depends_on_session_witness :
  let r := LungNet_build_layers (example_lungnet false) world0 in
  let r' := LungNet_build_layers (example_lungnet false) r.2 in
  (r = (Ok (value_or (example_lungnet false) r), r.2)
   /\ r' = (Ok (value_or (example_lungnet false) r'), r'.2))
  /\ (exists net' w',
         build_model (example_lungnet false) (Some ["dense_1"]) world0 = (Ok net', w'))
  /\ (exists w',
         build_model (example_lungnet false) (Some ["dense_1"]) r.2
         = (Raise ValueError, w')).
Proof.
  intros r r'.
  assert (E : r = (Ok (value_or (example_lungnet false) r), r.2))
    by (vm_compute; reflexivity).
  assert (E' : r' = (Ok (value_or (example_lungnet false) r'), r'.2))
    by (vm_compute; reflexivity).
  split; [split; assumption|].
  destruct (freeze_dense_depends_on_session (example_lungnet false) _ world0 _ E)
    as (Hfresh & _ & Hused).
  destruct (freeze_dense_depends_on_session (example_lungnet false) _ r.2 _ E')
    as (_ & Hraise & _).
  split; [apply Hfresh; reflexivity | apply Hraise; exact Hused].
Defined.


(** Two volumes of 1x1x2 voxels and two Gaussians, with integers for
    scalars. *)
Lemma predict_batch_indexes_by_x_witness :
  let samples := [([0; 5], [1; 1], [10; 11; 20; 21]);
                  ([5; 0], [1; 1], [30; 31; 40; 41])] in
  let pred := {| nd_dtype := "float32"; nd_shape := [2; 8]%nat;
                 nd_data := concat (sample_row <$> samples) |} in
  let array := {| nd_dtype := "float32"; nd_shape := [2; 1; 1; 2; 1]%nat;
                  nd_data := [0; 0; 0; 0] |} in
  let mu := {| nd_dtype := "float32"; nd_shape := [2; 1; 1; 2; 2]%nat;
               nd_data := [10; 11; 20; 21; 30; 31; 40; 41] |} in
  (_model (gm_naked tiny_cae) = Some (model_of (gm_naked tiny_cae))
   /\ 0 < n_gaussians tiny_cae
   /\ Forall (sample_ok 2 4) samples)
  /\ exists (which : list nat) (r : ndarray Z),
       Forall2 (fun smp k =>
                  argmax_list Z.gtb (sample_ratio Z.succ Z.succ Z.sub smp) = Some k)
               samples which
       /\ GaussianMixtureCAE_predict Z.succ Z.succ Z.sub Z.gtb (fun _ _ => Ok pred)
            tiny_cae array world0
          = (Ok r, logged world0 [EvPredict (model_of (gm_naked tiny_cae))
                                            (nd_shape array)])
       /\ nd_shape r = nd_shape array
       /\ forall n i j k K,
            (n < 2)%nat -> (i < 1)%nat -> (j < 1)%nat -> (k < 2)%nat ->
            which !! k = Some K ->
            nd_get r [n; i; j; k; 0%nat] = nd_get mu [n; i; j; k; K].
Proof.
  intros samples pred array mu.
  assert (Hm : _model (gm_naked tiny_cae) = Some (model_of (gm_naked tiny_cae)))
    by (vm_compute; reflexivity).
  assert (Hg : 0 < n_gaussians tiny_cae) by (vm_compute; reflexivity).
  assert (Hs : Forall (sample_ok 2 4) samples) by (repeat constructor).
  split; [repeat split; assumption|].
  apply (predict_batch_indexes_by_x Z.succ Z.succ Z.sub Z.gtb (fun _ _ => Ok pred)
           tiny_cae (model_of (gm_naked tiny_cae)) array pred 2 1 1 samples world0 Hm);
    first [reflexivity | exact Hg | exact Hs | (simpl; lia) | (vm_compute; reflexivity)].
Defined.

(** Two volumes of 1x1x1 voxels and two Gaussians, with integers for
    scalars. *)
Lemma predict_thin_batch_widens_witness :
  let samples := [([0; 5], [1; 1], [10; 11]); ([5; 0], [1; 1], [30; 31])] in
  let pred := {| nd_dtype := "float32"; nd_shape := [2; 6]%nat;
                 nd_data := concat (sample_row <$> samples) |} in
  let array := {| nd_dtype := "float32"; nd_shape := [2; 1; 1; 1; 1]%nat;
                  nd_data := [0; 0] |} in
  let mu := {| nd_dtype := "float32"; nd_shape := [2; 1; 1; 1; 2]%nat;
               nd_data := [10; 11; 30; 31] |} in
  (_model (gm_naked tiny_cae) = Some (model_of (gm_naked tiny_cae))
   /\ 0 < n_gaussians tiny_cae
   /\ Forall (sample_ok 2 2) samples)
  /\ exists (which : list nat) (r : ndarray Z),
       Forall2 (fun smp k =>
                  argmax_list Z.gtb (sample_ratio Z.succ Z.succ Z.sub smp) = Some k)
               samples which
       /\ GaussianMixtureCAE_predict Z.succ Z.succ Z.sub Z.gtb (fun _ _ => Ok pred)
            tiny_cae array world0
          = (Ok r, logged world0 [EvPredict (model_of (gm_naked tiny_cae))
                                            (nd_shape array)])
       /\ nd_shape r = [2; 1; 1; 2; 1]%nat
       /\ (nd_shape r = nd_shape array <-> 2%nat = 1%nat)
       /\ forall n i j k K,
            (n < 2)%nat -> (i < 1)%nat -> (j < 1)%nat -> (k < 2)%nat ->
            which !! k = Some K ->
            nd_get r [n; i; j; k; 0%nat] = nd_get mu [n; i; j; 0%nat; K].
Proof.
  intros samples pred array mu.
  assert (Hm : _model (gm_naked tiny_cae) = Some (model_of (gm_naked tiny_cae)))
    by (vm_compute; reflexivity).
  assert (Hg : 0 < n_gaussians tiny_cae) by (vm_compute; reflexivity).
  assert (Hs : Forall (sample_ok 2 2) samples) by (repeat constructor).
  split; [repeat split; assumption|].
  apply (predict_thin_batch_widens Z.succ Z.succ Z.sub Z.gtb (fun _ _ => Ok pred)
           tiny_cae (model_of (gm_naked tiny_cae)) array pred 2 1 1 samples world0 Hm);
    first [reflexivity | exact Hg | exact Hs | (simpl; lia) | (vm_compute; reflexivity)].
Defined.
